(** * OpenSea / Magic Eden tool servers: resilient fetch client, plugin
      registry and read tools.

    A shallow embedding of
    - [typescript/lib/mcp-tools/opensea-mcp-server/src/mcp.ts]
      (the retrying fetch client [osFetch] and the six read tools),
    - the registry of [typescript/onchain-actions-plugins/nft]
      ([registerNftPlugin], [getNftPlugin]),
    - the OpenSea and Magic Eden plugins,
    followed by the properties the specification states about them.

    JavaScript strings are modelled as [string] (sequences of 8-bit
    characters; case conversion and white space are the ASCII ones),
    JSON payloads as the inductive [Json], thrown values as [Thrown],
    and the asynchronous, effectful code as a state monad over the list
    of HTTP requests issued so far and the console. *)

From Stdlib Require Import ZArith NArith Decimal DecimalString Ascii String.
From stdpp Require Import gmap strings list fin_maps.

Local Open Scope string_scope.
Set Warnings "-register-all".

(* ===================================================================== *)
(** * JavaScript strings                                                 *)
(* ===================================================================== *)

Module JsString.

Definition chars (s : string) : list ascii := list_ascii_of_string s.
Definition of_chars (l : list ascii) : string := string_of_list_ascii l.

Definition code (c : ascii) : N := N_of_ascii c.

Definition is_digit (c : ascii) : bool :=
  (48 <=? code c)%N && (code c <=? 57)%N.
Definition is_lower (c : ascii) : bool :=
  (97 <=? code c)%N && (code c <=? 122)%N.
Definition is_upper (c : ascii) : bool :=
  (65 <=? code c)%N && (code c <=? 90)%N.

Definition toUpperChar (c : ascii) : ascii :=
  if is_lower c then ascii_of_N (code c - 32) else c.
Definition toLowerChar (c : ascii) : ascii :=
  if is_upper c then ascii_of_N (code c + 32) else c.

(** [s.toLowerCase()] *)
Definition toLowerCase (s : string) : string :=
  of_chars (map toLowerChar (chars s)).

(** White space removed by [trim]: tab, line feed, vertical tab, form
    feed, carriage return, space. *)
Definition is_white (c : ascii) : bool :=
  ((9 <=? code c)%N && (code c <=? 13)%N) || (code c =? 32)%N.

Fixpoint trimStart_chars (l : list ascii) : list ascii :=
  match l with
  | c :: l' => if is_white c then trimStart_chars l' else l
  | [] => []
  end.

Definition trim_chars (l : list ascii) : list ascii :=
  rev (trimStart_chars (rev (trimStart_chars l))).

(** [s.trim()] *)
Definition trim (s : string) : string := of_chars (trim_chars (chars s)).

(** A string is truthy when it is not empty. *)
Definition truthy (s : string) : bool :=
  match s with EmptyString => false | String _ _ => true end.

(** The safe integers, below 2^53 in absolute value: the integers that
    a JavaScript number holds as they were written. *)
Definition safe_integer (z : Z) : bool := (Z.abs z <? 2 ^ 53)%Z.

(** [String(n)] for a safe integer: its decimal expansion.  (Beyond
    2^53 a number need not be the integer that was written, and from
    10^21 on [String] uses the exponent notation: properties that spell
    the digits of a number a caller passes are stated for safe
    integers.) *)
Definition of_N (n : N) : string := NilZero.string_of_uint (N.to_uint n).
Definition of_nat (n : nat) : string := NilZero.string_of_uint (Nat.to_uint n).
Definition of_Z (z : Z) : string := NilZero.string_of_int (Z.to_int z).

End JsString.

(* ===================================================================== *)
(** * Regular expressions (the fragment the sources use)                 *)
(* ===================================================================== *)

Module RegExp.
Import JsString.

(** One-character atoms. *)
Inductive Atom : Type :=
| AChar (c : ascii)                       (* a literal character *)
| ADigit                                  (* \d *)
| AClass (ranges : list (ascii * ascii)). (* [a-f0-9] *)

(** [/^? alt1 | alt2 | ... $?/i?]: each alternative is a sequence of
    atoms; a bounded repetition [{n}] is written out. *)
Record t : Type := mk {
  bol : bool;               (* starts with ^ *)
  alts : list (list Atom);
  eol : bool;               (* ends with $ *)
  ignoreCase : bool         (* flag i *)
}.

Definition lit (s : string) : list Atom := map AChar (chars s).

(** Canonicalize of the language specification, for the 8-bit range. *)
Definition canon (ic : bool) (c : ascii) : ascii :=
  if ic then toUpperChar c else c.

Definition in_ranges (rs : list (ascii * ascii)) (c : ascii) : bool :=
  existsb (fun r => (code (fst r) <=? code c)%N && (code c <=? code (snd r))%N) rs.

Definition atom_matches (ic : bool) (a : Atom) (c : ascii) : bool :=
  match a with
  | AChar x => bool_decide (canon ic x = canon ic c)
  | ADigit => is_digit c
  | AClass rs =>
      in_ranges rs c
      || (ic && (in_ranges rs (toLowerChar c) || in_ranges rs (toUpperChar c)))
  end.

(** Match a sequence of atoms at the head of the input; the rest of the
    input is returned. *)
Fixpoint match_here (ic : bool) (atoms : list Atom) (s : list ascii)
  : option (list ascii) :=
  match atoms with
  | [] => Some s
  | a :: atoms' =>
      match s with
      | c :: s' => if atom_matches ic a c then match_here ic atoms' s' else None
      | [] => None
      end
  end.

Definition alt_matches_at (re : t) (s : list ascii) (alt : list Atom) : bool :=
  match match_here (ignoreCase re) alt s with
  | Some rest => if eol re then bool_decide (rest = []) else true
  | None => false
  end.

Definition test_at (re : t) (s : list ascii) : bool :=
  existsb (alt_matches_at re s) (alts re).

Fixpoint search (re : t) (s : list ascii) : bool :=
  test_at re s
  || match s with
     | _ :: s' => search re s'
     | [] => false
     end.

(** [re.test(s)] for a regular expression without the g and y flags. *)
Definition test (re : t) (s : string) : bool :=
  if bol re then test_at re (chars s) else search re (chars s).

End RegExp.

(* ===================================================================== *)
(** * Thrown values                                                      *)
(* ===================================================================== *)

Inductive ErrorClass : Type :=
| ClsError        (* new Error(...) *)
| ClsTypeError    (* a TypeError *)
| ClsSyntaxError. (* a SyntaxError, as JSON decoding raises *)

(** [e instanceof TypeError] *)
Definition is_TypeError (cls : ErrorClass) : bool :=
  match cls with
  | ClsTypeError => true
  | ClsError | ClsSyntaxError => false
  end.

(** Values for which [instanceof Error] holds.  [AbortError] is p-retry's
    wrapper: it keeps the wrapped error as [originalError] and takes over
    its message. *)
Inductive JsError : Type :=
| Err (cls : ErrorClass) (message : string)
| AbortError (originalError : JsError).

Fixpoint message (e : JsError) : string :=
  match e with
  | Err _ m => m
  | AbortError o => message o
  end.

(** Anything a [throw] can raise: an error object, or another value
    (kept as the string [String(v)]). *)
Inductive Thrown : Type :=
| ThrownError (e : JsError)
| ThrownOther (shown : string).

(** [new AbortError(x)] *)
Definition new_AbortError (x : Thrown) : JsError :=
  match x with
  | ThrownError e => AbortError e
  | ThrownOther v => AbortError (Err ClsError v)
  end.

(** [/429|5\d\d|rate|timeout|network/i] *)
Definition TRANSIENT_RE : RegExp.t :=
  RegExp.mk false
    [ RegExp.lit "429";
      [RegExp.AChar "5"; RegExp.ADigit; RegExp.ADigit];
      RegExp.lit "rate";
      RegExp.lit "timeout";
      RegExp.lit "network" ]
    false true.

(** [isRateLimitOrTransient(error: unknown): boolean] *)
Definition isRateLimitOrTransient (error : Thrown) : bool :=
  match error with
  | ThrownOther _ => false
  | ThrownError e => RegExp.test TRANSIENT_RE (message e)
  end.


(* ===================================================================== *)
(** * JSON values and the dynamic operations the handlers use            *)
(* ===================================================================== *)

(** A decoded JSON payload.  Numbers are the integral ones, read as
    JavaScript numbers on the safe integers ([JsString.safe_integer]);
    an object keeps its members in order, with distinct keys. *)
Inductive Json : Type :=
| JNull
| JBool (b : bool)
| JNum (n : Z)
| JStr (s : string)
| JArr (items : list Json)
| JObj (fields : list (string * Json)).

(** A string or a number, as in [string | number]. *)
Inductive Scalar : Type :=
| SStr (s : string)
| SNum (n : Z).

(** [String(v)] *)
Definition String_ (v : Scalar) : string :=
  match v with
  | SStr s => s
  | SNum n => JsString.of_Z n
  end.

Module Js.

Fixpoint assoc {A} (k : string) (l : list (string * A)) : option A :=
  match l with
  | [] => None
  | (k', v) :: l' => if bool_decide (k' = k) then Some v else assoc k l'
  end.

(** [o[k] = v] on an object literal: an existing key keeps its place. *)
Fixpoint assign {A} (k : string) (v : A) (l : list (string * A))
  : list (string * A) :=
  match l with
  | [] => [(k, v)]
  | (k', v') :: l' =>
      if bool_decide (k' = k) then (k, v) :: l' else (k', v') :: assign k v l'
  end.

(** [j?.k]: [None] stands for [undefined].  None of the keys the sources
    read is a property of arrays, strings, numbers or booleans. *)
Definition get (j : Json) (k : string) : option Json :=
  match j with
  | JObj fields => assoc k fields
  | _ => None
  end.

(** [a ?? b] *)
Definition coalesce (a : option Json) (b : option Json) : option Json :=
  match a with
  | None | Some JNull => b
  | Some v => Some v
  end.

(** [a ?? b ?? null], a value that is never [undefined]. *)
Definition or_null (a : option Json) : Json :=
  match a with
  | None => JNull
  | Some v => v
  end.

Definition truthy (j : Json) : bool :=
  match j with
  | JNull => false
  | JBool b => b
  | JNum n => negb (n =? 0)%Z
  | JStr s => JsString.truthy s
  | JArr _ | JObj _ => true
  end.

Definition truthy_opt (o : option Json) : bool :=
  match o with
  | None => false
  | Some j => truthy j
  end.

Definition opt_str (o : option string) : Json :=
  match o with
  | None => JNull
  | Some s => JStr s
  end.

End Js.

(* ===================================================================== *)
(** * The host: environment, network, and the effect monad               *)
(* ===================================================================== *)

(** A [URL] object: the base it was resolved against, its path, and its
    [searchParams]. *)
Record URL : Type := mkURL {
  url_base : string;
  url_path : string;
  url_search : list (string * string)
}.

Record Request : Type := mkRequest {
  req_url : URL;
  req_headers : list (string * string)
}.

(** Response headers, keyed by lower-case name as [Headers.get] looks
    them up. *)
Abbreviation Headers := (gmap string string).

Record Response : Type := mkResponse {
  status : N;
  headers : Headers;
  body_text : option string;   (* [None]: [res.text()] rejects *)
  body_json : Thrown + Json    (* [inl]: [res.json()] rejects *)
}.

(** [res.ok] *)
Definition ok (res : Response) : bool :=
  (200 <=? status res)%N && (status res <=? 299)%N.

(** What lies outside the repository: the process environment, the remote
    end of [fetch] (which may answer differently as requests accumulate),
    and p-retry's table of network error messages. *)
Record Host : Type := mkHost {
  env_OPENSEA_BASE_URL : option string;
  env_OPENSEA_API_KEY : option string;
  env_DEFAULT_ARBITRUM_WALLET : option string;
  network : list Request -> Request -> Thrown + Response;
  isNetworkError : string -> bool
}.

(** [process.env.X || fallback] *)
Definition env_or (x : option string) (fallback : string) : string :=
  match x with
  | Some v => if JsString.truthy v then v else fallback
  | None => fallback
  end.

(** What the code changes: the requests sent so far (oldest first) and
    the lines written with [console.error]. *)
Record State : Type := mkState {
  issued : list Request;
  console : list string
}.

Definition initial : State := mkState [] [].

(** The result of awaiting a promise. *)
Inductive Outcome (A : Type) : Type :=
| Resolved (a : A)
| Rejected (t : Thrown).
Arguments Resolved {A} a.
Arguments Rejected {A} t.

(** An [async] computation. *)
Definition M (A : Type) : Type := State -> Outcome A * State.

Definition ret {A} (a : A) : M A := fun s => (Resolved a, s).
Definition throw {A} (t : Thrown) : M A := fun s => (Rejected t, s).
Definition bind {A B} (m : M A) (k : A -> M B) : M B :=
  fun s =>
    match m s with
    | (Resolved a, s') => k a s'
    | (Rejected t, s') => (Rejected t, s')
    end.
(** [try { body } catch (err) { handler(err) }] *)
Definition try_catch {A} (body : M A) (handler : Thrown -> M A) : M A :=
  fun s =>
    match body s with
    | (Resolved a, s') => (Resolved a, s')
    | (Rejected t, s') => handler t s'
    end.

Notation "x <- m ;; k" := (bind m (fun x => k))
  (at level 100, m at next level, right associativity).
Notation "m ;;; k" := (bind m (fun _ => k))
  (at level 100, right associativity).

(** [await fetch(url, { headers })] *)
Definition fetch (h : Host) (url : URL) (hs : list (string * string))
  : M Response :=
  fun s =>
    let req := mkRequest url hs in
    let s' := mkState (issued s ++ [req]) (console s) in
    match network h (issued s) req with
    | inl t => (Rejected t, s')
    | inr res => (Resolved res, s')
    end.

(** [console.error(line)] *)
Definition console_error (line : string) : M unit :=
  fun s => (Resolved tt, mkState (issued s) (console s ++ [line])).

(* ===================================================================== *)
(** * p-retry                                                            *)
(* ===================================================================== *)

Module PRetry.

Record Options : Type := mkOptions {
  factor : Z;
  minTimeout : Z;
  maxTimeout : Z;
  randomize : bool;
  retries : nat;
  (** called with the failed attempt's error, its [attemptNumber] and
      its [retriesLeft] *)
  onFailedAttempt : JsError -> nat -> nat -> M unit
}.

Definition dquote : string := String "034"%char EmptyString.

Definition non_error (v : string) : JsError :=
  Err ClsTypeError
    ("Non-error was thrown: " +:+ dquote +:+ v +:+ dquote
     +:+ ". You should only throw errors.").

(** How often a message occurs among messages. *)
Fixpoint count_message (m : string) (messages : list string) : nat :=
  match messages with
  | [] => 0
  | m' :: rest =>
      (if bool_decide (m' = m) then 1 else 0) + count_message m rest
  end.

(** The loop of [RetryOperation.prototype.mainError] in the [retry]
    package, on which p-retry builds up to its version 6:
    [counts[message]] is the number of times the message has been met
    so far, and an error takes the place of [mainError] when its count
    is not below [mainErrorCount].  ([counts] is an object: a message
    that is the name of a member of [Object.prototype] would be counted
    differently; no message that matches the pattern of
    [isRateLimitOrTransient] is such a name.) *)
Fixpoint mainError_loop (errors : list JsError) (met : list string)
    (mainError : option JsError) (mainErrorCount : nat) : option JsError :=
  match errors with
  | [] => mainError
  | error :: rest =>
      let count := S (count_message (message error) met) in
      if (mainErrorCount <=? count)%nat
      then mainError_loop rest (message error :: met) (Some error) count
      else mainError_loop rest (message error :: met) mainError mainErrorCount
  end.

(** [operation.mainError()]: of the errors recorded by
    [operation.retry], the one whose message occurred most often, and
    the latest of them when several occurred equally often; [None] is
    [null], for no error at all. *)
Definition mainError (errors : list JsError) : option JsError :=
  mainError_loop errors [] None 0.

(** The attempts that remain after a failed one, counted down by
    [retriesLeft]; [errors] are the errors that [operation.retry] has
    recorded so far.  A rejection that is not an error, an [AbortError],
    and a [TypeError] that is not a network error end the operation at
    once; any other error is reported to [onFailedAttempt], recorded,
    and, while retries are left, followed by a new attempt; when none is
    left the operation rejects with [operation.mainError()].  The waiting
    between two attempts ([factor], [minTimeout], [maxTimeout],
    [randomize]) changes nothing in the state. *)
Fixpoint attempts {A} (h : Host) (input : nat -> M A) (opts : Options)
    (errors : list JsError) (attemptNumber retriesLeft : nat) : M A :=
  try_catch (input attemptNumber) (fun error =>
    match error with
    | ThrownOther v => throw (ThrownError (non_error v))
    | ThrownError (AbortError originalError) =>
        throw (ThrownError originalError)
    | ThrownError (Err cls msg as e) =>
        if is_TypeError cls && negb (isNetworkError h msg)
        then throw error
        else
          onFailedAttempt opts e attemptNumber retriesLeft ;;;
          let errors' := (errors ++ [e])%list in
          match retriesLeft with
          | O => throw (ThrownError (default e (mainError errors')))
          | S retriesLeft' =>
              attempts h input opts errors' (S attemptNumber) retriesLeft'
          end
    end).

(** [pRetry(input, options)] *)
Definition pRetry {A} (h : Host) (input : nat -> M A) (opts : Options) : M A :=
  attempts h input opts [] 1 (retries opts).

End PRetry.

(* ===================================================================== *)
(** * The resilient fetch client (opensea-mcp-server/src/mcp.ts)         *)
(* ===================================================================== *)

(** [Record<string, string | number | undefined>]; the loop of [osFetch]
    also guards against [null]. *)
Inductive QueryValue : Type :=
| QV (v : Scalar)
| QUndefined
| QNull.

Abbreviation QStr s := (QV (SStr s)).
Abbreviation QNum n := (QV (SNum n)).

(** [Object.entries] of the record, in order; the keys are distinct. *)
Definition SearchParams : Type := list (string * QueryValue).

(** [url.searchParams.set(k, v)]: the first pair named [k] takes the
    value and the other pairs named [k] go; without such a pair, a new
    one is appended. *)
Fixpoint searchParams_set (k v : string) (l : list (string * string))
  : list (string * string) :=
  match l with
  | [] => [(k, v)]
  | (k', v') :: l' =>
      if bool_decide (k' = k)
      then (k, v) :: filter (fun p => p.1 ≠ k) l'
      else (k', v') :: searchParams_set k v l'
  end.


Definition URL_set (url : URL) (k v : string) : URL :=
  mkURL (url_base url) (url_path url) (searchParams_set k v (url_search url)).

(** Characters that the URL parser leaves as they are inside a path
    segment: letters, digits, [-], [_] and [~]. *)
Definition plain_char (c : ascii) : bool :=
  JsString.is_digit c || JsString.is_lower c || JsString.is_upper c
  || bool_decide (c = "-"%char) || bool_decide (c = "_"%char)
  || bool_decide (c = "~"%char).

(** A plain path segment. *)
Definition url_plain (segment : string) : bool :=
  forallb plain_char (JsString.chars segment).

(** [new URL(path, BASE)] for a path that begins with one [/] and whose
    segments are plain ([url_plain]): the parser keeps such a path as it
    is and finds no query in it.  (In other paths it removes dot
    segments, splits a query and a fragment off and percent-encodes:
    the paths that the sources build are fixed text and, where a caller's
    text enters, the properties that spell the URL are stated for plain
    segments.) *)
Definition URL_new (path base : string) : URL := mkURL base path [].

(** One turn of the loop:
    [if (v !== undefined && v !== null) url.searchParams.set(k, String(v))] *)
Definition add_one (url : URL) (kv : string * QueryValue) : URL :=
  match kv.2 with
  | QV v => URL_set url kv.1 (String_ v)
  | QUndefined | QNull => url
  end.

(** [if (searchParams)
       for (const [k, v] of Object.entries(searchParams)) ...] *)
Definition add_searchParams (url : URL) (searchParams : option SearchParams)
  : URL :=
  match searchParams with
  | None => url
  | Some entries => foldl add_one url entries
  end.

Module OpenSeaMcp.

(** [process.env.OPENSEA_BASE_URL || 'https://api.opensea.io'] *)
Definition BASE (h : Host) : string :=
  env_or (env_OPENSEA_BASE_URL h) "https://api.opensea.io".

Record RateLimitInfo : Type := mkRateLimitInfo {
  limit : option string;
  remaining : option string;
  reset : option string
}.

Definition extractRateLimit (hs : Headers) : RateLimitInfo :=
  {| limit := hs !! "x-ratelimit-limit";
     remaining := hs !! "x-ratelimit-remaining";
     reset := hs !! "x-ratelimit-reset" |}.

Record FetchResult : Type := mkFetchResult {
  data : Json;
  rateLimit : RateLimitInfo
}.

Definition api_error (res : Response) : JsError :=
  let text := default "" (body_text res) in
  Err ClsError
    ("OpenSea API error " +:+ JsString.of_N (status res) +:+ ": " +:+ text).

Definition request_headers (apiKey : string) : list (string * string) :=
  [("x-api-key", apiKey); ("accept", "application/json")].

(** The function handed to [pRetry]: one attempt. *)
Definition osFetch_attempt (h : Host) (url : URL) (apiKey : string)
  : M FetchResult :=
  try_catch
    (res <- fetch h url (request_headers apiKey) ;;
     if negb (ok res) then
       let err := api_error res in
       if (status res =? 429)%N || (500 <=? status res)%N
       then throw (ThrownError err)
       else throw (ThrownError (new_AbortError (ThrownError err)))
     else
       match body_json res with
       | inl t => throw t
       | inr data => ret (mkFetchResult data (extractRateLimit (headers res)))
       end)
    (fun err =>
       if isRateLimitOrTransient err then throw err
       else throw (ThrownError (new_AbortError err))).

Definition failed_attempt_line (e : JsError) (attemptNumber retriesLeft : nat)
  : string :=
  "OpenSea fetch failed (attempt " +:+ JsString.of_nat attemptNumber
  +:+ ", left " +:+ JsString.of_nat retriesLeft +:+ "): " +:+ message e.

Record RetryConfig : Type := mkRetryConfig {
  cfg_factor : Z;
  cfg_minTimeout : Z;
  cfg_maxTimeout : Z;
  cfg_randomize : bool
}.

(** [{ factor: 2, minTimeout: 500, maxTimeout: 4000, randomize: true }] *)
Definition RETRY_CONFIG : RetryConfig := mkRetryConfig 2 500 4000 true.

(** [{ ...RETRY_CONFIG, retries: 4, onFailedAttempt }] *)
Definition retry_options : PRetry.Options :=
  {| PRetry.factor := cfg_factor RETRY_CONFIG;
     PRetry.minTimeout := cfg_minTimeout RETRY_CONFIG;
     PRetry.maxTimeout := cfg_maxTimeout RETRY_CONFIG;
     PRetry.randomize := cfg_randomize RETRY_CONFIG;
     PRetry.retries := 4;
     PRetry.onFailedAttempt := fun e attemptNumber retriesLeft =>
       console_error (failed_attempt_line e attemptNumber retriesLeft) |}.

Definition osFetch_url (h : Host) (path : string)
    (searchParams : option SearchParams) : URL :=
  add_searchParams (URL_new path (BASE h)) searchParams.

Definition osFetch (h : Host) (path apiKey : string)
    (searchParams : option SearchParams) : M FetchResult :=
  let url := osFetch_url h path searchParams in
  PRetry.pRetry h (fun _ => osFetch_attempt h url apiKey) retry_options.

End OpenSeaMcp.

(* ===================================================================== *)
(** * NFT plugin core (onchain-actions-plugins/nft): types and registry  *)
(* ===================================================================== *)

Module Nft.

Inductive TokenStandard : Type := ERC721 | ERC1155.

(** [GetAssetParams], also [GetListingsParams] and [GetOffersParams].
    The token id is a string or a number. *)
Record GetAssetParams : Type := mkGetAssetParams {
  p_contractAddress : string;
  p_tokenId : Scalar;
  p_chainId : Z
}.

(** [NftPrimitive]; an optional member that is [None] is absent. *)
Record NftPrimitive : Type := mkNftPrimitive {
  contractAddress : string;
  tokenId : string;
  tokenStandard : TokenStandard;
  owner : option Json;
  name : option Json;
  description : option Json;
  image : option Json;
  attributes : option Json;
  isListed : option Json;
  isOffered : option Json;
  currentPrice : option Json;
  floorPrice : option Json;
  lastSalePrice : option Json;
  offerPrice : option Json;
  collectionSlug : option Json;
  collectionName : option Json;
  collectionVerified : option bool;
  chainId : Z
}.

(** [interface NftPlugin].  The write operations take their parameter
    object as it is. *)
Record NftPlugin : Type := mkNftPlugin {
  id : string;
  getAsset : GetAssetParams -> M NftPrimitive;
  getListings : GetAssetParams -> M Json;
  getOffers : GetAssetParams -> M Json;
  list_ : Json -> M Json;
  buy : Json -> M Json;
  offer : Json -> M Json;
  cancelOffer : Json -> M Json;
  transfer : Json -> M Json;
  wrap : Json -> M Json;
  unwrap : Json -> M Json;
  bulkCancel : Json -> M Json
}.

(** [const registry = new Map<string, NftPlugin>()], as a value that
    the two functions below read and update. *)
Abbreviation Registry := (gmap string NftPlugin).

Definition empty_registry : Registry := ∅.

(** [registry.set(plugin.id, plugin)] *)
Definition registerNftPlugin (plugin : NftPlugin) (registry : Registry)
  : Registry :=
  <[id plugin := plugin]> registry.

(** [registry.get(id)] *)
Definition getNftPlugin (i : string) (registry : Registry)
  : option NftPlugin :=
  registry !! i.

(** The registry after a sequence of registrations, first to last. *)
Definition register_all (plugins : list NftPlugin) (registry : Registry)
  : Registry :=
  foldl (fun r p => registerNftPlugin p r) registry plugins.

Definition prepared (tag : string) (params : Json) : M Json :=
  ret (JObj [("prepared", JStr tag); ("params", params)]).

End Nft.

(* ===================================================================== *)
(** * Magic Eden plugin (onchain-actions-plugins/magiceden/src/index.ts) *)
(* ===================================================================== *)

Module MagicEden.
Import Nft.

Definition MagicEdenPlugin : NftPlugin :=
  {| id := "magic-eden";
     getAsset := fun params =>
       ret {| contractAddress := p_contractAddress params;
              tokenId := String_ (p_tokenId params);
              tokenStandard := ERC721;
              owner := None; name := None; description := None;
              image := None; attributes := None; isListed := None;
              isOffered := None; currentPrice := None; floorPrice := None;
              lastSalePrice := None; offerPrice := None;
              collectionSlug := None; collectionName := None;
              collectionVerified := None;
              chainId := p_chainId params |};
     getListings := fun _params => ret (JArr []);
     getOffers := fun _params => ret (JArr []);
     list_ := prepared "magic-eden-listing";
     buy := prepared "magic-eden-buy";
     offer := prepared "magic-eden-offer";
     cancelOffer := prepared "magic-eden-cancel-offer";
     transfer := prepared "magic-eden-transfer";
     wrap := prepared "wrap-weth";
     unwrap := prepared "unwrap-weth";
     bulkCancel := prepared "magic-eden-bulk-cancel" |}.

End MagicEden.

(* ===================================================================== *)
(** * OpenSea plugin (onchain-actions-plugins/opensea)                   *)
(* ===================================================================== *)

Module OpenSea.
Import Nft.

Definition BASE (h : Host) : string :=
  env_or (env_OPENSEA_BASE_URL h) "https://api.opensea.io".

Definition osFetch_url (h : Host) (path : string)
    (params : option SearchParams) : URL :=
  add_searchParams (URL_new path (BASE h)) params.

(** The plugin's own [osFetch]: one request, no retry. *)
Definition osFetch (h : Host) (path : string) (params : option SearchParams)
  : M Json :=
  let url := osFetch_url h path params in
  res <- fetch h url [("x-api-key", env_or (env_OPENSEA_API_KEY h) "");
                      ("accept", "application/json")] ;;
  if negb (ok res) then
    let text := default "" (body_text res) in
    throw (ThrownError (Err ClsError
      ("OpenSea API error " +:+ JsString.of_N (status res) +:+ ": " +:+ text)))
  else
    match body_json res with
    | inl t => throw t
    | inr data => ret data
    end.

(** [params.chainId === 42161 ? 'arbitrum' : 'ethereum'] *)
Definition chain_of (chainId : Z) : string :=
  if (chainId =? 42161)%Z then "arbitrum" else "ethereum".

(** [data?.nft?.k] *)
Definition nft_field (data : Json) (k : string) : option Json :=
  match Js.get data "nft" with
  | None | Some JNull => None
  | Some nft => Js.get nft k
  end.

(** [data?.nft?.collection?.k] *)
Definition collection_field (data : Json) (k : string) : option Json :=
  match nft_field data "collection" with
  | None | Some JNull => None
  | Some c => Js.get c k
  end.

(** [x ?? undefined] *)
Definition or_undefined (x : option Json) : option Json :=
  Js.coalesce x None.

Definition orders_of (res : Json) : Json :=
  match Js.coalesce (Js.get res "orders") (Some (JArr [])) with
  | Some v => v
  | None => JArr []
  end.

Definition asset_query (params : GetAssetParams) : SearchParams :=
  [("asset_contract_address", QStr (p_contractAddress params));
   ("token_ids", QStr (String_ (p_tokenId params)))].

Definition OpenSeaPlugin (h : Host) : NftPlugin :=
  {| id := "opensea";
     getAsset := fun params =>
       let chain := chain_of (p_chainId params) in
       data <- osFetch h ("/api/v2/chain/" +:+ chain +:+ "/contract/"
                          +:+ p_contractAddress params +:+ "/nfts/"
                          +:+ String_ (p_tokenId params)) None ;;
       ret {| contractAddress := p_contractAddress params;
              tokenId := String_ (p_tokenId params);
              tokenStandard :=
                match nft_field data "token_standard" with
                | Some (JStr "erc1155") => ERC1155
                | _ => ERC721
                end;
              owner := or_undefined (nft_field data "owner");
              name := or_undefined (nft_field data "name");
              description := or_undefined (nft_field data "description");
              image := or_undefined (nft_field data "image_url");
              attributes := None; isListed := None; isOffered := None;
              currentPrice := None; floorPrice := None;
              lastSalePrice := None; offerPrice := None;
              collectionSlug := or_undefined (collection_field data "slug");
              collectionName := or_undefined (collection_field data "name");
              collectionVerified :=
                Some (Js.truthy_opt (collection_field data "is_verified"));
              chainId := p_chainId params |};
     getListings := fun params =>
       let chain := chain_of (p_chainId params) in
       res <- osFetch h ("/api/v2/orders/" +:+ chain +:+ "/seaport/listings")
                (Some (asset_query params)) ;;
       ret (orders_of res);
     getOffers := fun params =>
       let chain := chain_of (p_chainId params) in
       res <- osFetch h ("/api/v2/orders/" +:+ chain +:+ "/seaport/offers")
                (Some (asset_query params)) ;;
       ret (orders_of res);
     list_ := prepared "seaport-listing";
     buy := prepared "seaport-buy";
     offer := prepared "seaport-offer";
     cancelOffer := prepared "seaport-cancel-offer";
     transfer := prepared "nft-transfer";
     wrap := prepared "wrap-weth";
     unwrap := prepared "unwrap-weth";
     bulkCancel := prepared "bulk-cancel" |}.

End OpenSea.

(* ===================================================================== *)
(** * Zod: the schema combinators the tools use                          *)
(* ===================================================================== *)

Module Zod.

Inductive IssueCode : Type :=
| invalid_type | invalid_string | too_small | custom.

(** One entry of the structured issue list.  [issue_message] is the
    text the source supplies; [None] leaves Zod's default text. *)
Record Issue : Type := mkIssue {
  issue_code : IssueCode;
  issue_path : list string;
  issue_message : option string
}.

(** The result of [safeParse]: [inl issues] is
    [{ success: false, error }], [inr data] is [{ success: true, data }].
    A failure lists the issues of the members of an object or, when the
    members are valid, those of the refinement; issues that Zod may add
    by running a refinement on a value that already has issues are left
    out (they do not change which inputs fail). *)
Definition SafeParse (A : Type) : Type := list Issue + A.

(** A schema applied to a value; [None] is [undefined]. *)
Definition Schema (A : Type) : Type := option Json -> SafeParse A.

Definition success {A} (p : SafeParse A) : bool :=
  match p with
  | inl _ => false
  | inr _ => true
  end.

Definition fail {A} (c : IssueCode) (m : option string) : SafeParse A :=
  inl [mkIssue c [] m].

(** [z.string({ required_error })] *)
Definition string_ (required_error : option string) : Schema string :=
  fun v =>
    match v with
    | Some (JStr s) => inr s
    | None => fail invalid_type required_error
    | Some _ => fail invalid_type None
    end.

(** [z.number()] *)
Definition number : Schema Z :=
  fun v =>
    match v with
    | Some (JNum n) => inr n
    | _ => fail invalid_type None
    end.

(** [z.boolean()] *)
Definition boolean : Schema bool :=
  fun v =>
    match v with
    | Some (JBool b) => inr b
    | _ => fail invalid_type None
    end.

(** [schema.optional()] *)
Definition optional {A} (schema : Schema A) : Schema (option A) :=
  fun v =>
    match v with
    | None => inr None
    | Some _ =>
        match schema v with
        | inl issues => inl issues
        | inr a => inr (Some a)
        end
    end.

(** [z.preprocess(f, schema)] *)
Definition preprocess {A} (f : option Json -> option Json)
    (schema : Schema A) : Schema A :=
  fun v => schema (f v).

(** [.regex(re, msg)] on a string schema *)
Definition regex (re : RegExp.t) (m : string) (schema : Schema string)
  : Schema string :=
  fun v =>
    match schema v with
    | inl issues => inl issues
    | inr s => if RegExp.test re s then inr s else fail invalid_string (Some m)
    end.

(** [.min(n, msg)] on a string schema *)
Definition min (n : nat) (m : string) (schema : Schema string)
  : Schema string :=
  fun v =>
    match schema v with
    | inl issues => inl issues
    | inr s => if (n <=? String.length s)%nat then inr s
               else fail too_small (Some m)
    end.

(** The member [k] of an object schema: issues carry the key in their
    path. *)
Definition member {A} (fields : list (string * Json)) (k : string)
    (schema : Schema A) : SafeParse A :=
  match schema (Js.assoc k fields) with
  | inl issues =>
      inl (map (fun i => mkIssue (issue_code i) (k :: issue_path i)
                                 (issue_message i)) issues)
  | inr a => inr a
  end.

(** Two members of one object: the issues of both are reported. *)
Definition both {A B} (pa : SafeParse A) (pb : SafeParse B)
  : SafeParse (A * B) :=
  match pa, pb with
  | inr a, inr b => inr (a, b)
  | inl i, inl j => inl (i ++ j)%list
  | inl i, inr _ => inl i
  | inr _, inl j => inl j
  end.

(** [z.object({...})] applied to a value: the members of an object, an
    issue for anything else. *)
Definition object {A} (members : list (string * Json) -> SafeParse A)
  : Json -> SafeParse A :=
  fun v =>
    match v with
    | JObj fields => members fields
    | _ => fail invalid_type None
    end.

(** [a ?? b] on parsed optional members *)
Definition coalesce {A} (a b : option A) : option A :=
  match a with
  | Some x => Some x
  | None => b
  end.

End Zod.

(* ===================================================================== *)
(** * The read tools (opensea-mcp-server/src/mcp.ts, createServer)       *)
(* ===================================================================== *)

Module Tools.
Import OpenSeaMcp.

Record OpenSeaDeps : Type := mkDeps { apiKey : string }.

Definition ARBITRUM_CHAIN : string := "arbitrum".

Definition DEFAULT_WALLET : string :=
  "0xc9d7a0d7136277a4b1ffda1cadb0f1f114865af1".

Definition DEFAULTS_wallet (h : Host) : string :=
  JsString.toLowerCase (env_or (env_DEFAULT_ARBITRUM_WALLET h) DEFAULT_WALLET).
Definition DEFAULTS_collection_slug : string := "alchemy-denver2025-blue".
Definition DEFAULTS_contract : string :=
  "0xe6270e46c9f99f00d459ca707298d8679f44b9ae".
Definition DEFAULTS_token_id : string := "13".

(** [/^0x[a-f0-9]{40}$/i] *)
Definition ADDRESS_RE : RegExp.t :=
  RegExp.mk true
    [ RegExp.lit "0x"
      ++ repeat (RegExp.AClass [("a", "f"); ("0", "9")]%char) 40 ]%list
    true true.

Definition ADDRESS_MESSAGE : string :=
  "address must be a 42-char 0x-prefixed hex string".

(** ** Normalizers and schemas *)

Definition EthAddressSchema : Zod.Schema string :=
  Zod.preprocess
    (fun v => match v with
              | Some (JStr s) => Some (JStr (JsString.toLowerCase (JsString.trim s)))
              | _ => v
              end)
    (Zod.regex ADDRESS_RE ADDRESS_MESSAGE (Zod.string_ None)).

Definition TokenIdSchema : Zod.Schema string :=
  Zod.preprocess
    (fun v => match v with
              | Some (JNum n) => Some (JStr (JsString.trim (String_ (SNum n))))
              | Some (JStr s) => Some (JStr (JsString.trim (String_ (SStr s))))
              | _ => v
              end)
    (Zod.min 1 "token_id cannot be empty"
       (Zod.string_ (Some "token_id is required"))).

Definition CollectionSlugSchema : Zod.Schema string :=
  Zod.preprocess
    (fun v => match v with
              | Some (JStr s) => Some (JStr (JsString.trim s))
              | _ => v
              end)
    (Zod.min 1 "collection_slug cannot be empty"
       (Zod.string_ (Some "collection_slug is required"))).

(** ** The envelope handed to [JSON.stringify] *)

Definition rateLimit_json (r : RateLimitInfo) : Json :=
  JObj [("limit", Js.opt_str (limit r));
        ("remaining", Js.opt_str (remaining r));
        ("reset", Js.opt_str (reset r))].

(** [data?.next ?? data?.next_cursor ?? null] *)
Definition next_or_next_cursor (d : Json) : Json :=
  Js.or_null (Js.coalesce (Js.coalesce (Js.get d "next") (Js.get d "next_cursor"))
                          (Some JNull)).

(** [data?.next ?? null] *)
Definition next_only (d : Json) : Json :=
  Js.or_null (Js.coalesce (Js.get d "next") (Some JNull)).

(** [x ? x : d] for an optional string *)
Definition or_default (x : option string) (d : string) : string :=
  match x with
  | Some s => if JsString.truthy s then s else d
  | None => d
  end.

Definition truthy_str (x : option string) : bool :=
  match x with
  | Some s => JsString.truthy s
  | None => false
  end.

Definition truthy_bool (x : option bool) : bool := default false x.

(** [if (limit !== undefined) params['limit'] = limit;
     if (cursor !== undefined) params['next'] = cursor] *)
Definition with_limit_next (params : SearchParams) (lim : option Z)
    (cursor : option string) : SearchParams :=
  let params :=
    match lim with
    | Some n => Js.assign "limit" (QNum n) params
    | None => params
    end in
  match cursor with
  | Some c => Js.assign "next" (QStr c) params
  | None => params
  end.

(** ** 1) get_wallet_nfts *)

Record WalletArgs : Type := mkWalletArgs {
  w_address : string;
  w_cursor : option string
}.

Definition wallet_candidate (v : option Json) : string :=
  match v with
  | Some (JStr s) => JsString.toLowerCase (JsString.trim s)
  | _ => ""
  end.

Definition GetWalletNftsSchemaRaw (h : Host) : Json -> Zod.SafeParse WalletArgs :=
  Zod.object (fun fields =>
    match Zod.member fields "cursor" (Zod.optional (Zod.string_ None)) with
    | inl issues => inl issues
    | inr cursor =>
        (* .transform *)
        let cand :=
          List.find (fun v => (0 <? String.length v)%nat)
            (map (fun k => wallet_candidate (Js.assoc k fields))
               ["address"; "wallet"; "wallet_address"; "walletAddress";
                "owner"; "account"]) in
        let fallback :=
          JsString.toLowerCase
            (env_or (env_DEFAULT_ARBITRUM_WALLET h) DEFAULT_WALLET) in
        let o := mkWalletArgs (or_default cand fallback) cursor in
        (* .superRefine *)
        if negb (RegExp.test ADDRESS_RE (w_address o))
        then inl [Zod.mkIssue Zod.custom ["address"] (Some ADDRESS_MESSAGE)]
        else inr o
    end).

Definition get_wallet_nfts (h : Host) (deps : OpenSeaDeps) (unparsed : Json)
  : M Json :=
  let parsed := GetWalletNftsSchemaRaw h unparsed in
  let address := match parsed with
                 | inr d => w_address d
                 | inl _ => DEFAULTS_wallet h
                 end in
  let cursor := match parsed with
                | inr d => w_cursor d
                | inl _ => None
                end in
  result <- osFetch h
              ("/api/v2/chain/" +:+ ARBITRUM_CHAIN +:+ "/account/" +:+ address
               +:+ "/nfts")
              (apiKey deps)
              (Some [("cursor", match cursor with
                                | Some c => QStr c
                                | None => QUndefined
                                end)]) ;;
  let nextCursor := next_or_next_cursor (data result) in
  ret (JObj [("rateLimit", rateLimit_json (rateLimit result));
             ("nextCursor", nextCursor);
             ("data", data result)]).

(** ** 2) get_collection *)

Definition slug_members (fields : list (string * Json))
  : Zod.SafeParse (option string) :=
  match Zod.both
          (Zod.both (Zod.member fields "collection_slug" (Zod.optional CollectionSlugSchema))
                    (Zod.member fields "collectionSlug" (Zod.optional CollectionSlugSchema)))
          (Zod.both (Zod.member fields "slug" (Zod.optional CollectionSlugSchema))
                    (Zod.member fields "collection" (Zod.optional CollectionSlugSchema)))
  with
  | inl issues => inl issues
  | inr ((a, b), (c, d)) =>
      inr (Zod.coalesce a (Zod.coalesce b (Zod.coalesce c d)))
  end.

Definition slug_required : Zod.Issue :=
  Zod.mkIssue Zod.custom ["collection_slug"] (Some "collection_slug is required").

Definition GetCollectionSchemaRaw : Json -> Zod.SafeParse (option string) :=
  Zod.object (fun fields =>
    match slug_members fields with
    | inl issues => inl issues
    | inr slug => if negb (truthy_str slug) then inl [slug_required] else inr slug
    end).

Definition get_collection (h : Host) (deps : OpenSeaDeps) (unparsed : Json)
  : M Json :=
  let parsed := GetCollectionSchemaRaw unparsed in
  let collection_slug := match parsed with
                         | inr d => default "undefined" d
                         | inl _ => DEFAULTS_collection_slug
                         end in
  result <- osFetch h ("/api/v2/collections/" +:+ collection_slug)
              (apiKey deps) None ;;
  ret (JObj [("rateLimit", rateLimit_json (rateLimit result));
             ("data", data result)]).

(** ** 3) list_arbitrum_collections *)

Definition type_error (m : string) : Thrown := ThrownError (Err ClsTypeError m).

(** [contract.chain === ARBITRUM_CHAIN] *)
Definition is_arbitrum_contract (contract : Json) : Thrown + bool :=
  match contract with
  | JNull => inl (type_error "Cannot read properties of null (reading 'chain')")
  | _ =>
      match Js.get contract "chain" with
      | Some (JStr s) => inr (bool_decide (s = ARBITRUM_CHAIN))
      | _ => inr false
      end
  end.

(** [contracts.some(...)]: stops at the first contract on Arbitrum. *)
Fixpoint some_arbitrum (contracts : list Json) : Thrown + bool :=
  match contracts with
  | [] => inr false
  | c :: cs =>
      match is_arbitrum_contract c with
      | inl t => inl t
      | inr true => inr true
      | inr false => some_arbitrum cs
      end
  end.

(** [collection.contracts?.some(...)], as the filter reads it *)
Definition on_arbitrum (collection : Json) : Thrown + bool :=
  match collection with
  | JNull =>
      inl (type_error "Cannot read properties of null (reading 'contracts')")
  | _ =>
      match Js.get collection "contracts" with
      | None | Some JNull => inr false
      | Some (JArr cs) => some_arbitrum cs
      | Some _ => inl (type_error "collection.contracts?.some is not a function")
      end
  end.

Fixpoint filter_arbitrum (collections : list Json) : Thrown + list Json :=
  match collections with
  | [] => inr []
  | c :: cs =>
      match on_arbitrum c with
      | inl t => inl t
      | inr keep =>
          match filter_arbitrum cs with
          | inl t => inl t
          | inr r => inr (if keep then c :: r else r)
          end
      end
  end.

(** [(data?.collections || []).filter(...)] *)
Definition arbitrum_only (d : Json) : Thrown + list Json :=
  match Js.get d "collections" with
  | Some (JArr cs) => filter_arbitrum cs
  | Some v =>
      if Js.truthy v then inl (type_error "(intermediate value).filter is not a function")
      else inr []
  | None => inr []
  end.

(** [{ ...data }] *)
Definition spread (d : Json) : list (string * Json) :=
  match d with
  | JObj fields => fields
  | JArr items => imap (fun i v => (JsString.of_nat i, v)) items
  | JStr s =>
      imap (fun i c => (JsString.of_nat i, JStr (String c EmptyString)))
           (JsString.chars s)
  | JNull | JBool _ | JNum _ => []
  end.

(** The handler receives [{ limit, cursor }] already parsed by
    [ListCollectionsSchema]. *)
Definition list_arbitrum_collections (h : Host) (deps : OpenSeaDeps)
    (lim : Z) (cursor : option string) : M Json :=
  let params : SearchParams := [("limit", QNum lim)] in
  let params := match cursor with
                | Some c => if JsString.truthy c
                            then Js.assign "next" (QStr c) params else params
                | None => params
                end in
  result <- osFetch h "/api/v2/collections" (apiKey deps) (Some params) ;;
  let nextCursor := next_only (data result) in
  match arbitrum_only (data result) with
  | inl t => throw t
  | inr collections =>
      let arbitrumCollections :=
        JObj (Js.assign "collections" (JArr collections) (spread (data result))) in
      ret (JObj [("rateLimit", rateLimit_json (rateLimit result));
                 ("nextCursor", nextCursor);
                 ("data", arbitrumCollections)])
  end.

(** ** 4) get_listings_by_collection *)

Record ListingsArgs : Type := mkListingsArgs {
  l_collection_slug : option string;
  l_limit : option Z;
  l_cursor : option string
}.

Definition GetListingsSchemaRaw : Json -> Zod.SafeParse ListingsArgs :=
  Zod.object (fun fields =>
    match Zod.both (slug_members fields)
            (Zod.both (Zod.member fields "limit" (Zod.optional Zod.number))
                      (Zod.member fields "cursor" (Zod.optional (Zod.string_ None))))
    with
    | inl issues => inl issues
    | inr (slug, (lim, cursor)) =>
        if negb (truthy_str slug) then inl [slug_required]
        else inr (mkListingsArgs slug lim cursor)
    end).

Definition get_listings_by_collection (h : Host) (deps : OpenSeaDeps)
    (unparsed : Json) : M Json :=
  let parsed := GetListingsSchemaRaw unparsed in
  let collection_slug :=
    match parsed with
    | inr d => or_default (l_collection_slug d) DEFAULTS_collection_slug
    | inl _ => DEFAULTS_collection_slug
    end in
  let lim := match parsed with inr d => l_limit d | inl _ => None end in
  let cursor := match parsed with inr d => l_cursor d | inl _ => None end in
  let params :=
    with_limit_next [("collection_slug", QStr collection_slug)] lim cursor in
  result <- osFetch h ("/api/v2/orders/" +:+ ARBITRUM_CHAIN +:+ "/seaport/listings")
              (apiKey deps) (Some params) ;;
  let nextCursor := next_or_next_cursor (data result) in
  ret (JObj [("rateLimit", rateLimit_json (rateLimit result));
             ("nextCursor", nextCursor);
             ("data", data result)]).

(** ** 5) get_listings_by_asset and 6) get_offers_by_asset *)

Record AssetArgs : Type := mkAssetArgs {
  a_contract_address : option string;
  a_token_id : option string;
  a_collection_slug : option string;
  a_fallback_to_collection : option bool;
  a_limit : option Z;
  a_cursor : option string
}.

(** [GetAssetListingsSchemaRaw]; [GetAssetOffersSchemaRaw] is the same
    schema, written a second time. *)
Definition GetAssetListingsSchemaRaw : Json -> Zod.SafeParse AssetArgs :=
  Zod.object (fun fields =>
    match
      Zod.both
        (Zod.both
           (Zod.both (Zod.member fields "contract_address" (Zod.optional EthAddressSchema))
                     (Zod.member fields "contractAddress" (Zod.optional EthAddressSchema)))
           (Zod.both (Zod.member fields "token_id" (Zod.optional TokenIdSchema))
                     (Zod.member fields "tokenId" (Zod.optional TokenIdSchema))))
        (Zod.both
           (Zod.both
              (Zod.both (Zod.member fields "collection_slug" (Zod.optional CollectionSlugSchema))
                        (Zod.member fields "collectionSlug" (Zod.optional CollectionSlugSchema)))
              (Zod.both (Zod.member fields "fallback_to_collection" (Zod.optional Zod.boolean))
                        (Zod.member fields "fallbackToCollection" (Zod.optional Zod.boolean))))
           (Zod.both (Zod.member fields "limit" (Zod.optional Zod.number))
                     (Zod.member fields "cursor" (Zod.optional (Zod.string_ None)))))
    with
    | inl issues => inl issues
    | inr (((ca1, ca2), (t1, t2)), (((s1, s2), (f1, f2)), (lim, cursor))) =>
        (* .transform *)
        let o := mkAssetArgs (Zod.coalesce ca1 ca2) (Zod.coalesce t1 t2)
                   (Zod.coalesce s1 s2) (Zod.coalesce f1 f2) lim cursor in
        (* .superRefine *)
        let issues :=
          ((if negb (truthy_str (a_contract_address o))
            then [Zod.mkIssue Zod.custom ["contract_address"]
                    (Some "contract_address is required")]
            else [])
           ++
           (if negb (truthy_str (a_token_id o))
            then [Zod.mkIssue Zod.custom ["token_id"] (Some "token_id is required")]
            else []))%list in
        match issues with
        | [] => inr o
        | _ :: _ => inl issues
        end
    end).

Definition GetAssetOffersSchemaRaw : Json -> Zod.SafeParse AssetArgs :=
  GetAssetListingsSchemaRaw.

(** [Array.isArray(x) && x.length === 0] *)
Definition is_empty_array (x : Json) : bool :=
  match x with
  | JArr [] => true
  | _ => false
  end.

(** [Array.isArray(data?.orders) && data.orders.length === 0] *)
Definition has_empty_orders (d : Json) : bool :=
  match Js.get d "orders" with
  | Some x => is_empty_array x
  | None => false
  end.

(** [await import('@vibekit/onchain-actions-nft')]: the import rejects,
    or gives the module with its registry as it stands. *)
Definition import_nft (nft_module : Thrown + Nft.Registry) : M Nft.Registry :=
  match nft_module with
  | inl t => throw t
  | inr registry => ret registry
  end.

Definition tagged_envelope (colResult : FetchResult) (tag : string) : Json :=
  JObj [("rateLimit", rateLimit_json (rateLimit colResult));
        ("nextCursor", next_or_next_cursor (data colResult));
        ("data", data colResult);
        ("fallback", JStr tag)].

(** The two handlers differ in the plugin method they call, the last
    segment of the endpoint ([listings] / [offers]) and the fallback
    tag ([collection_listings] / [collection_offers]). *)
Definition asset_orders_handler
    (method : Nft.NftPlugin -> Nft.GetAssetParams -> M Json)
    (schema : Json -> Zod.SafeParse AssetArgs)
    (segment tag : string)
    (h : Host) (deps : OpenSeaDeps) (nft_module : Thrown + Nft.Registry)
    (unparsed : Json) : M Json :=
  let parsed := schema unparsed in
  let contract_address :=
    match parsed with
    | inr d => or_default (a_contract_address d) DEFAULTS_contract
    | inl _ => DEFAULTS_contract
    end in
  let token_id :=
    match parsed with
    | inr d => or_default (a_token_id d) DEFAULTS_token_id
    | inl _ => DEFAULTS_token_id
    end in
  let collection_slug :=
    match parsed with inr d => a_collection_slug d | inl _ => None end in
  let fallback_to_collection :=
    match parsed with inr d => a_fallback_to_collection d | inl _ => None end in
  let lim := match parsed with inr d => a_limit d | inl _ => None end in
  let cursor := match parsed with inr d => a_cursor d | inl _ => None end in
  let endpoint := "/api/v2/orders/" +:+ ARBITRUM_CHAIN +:+ "/seaport/" +:+ segment in
  let collection_params :=
    with_limit_next [("collection_slug", QStr (default "" collection_slug))]
                    lim cursor in
  (* Plugin-backed path: [Some r] returns [r] from the handler, [None]
     leaves the [try] block. *)
  returned <-
    try_catch
      (registry <- import_nft nft_module ;;
       match Nft.getNftPlugin "opensea" registry with
       | Some plugin =>
           orders <- method plugin
                       (Nft.mkGetAssetParams contract_address
                          (SStr (String_ (SStr token_id))) 42161) ;;
           if is_empty_array orders
              && truthy_bool fallback_to_collection
              && truthy_str collection_slug
           then
             colResult <- osFetch h endpoint (apiKey deps) (Some collection_params) ;;
             ret (Some (tagged_envelope colResult tag))
           else
             ret (Some (JObj [("data", JObj [("orders", orders)])]))
       | None => ret None
       end)
      (fun _ => ret None) ;;
  match returned with
  | Some r => ret r
  | None =>
      let params :=
        with_limit_next
          [("asset_contract_address", QStr contract_address);
           ("token_ids", QStr (String_ (SStr token_id)))] lim cursor in
      result <- osFetch h endpoint (apiKey deps) (Some params) ;;
      let nextCursor := next_or_next_cursor (data result) in
      if has_empty_orders (data result)
         && truthy_bool fallback_to_collection
         && truthy_str collection_slug
      then
        colResult <- osFetch h endpoint (apiKey deps) (Some collection_params) ;;
        ret (tagged_envelope colResult tag)
      else
        ret (JObj [("rateLimit", rateLimit_json (rateLimit result));
                   ("nextCursor", nextCursor);
                   ("data", data result)])
  end.

Definition get_listings_by_asset :=
  asset_orders_handler Nft.getListings GetAssetListingsSchemaRaw
    "listings" "collection_listings".

Definition get_offers_by_asset :=
  asset_orders_handler Nft.getOffers GetAssetOffersSchemaRaw
    "offers" "collection_offers".

End Tools.

(* ===================================================================== *)
(** * Vocabulary of the properties                                       *)
(* ===================================================================== *)

Module Spec.
Import JsString.

(** [w] occurs in [s], letter case aside. *)
Definition contains_ci (w s : string) : Prop :=
  exists pre mid post,
    chars s = (pre ++ mid ++ post)%list
    /\ map toUpperChar mid = map toUpperChar (chars w).

(** A [5] followed by two digits occurs in [s]. *)
Definition contains_5xx (s : string) : Prop :=
  exists pre d1 d2 post,
    chars s = (pre ++ "5"%char :: d1 :: d2 :: post)%list
    /\ is_digit d1 = true /\ is_digit d2 = true.

(** What [/429|5\d\d|rate|timeout|network/i] accepts. *)
Definition transient_message (s : string) : Prop :=
  contains_ci "429" s \/ contains_5xx s \/ contains_ci "rate" s
  \/ contains_ci "timeout" s \/ contains_ci "network" s.

(** The specification's wording of the pattern: rate, timeout or
    network, or three digits of which the first is 4 or 5. *)
Definition contains_status_token (s : string) : Prop :=
  exists pre d1 d2 d3 post,
    chars s = (pre ++ d1 :: d2 :: d3 :: post)%list
    /\ (d1 = "4"%char \/ d1 = "5"%char)
    /\ is_digit d2 = true /\ is_digit d3 = true.

Definition spec_retryable (error : Thrown) : Prop :=
  exists e, error = ThrownError e
    /\ (contains_ci "rate" (message e) \/ contains_ci "timeout" (message e)
        \/ contains_ci "network" (message e)
        \/ contains_status_token (message e)).

(** Status 429 or any 5xx. *)
Definition retryable_status (st : N) : Prop :=
  st = 429%N \/ (500 <= st <= 599)%N.

(** How often the message of an error occurs among errors. *)
Definition occurrences (e : JsError) (errors : list JsError) : nat :=
  PRetry.count_message (message e) (map message errors).

(** [e] is one of the errors; no message occurs more often than that of
    [e], and the messages of the errors after [e] occur less often. *)
Definition most_frequent_latest (errors : list JsError) (e : JsError) : Prop :=
  exists before after,
    errors = (before ++ e :: after)%list
    /\ (forall e', e' ∈ errors -> occurrences e' errors <= occurrences e errors)
    /\ (forall e', e' ∈ after -> occurrences e' errors < occurrences e errors).

(** What the loop of [mainError] maintains over the errors it has
    gone through. *)
Definition loop_invariant (processed : list JsError) (mainError : option JsError)
    (mainErrorCount : nat) : Prop :=
  match mainError with
  | None => processed = [] /\ mainErrorCount = 0%nat
  | Some e =>
      exists before after,
        processed = (before ++ e :: after)%list
        /\ mainErrorCount = occurrences e (before ++ [e])%list
        /\ (forall e', occurrences e' processed <= mainErrorCount)
        /\ (forall e', e' ∈ after -> occurrences e' processed < mainErrorCount)
  end.

(** The state after one more request. *)
Definition sent (req : Request) (s : State) : State :=
  mkState (issued s ++ [req]) (console s).

(** The state after [onFailedAttempt] has written its line. *)
Definition logged (e : JsError) (attemptNumber retriesLeft : nat) (s : State)
  : State :=
  mkState (issued s)
          (console s
           ++ [OpenSeaMcp.failed_attempt_line e attemptNumber retriesLeft]).

(** The decimal form of a 5xx status. *)
Definition three_digits_from_5 (s : string) : bool :=
  match chars s with
  | [c; d1; d2] => bool_decide (c = "5"%char) && is_digit d1 && is_digit d2
  | _ => false
  end.

(** The request of one attempt, and the function handed to [pRetry]. *)
Definition attempt_request (url : URL) (apiKey : string) : Request :=
  mkRequest url (OpenSeaMcp.request_headers apiKey).

Definition attempt_input (h : Host) (url : URL) (apiKey : string)
  : nat -> M OpenSeaMcp.FetchResult :=
  fun _ => OpenSeaMcp.osFetch_attempt h url apiKey.

(** The request that [osFetch] sends, once per attempt. *)
Definition osFetch_request (h : Host) (path apiKey : string)
    (searchParams : option SearchParams) : Request :=
  mkRequest (OpenSeaMcp.osFetch_url h path searchParams)
            (OpenSeaMcp.request_headers apiKey).

(** A plugin is registered under [opensea] in the imported module. *)
Definition opensea_registered (nft_module : Thrown + Nft.Registry) : Prop :=
  exists registry plugin,
    nft_module = inr registry /\ Nft.getNftPlugin "opensea" registry = Some plugin.

(** The address, trimmed and in lower case, does not have the shape
    [0x] followed by forty hexadecimal digits. *)
Definition malformed_address (a : string) : Prop :=
  RegExp.test Tools.ADDRESS_RE (JsString.toLowerCase (JsString.trim a)) = false.

(** The request of get_wallet_nfts for the default wallet. *)
Definition default_wallet_request (h : Host) (deps : Tools.OpenSeaDeps) : Request :=
  osFetch_request h
    ("/api/v2/chain/arbitrum/account/" +:+ Tools.DEFAULTS_wallet h +:+ "/nfts")
    (Tools.apiKey deps) (Some [("cursor", QUndefined)]).

(** The request of the asset tools for the default contract and token. *)
Definition default_asset_request (h : Host) (deps : Tools.OpenSeaDeps)
    (segment : string) : Request :=
  osFetch_request h ("/api/v2/orders/arbitrum/seaport/" +:+ segment)
    (Tools.apiKey deps)
    (Some [("asset_contract_address", QStr Tools.DEFAULTS_contract);
           ("token_ids", QStr Tools.DEFAULTS_token_id)]).

End Spec.

(* ===================================================================== *)
(** * Simulated hosts                                                    *)
(* ===================================================================== *)

Module Simulated.

(** A host without environment variables whose network answers the
    n-th request, counted from 0, with the n-th entry of a script, and
    with [dflt] once the script is used up. *)
Definition scripted (script : list (Thrown + Response))
    (dflt : Thrown + Response) : Host :=
  mkHost None None None
         (fun sent_before _ => nth (length sent_before) script dflt)
         (fun _ => false).

(** A host whose network gives every request the same answer. *)
Definition constant (answer : Thrown + Response) : Host :=
  mkHost None None None (fun _ _ => answer) (fun _ => false).

Definition response (st : N) (hs : Headers) (text : string) (json : Json)
  : Response :=
  mkResponse st hs (Some text) (inr json).

Definition failure (st : N) (text : string) : Thrown + Response :=
  inr (response st ∅ text JNull).

(** Every request is answered by status 500. *)
Definition always_500 : Host := constant (failure 500 "boom").

(** Five answers 500 whose bodies are [a], [a], [b], [c], [d]. *)
Definition five_500s_aabcd : Host :=
  scripted [failure 500 "a"; failure 500 "a"; failure 500 "b";
            failure 500 "c"] (failure 500 "d").

(** Two answers 429, then a success. *)
Definition twice_429_then_200 : Host :=
  scripted [failure 429 "slow down"; failure 429 "slow down"]
           (inr (response 200 ∅ "" (JObj [("name", JStr "smol")]))).

(** Every request is answered by status 404. *)
Definition always_404 : Host := constant (failure 404 "Not Found").

(** A success that carries only [x-ratelimit-remaining]. *)
Definition only_remaining : Host :=
  constant
    (inr (response 200 {[ "x-ratelimit-remaining" := "42" ]} ""
            (JObj [("nfts", JArr [])]))).

(** A second implementation that registers under Magic Eden's id: the
    OpenSea plugin's operations against [always_404]. *)
Definition magic_eden_v2 : Nft.NftPlugin :=
  let p := OpenSea.OpenSeaPlugin always_404 in
  Nft.mkNftPlugin "magic-eden" (Nft.getAsset p) (Nft.getListings p)
    (Nft.getOffers p) (Nft.list_ p) (Nft.buy p) (Nft.offer p)
    (Nft.cancelOffer p) (Nft.transfer p) (Nft.wrap p) (Nft.unwrap p)
    (Nft.bulkCancel p).

(** The first request is answered by an empty list of orders, every
    later one by a page of one collection-level order. *)
Definition empty_then_collection : Host :=
  scripted
    [inr (response 200 ∅ "" (JObj [("orders", JArr [])]))]
    (inr (response 200 {[ "x-ratelimit-remaining" := "7" ]} ""
            (JObj [("orders", JArr [JStr "collection-order"]);
                   ("next", JStr "page-2")]))).

(** The plugin finds no listing, the collection query is answered by
    404, and the requests after it by one asset-level order. *)
Definition collection_query_fails : Host :=
  scripted
    [inr (response 200 ∅ "" (JObj [("orders", JArr [])]));
     failure 404 "no such collection"]
    (inr (response 200 ∅ "" (JObj [("orders", JArr [JStr "asset-order"])]))).

(** Every request is answered by one asset-level order. *)
Definition one_order : Host :=
  constant (inr (response 200 {[ "x-ratelimit-remaining" := "7" ]} ""
                   (JObj [("orders", JArr [JStr "asset-order"])]))).

(** The registry after the OpenSea plugin of a host was registered. *)
Definition opensea_only (h : Host) : Nft.Registry :=
  Nft.registerNftPlugin (OpenSea.OpenSeaPlugin h) Nft.empty_registry.

Definition asset_args : Json :=
  JObj [("contract_address", JStr "0xE6270E46c9f99f00d459ca707298d8679f44b9ae");
        ("token_id", JNum 13);
        ("collection_slug", JStr "smol-brains");
        ("fallback_to_collection", JBool true)].

(** The same arguments with a limit that is not a number. *)
Definition asset_args_bad_limit : Json :=
  JObj [("contract_address", JStr "0xE6270E46c9f99f00d459ca707298d8679f44b9ae");
        ("token_id", JNum 13);
        ("collection_slug", JStr "smol-brains");
        ("fallback_to_collection", JBool true);
        ("limit", JStr "ten")].

End Simulated.

(* ===================================================================== *)
(** * NFT skill of the agent: the get-asset tool                         *)
(* ===================================================================== *)

Module NftSkill.




End NftSkill.

(* ===================================================================== *)
(** * The shared schemas of onchain-actions-plugins/nft                  *)
(* ===================================================================== *)

Module NftCore.

(** [/^0x[a-fA-F0-9]{40}$/] *)
Definition ADDRESS_RE : RegExp.t :=
  RegExp.mk true
    [ RegExp.lit "0x"
      ++ repeat (RegExp.AClass [("a", "f"); ("A", "F"); ("0", "9")]%char) 40 ]%list
    true false.

(** [z.string().transform(v => v.trim()).refine(v => re.test(v), 'Invalid address')] *)
Definition EthAddress : Zod.Schema string :=
  fun v =>
    match Zod.string_ None v with
    | inl issues => inl issues
    | inr s =>
        let t := JsString.trim s in
        if RegExp.test ADDRESS_RE t then inr t
        else Zod.fail Zod.custom (Some "Invalid address")
    end.

(** [z.union([z.string(), z.number()]).transform(v => String(v))] *)
Definition TokenId : Zod.Schema string :=
  fun v =>
    match v with
    | Some (JStr s) => inr (String_ (SStr s))
    | Some (JNum n) => inr (String_ (SNum n))
    | _ => Zod.fail Zod.invalid_type None
    end.

End NftCore.

(* ===================================================================== *)
(** * The write tools (opensea-actions-mcp-server/src/mcp.ts)             *)
(* ===================================================================== *)

(** The nine handlers take the arguments as the tool's schema has parsed
    them, with its defaults applied, and answer with the text
    [JSON.stringify(obj, null, 2)]; the answer is modelled as the JSON
    value that this text encodes.  [parseEther] belongs to viem and is a
    field of [Viem]. *)
Module OpenSeaActions.

(** The values handed to [JSON.stringify]: those of JSON, [undefined]
    and [bigint]. *)
Inductive Value : Type :=
| VUndefined
| VBool (b : bool)
| VNum (n : Z)
| VStr (s : string)
| VBigInt (n : Z)
| VArr (items : list Value)
| VObj (fields : list (string * Value)).

Definition BIGINT_MESSAGE : string := "Do not know how to serialize a BigInt".

(** [JSON.stringify(v)], with no [toJSON] on [BigInt.prototype]: a
    [bigint] anywhere in the value throws a TypeError; [undefined] is
    left out of an object and becomes [null] in an array.  [None] is the
    result [undefined]. *)
Fixpoint serialize (v : Value) : Thrown + option Json :=
  match v with
  | VUndefined => inr None
  | VBool b => inr (Some (JBool b))
  | VNum n => inr (Some (JNum n))
  | VStr s => inr (Some (JStr s))
  | VBigInt _ => inl (ThrownError (Err ClsTypeError BIGINT_MESSAGE))
  | VArr items =>
      let fix elements (l : list Value) : Thrown + list Json :=
        match l with
        | [] => inr []
        | x :: l' =>
            match serialize x with
            | inl t => inl t
            | inr j =>
                match elements l' with
                | inl t => inl t
                | inr r => inr (default JNull j :: r)
                end
            end
        end in
      match elements items with
      | inl t => inl t
      | inr r => inr (Some (JArr r))
      end
  | VObj fields =>
      let fix members (l : list (string * Value))
        : Thrown + list (string * Json) :=
        match l with
        | [] => inr []
        | (k, x) :: l' =>
            match serialize x with
            | inl t => inl t
            | inr j =>
                match members l' with
                | inl t => inl t
                | inr r => inr (match j with
                                | Some y => (k, y) :: r
                                | None => r
                                end)
                end
            end
        end in
      match members fields with
      | inl t => inl t
      | inr r => inr (Some (JObj r))
      end
  end.

Record Viem : Type := mkViem {
  (** [parseEther(s)]: the amount in wei, or the error it throws *)
  parseEther : string -> Thrown + Z
}.

(** [process.env.ENABLE_OPENSEA_WRITE === 'true'] *)
Definition ENABLE_WRITE_ACTIONS (env_ENABLE_OPENSEA_WRITE : option string) : bool :=
  bool_decide (env_ENABLE_OPENSEA_WRITE = Some "true").

Definition DEFAULT_OPENSEA_CONDUIT : string :=
  "0x1e0049783f008a0085193e00003d00cd54003c71".
Definition WETH_CONTRACT : string :=
  "0x82af49447d8a07e3bd95bd0d56f35241523fbab1".
Definition ZERO_ADDRESS : string :=
  "0x0000000000000000000000000000000000000000".

(** [arbitrum.id] *)
Definition arbitrum_id : Z := 42161.

Definition disabled : Json :=
  JObj [("error", JStr "Write actions disabled");
        ("message", JStr "Set ENABLE_OPENSEA_WRITE=true to enable execution");
        ("preparedTransaction",
         JStr "Transaction prepared but not executed (non-custodial mode)")].

(** [error instanceof Error ? error.message : String(error)] *)
Definition details (error : Thrown) : string :=
  match error with
  | ThrownError e => message e
  | ThrownOther v => v
  end.

Definition failed (what : string) (error : Thrown) : Json :=
  JObj [("error", JStr what); ("details", JStr (details error))].

(** [try { return text(JSON.stringify(obj)) } catch (error) { ... }],
    where building [obj] may throw as well. *)
Definition respond (what : string) (obj : Thrown + Value) : Json :=
  match obj with
  | inl error => failed what error
  | inr v =>
      match serialize v with
      | inl error => failed what error
      | inr (Some j) => j
      | inr None => JNull
      end
  end.

Definition NOTE : Value :=
  VStr "Transaction prepared but not executed (review required)".

Definition prepared_transaction (to : string) (value : Value) : Value :=
  VObj [("to", VStr to); ("data", VStr "0x"); ("value", value);
        ("chainId", VNum arbitrum_id)].

(** [x || d] for a string *)
Definition or_string (x d : string) : string :=
  if JsString.truthy x then x else d.

Definition opt_value (x : option string) : Value :=
  match x with
  | Some s => VStr s
  | None => VUndefined
  end.

(** 1) approve_token *)
Definition approve_token (enabled : bool) (contract_address token_type : string)
    (operator : option string) : Json :=
  if negb enabled then disabled
  else
    respond "Failed to prepare token approval"
      (let approvedOperator :=
         or_string (default "" operator) DEFAULT_OPENSEA_CONDUIT in
       inr (VObj [("message", VStr "Token approval prepared successfully");
                  ("contractAddress", VStr contract_address);
                  ("approvedOperator", VStr approvedOperator);
                  ("tokenType", VStr token_type);
                  ("preparedTransaction",
                   prepared_transaction contract_address (VStr "0"));
                  ("executed", VBool false);
                  ("note", NOTE)])).

(** 2) list_nft *)
Definition list_nft (viem : Viem) (enabled : bool)
    (contract_address token_id price : string) (duration : Z)
    (currency : string) : Json :=
  if negb enabled then disabled
  else
    respond "Failed to prepare NFT listing"
      match parseEther viem price with
      | inl error => inl error
      | inr priceInWei =>
          inr (VObj [("message", VStr "NFT listing prepared successfully");
                     ("contractAddress", VStr contract_address);
                     ("tokenId", VStr token_id);
                     ("price", VStr (price +:+ " ETH"));
                     ("priceInWei", VBigInt priceInWei);
                     ("duration", VStr (JsString.of_Z duration +:+ " days"));
                     ("currency", VStr (or_string currency "ETH"));
                     ("preparedTransaction",
                      prepared_transaction ZERO_ADDRESS (VStr "0"));
                     ("executed", VBool false);
                     ("note", NOTE)])
      end.

(** 3) buy_nft *)
Definition buy_nft (viem : Viem) (enabled : bool)
    (contract_address token_id : string) (max_price : option string)
    (currency : string) : Json :=
  if negb enabled then disabled
  else
    respond "Failed to prepare NFT purchase"
      match
        (if Tools.truthy_str max_price
         then match parseEther viem (default "" max_price) with
              | inl error => inl error
              | inr wei => inr (VBigInt wei)
              end
         else inr (VStr "0"))
      with
      | inl error => inl error
      | inr value =>
          inr (VObj [("message", VStr "NFT purchase prepared successfully");
                     ("contractAddress", VStr contract_address);
                     ("tokenId", VStr token_id);
                     ("maxPrice",
                      VStr (if Tools.truthy_str max_price
                            then default "" max_price +:+ " ETH"
                            else "Market price"));
                     ("currency", VStr (or_string currency "ETH"));
                     ("preparedTransaction",
                      prepared_transaction ZERO_ADDRESS value);
                     ("executed", VBool false);
                     ("note", NOTE)])
      end.

(** 4) make_offer *)
Definition make_offer (viem : Viem) (enabled : bool)
    (contract_address : string) (token_id : option string) (price : string)
    (duration : Z) (offer_type currency : string) : Json :=
  if negb enabled then disabled
  else
    respond "Failed to prepare offer"
      match parseEther viem price with
      | inl error => inl error
      | inr priceInWei =>
          inr (VObj [("message", VStr "Offer prepared successfully");
                     ("contractAddress", VStr contract_address);
                     ("tokenId", opt_value token_id);
                     ("price", VStr (price +:+ " ETH"));
                     ("priceInWei", VBigInt priceInWei);
                     ("duration", VStr (JsString.of_Z duration +:+ " days"));
                     ("offerType", VStr offer_type);
                     ("currency", VStr (or_string currency "ETH"));
                     ("preparedTransaction",
                      prepared_transaction ZERO_ADDRESS (VStr "0"));
                     ("executed", VBool false);
                     ("note", NOTE)])
      end.

(** 5) cancel_offer *)
Definition cancel_offer (enabled : bool) (contract_address : string)
    (token_id : option string) (offer_id : string) : Json :=
  if negb enabled then disabled
  else
    respond "Failed to prepare offer cancellation"
      (inr (VObj [("message", VStr "Offer cancellation prepared successfully");
                  ("contractAddress", VStr contract_address);
                  ("tokenId", opt_value token_id);
                  ("offerId", VStr offer_id);
                  ("preparedTransaction",
                   prepared_transaction ZERO_ADDRESS (VStr "0"));
                  ("executed", VBool false);
                  ("note", NOTE)])).

(** 6) transfer_nft *)
Definition transfer_nft (enabled : bool)
    (contract_address token_id to_address : string)
    (from_address : option string) : Json :=
  if negb enabled then disabled
  else
    respond "Failed to prepare NFT transfer"
      (inr (VObj [("message", VStr "NFT transfer prepared successfully");
                  ("contractAddress", VStr contract_address);
                  ("tokenId", VStr token_id);
                  ("toAddress", VStr to_address);
                  ("fromAddress", opt_value from_address);
                  ("preparedTransaction",
                   prepared_transaction contract_address (VStr "0"));
                  ("executed", VBool false);
                  ("note", NOTE)])).

(** 7) wrap_weth *)
Definition wrap_weth (viem : Viem) (enabled : bool) (amount : string) : Json :=
  if negb enabled then disabled
  else
    respond "Failed to prepare WETH wrap"
      match parseEther viem amount with
      | inl error => inl error
      | inr amountInWei =>
          inr (VObj [("message", VStr "WETH wrap prepared successfully");
                     ("amount", VStr (amount +:+ " ETH"));
                     ("amountInWei", VBigInt amountInWei);
                     ("wethContract", VStr WETH_CONTRACT);
                     ("preparedTransaction",
                      prepared_transaction WETH_CONTRACT (VBigInt amountInWei));
                     ("executed", VBool false);
                     ("note", NOTE)])
      end.

(** 8) unwrap_weth *)
Definition unwrap_weth (viem : Viem) (enabled : bool) (amount : string) : Json :=
  if negb enabled then disabled
  else
    respond "Failed to prepare WETH unwrap"
      match parseEther viem amount with
      | inl error => inl error
      | inr amountInWei =>
          inr (VObj [("message", VStr "WETH unwrap prepared successfully");
                     ("amount", VStr (amount +:+ " WETH"));
                     ("amountInWei", VBigInt amountInWei);
                     ("wethContract", VStr WETH_CONTRACT);
                     ("preparedTransaction",
                      prepared_transaction WETH_CONTRACT (VStr "0"));
                     ("executed", VBool false);
                     ("note", NOTE)])
      end.

(** 9) bulk_cancel *)
Definition bulk_cancel (enabled : bool) (order_ids : list string)
    (order_type : string) : Json :=
  if negb enabled then disabled
  else
    respond "Failed to prepare bulk cancellation"
      (inr (VObj [("message", VStr "Bulk cancellation prepared successfully");
                  ("orderIds", VArr (map VStr order_ids));
                  ("orderType", VStr order_type);
                  ("count", VNum (Z.of_nat (length order_ids)));
                  ("preparedTransaction",
                   prepared_transaction ZERO_ADDRESS (VStr "0"));
                  ("executed", VBool false);
                  ("note", NOTE)])).

End OpenSeaActions.

(* ===================================================================== *)
(** * Terms of the further properties                                    *)
(* ===================================================================== *)

Module Terms.
Import JsString.

(** A digit or one of [a] to [f]. *)
Definition lower_hex (c : ascii) : bool :=
  is_digit c || ((97 <=? code c)%N && (code c <=? 102)%N).

(** [0x] and forty lower-case hexadecimal digits. *)
Definition address_shape (s : string) : bool :=
  match chars s with
  | c0 :: c1 :: body =>
      bool_decide (c0 = "0"%char) && bool_decide (c1 = "x"%char)
      && (length body =? 40)%nat && forallb lower_hex body
  | _ => false
  end.

Definition clean_head (l : list ascii) : bool :=
  match l with
  | [] => true
  | c :: _ => negb (is_white c)
  end.

(** No white space at the start or at the end. *)
Definition trimmed (s : string) : bool :=
  clean_head (chars s) && clean_head (rev (chars s)).

(** The request of the OpenSea plugin's own [osFetch]. *)
Definition plugin_request (h : Host) (path : string)
    (params : option SearchParams) : Request :=
  mkRequest (OpenSea.osFetch_url h path params)
            [("x-api-key", env_or (env_OPENSEA_API_KEY h) "");
             ("accept", "application/json")].

(** What [osFetch] rejects with when a non-transient value [t] was
    thrown inside an attempt: [t] itself when it is an error object, an
    [Error] made of its string form otherwise. *)
Definition as_error (t : Thrown) : JsError :=
  match t with
  | ThrownError e => e
  | ThrownOther v => Err ClsError v
  end.

(** The plugin registered last under an id, in a sequence of
    registrations. *)
Definition last_registered (i : string) (plugins : list Nft.NftPlugin)
  : option Nft.NftPlugin :=
  List.find (fun p => bool_decide (Nft.id p = i)) (rev plugins).

(** The request of get_wallet_nfts for an address and a cursor. *)
Definition wallet_request (h : Host) (deps : Tools.OpenSeaDeps)
    (address : string) (cursor : option string) : Request :=
  Spec.osFetch_request h
    ("/api/v2/chain/arbitrum/account/" +:+ address +:+ "/nfts")
    (Tools.apiKey deps)
    (Some [("cursor", match cursor with
                      | Some c => QStr c
                      | None => QUndefined
                      end)]).

(** The character class [[a-fA-F0-9]]. *)
Definition hex_class_both : RegExp.Atom :=
  RegExp.AClass [("a", "f"); ("A", "F"); ("0", "9")]%char.

(** The character class [[a-f0-9]]. *)
Definition hex_class : RegExp.Atom :=
  RegExp.AClass [("a", "f"); ("0", "9")]%char.

(** The eight write operations of a plugin. *)
Definition write_operations (p : Nft.NftPlugin) : list (Json -> M Json) :=
  [Nft.list_ p; Nft.buy p; Nft.offer p; Nft.cancelOffer p; Nft.transfer p;
   Nft.wrap p; Nft.unwrap p; Nft.bulkCancel p].

(** A collection that the filter of list_arbitrum_collections keeps. *)
Definition kept (collection : Json) : bool :=
  match Tools.on_arbitrum collection with
  | inr true => true
  | _ => false
  end.

(** A collection on which the filter's test does not throw. *)
Definition readable (collection : Json) : bool :=
  match Tools.on_arbitrum collection with
  | inr _ => true
  | inl _ => false
  end.

(** One of the contracts of the collection is on Arbitrum. *)
Definition on_chain_arbitrum (collection : Json) : Prop :=
  exists contracts contract,
    Js.get collection "contracts" = Some (JArr contracts)
    /\ contract ∈ contracts
    /\ Js.get contract "chain" = Some (JStr "arbitrum").

(** [{ limit }], with [next] when the cursor is truthy. *)
Definition collections_params (lim : Z) (cursor : option string) : SearchParams :=
  match cursor with
  | Some c => if JsString.truthy c
              then [("limit", QNum lim); ("next", QStr c)]
              else [("limit", QNum lim)]
  | None => [("limit", QNum lim)]
  end.

(** A pair of the query string, or none. *)
Definition optional_pair (k : string) (v : option string)
  : list (string * string) :=
  match v with
  | Some x => [(k, x)]
  | None => []
  end.


(** A request of the MCP server's [osFetch] with its query written out. *)
Definition query_request (h : Host) (deps : Tools.OpenSeaDeps) (path : string)
    (search : list (string * string)) : Request :=
  mkRequest (mkURL (OpenSeaMcp.BASE h) path search)
            (OpenSeaMcp.request_headers (Tools.apiKey deps)).

(** The asset that the two asset tools hand to the plugin: the parsed
    contract and token, or the defaults. *)
Definition asset_of (parsed : Zod.SafeParse Tools.AssetArgs) : Nft.GetAssetParams :=
  Nft.mkGetAssetParams
    match parsed with
    | inr d => Tools.or_default (Tools.a_contract_address d) Tools.DEFAULTS_contract
    | inl _ => Tools.DEFAULTS_contract
    end
    (SStr match parsed with
          | inr d => Tools.or_default (Tools.a_token_id d) Tools.DEFAULTS_token_id
          | inl _ => Tools.DEFAULTS_token_id
          end)
    42161.

(** The endpoint of the two asset tools. *)
Definition orders_endpoint (segment : string) : string :=
  "/api/v2/orders/arbitrum/seaport/" +:+ segment.

(** The query of the asset-scoped request and of the collection-scoped
    one. *)
Definition asset_params (contract token : string) (lim : option Z)
    (cursor : option string) : SearchParams :=
  Tools.with_limit_next
    [("asset_contract_address", QStr contract); ("token_ids", QStr token)]
    lim cursor.

Definition collection_params (slug : string) (lim : option Z)
    (cursor : option string) : SearchParams :=
  Tools.with_limit_next [("collection_slug", QStr slug)] lim cursor.

(** [{ rateLimit, nextCursor, data }] *)
Definition plain_envelope (result : OpenSeaMcp.FetchResult) : Json :=
  JObj [("rateLimit", Tools.rateLimit_json (OpenSeaMcp.rateLimit result));
        ("nextCursor", Tools.next_or_next_cursor (OpenSeaMcp.data result));
        ("data", OpenSeaMcp.data result)].

(** The page parameters, the slug and the fallback flag that the asset
    tools take from their arguments: those of the parsed arguments, and
    none when the arguments fail the schema. *)
Definition asset_limit (parsed : Zod.SafeParse Tools.AssetArgs) : option Z :=
  match parsed with
  | inr d => Tools.a_limit d
  | inl _ => None
  end.

Definition asset_cursor (parsed : Zod.SafeParse Tools.AssetArgs) : option string :=
  match parsed with
  | inr d => Tools.a_cursor d
  | inl _ => None
  end.

Definition asset_slug (parsed : Zod.SafeParse Tools.AssetArgs) : option string :=
  match parsed with
  | inr d => Tools.a_collection_slug d
  | inl _ => None
  end.

(** [fallback_to_collection && collection_slug] *)
Definition wants_fallback (parsed : Zod.SafeParse Tools.AssetArgs) : bool :=
  Tools.truthy_bool match parsed with
                    | inr d => Tools.a_fallback_to_collection d
                    | inl _ => None
                    end
  && Tools.truthy_str (asset_slug parsed).

(** The query of the asset-scoped request of an asset tool, and of its
    collection-scoped request. *)
Definition asset_query_of (parsed : Zod.SafeParse Tools.AssetArgs) : SearchParams :=
  asset_params (Nft.p_contractAddress (asset_of parsed))
    (String_ (Nft.p_tokenId (asset_of parsed)))
    (asset_limit parsed) (asset_cursor parsed).

Definition collection_query_of (parsed : Zod.SafeParse Tools.AssetArgs)
  : SearchParams :=
  collection_params (default "" (asset_slug parsed))
    (asset_limit parsed) (asset_cursor parsed).

(** The plugin-backed path of an asset tool, started in state [s], is
    left without an answer in state [s1]: the import of the plugin module
    rejects, no plugin is registered under [opensea], the plugin's method
    rejects, or the plugin finds nothing and the collection query made in
    its place rejects. *)
Inductive plugin_path_left
    (method : Nft.NftPlugin -> Nft.GetAssetParams -> M Json) (segment : string)
    (h : Host) (deps : Tools.OpenSeaDeps)
    (parsed : Zod.SafeParse Tools.AssetArgs)
    (nft_module : Thrown + Nft.Registry) (s : State) : State -> Prop :=
| left_import_rejected t :
    nft_module = inl t ->
    plugin_path_left method segment h deps parsed nft_module s s
| left_no_plugin registry :
    nft_module = inr registry ->
    Nft.getNftPlugin "opensea" registry = None ->
    plugin_path_left method segment h deps parsed nft_module s s
| left_plugin_rejected registry plugin t s1 :
    nft_module = inr registry ->
    Nft.getNftPlugin "opensea" registry = Some plugin ->
    method plugin (asset_of parsed) s = (Rejected t, s1) ->
    plugin_path_left method segment h deps parsed nft_module s s1
| left_collection_rejected registry plugin orders s1 t s2 :
    nft_module = inr registry ->
    Nft.getNftPlugin "opensea" registry = Some plugin ->
    method plugin (asset_of parsed) s = (Resolved orders, s1) ->
    Tools.is_empty_array orders = true ->
    wants_fallback parsed = true ->
    OpenSeaMcp.osFetch h (orders_endpoint segment) (Tools.apiKey deps)
      (Some (collection_query_of parsed)) s1 = (Rejected t, s2) ->
    plugin_path_left method segment h deps parsed nft_module s s2.

(** An answer of a write tool that reports a prepared transaction:
    not executed, no error, and a transaction on Arbitrum that carries
    neither call data nor value. *)
Definition prepared_only (out : Json) : Prop :=
  Js.get out "executed" = Some (JBool false)
  /\ Js.get out "error" = None
  /\ exists to,
       Js.get out "preparedTransaction"
       = Some (JObj [("to", JStr to); ("data", JStr "0x"); ("value", JStr "0");
                     ("chainId", JNum 42161)]).

(** An answer of a write tool that reports a failure. *)
Definition failure_report (what : string) (out : Json) : Prop :=
  exists text, out = JObj [("error", JStr what); ("details", JStr text)].

(** An answer of one of the nine write tools. *)
Inductive answer (viem : OpenSeaActions.Viem) (enabled : bool) : Json -> Prop :=
| answer_approve_token c t o :
    answer viem enabled (OpenSeaActions.approve_token enabled c t o)
| answer_list_nft c t p d cur :
    answer viem enabled (OpenSeaActions.list_nft viem enabled c t p d cur)
| answer_buy_nft c t mp cur :
    answer viem enabled (OpenSeaActions.buy_nft viem enabled c t mp cur)
| answer_make_offer c t p d ty cur :
    answer viem enabled (OpenSeaActions.make_offer viem enabled c t p d ty cur)
| answer_cancel_offer c t o :
    answer viem enabled (OpenSeaActions.cancel_offer enabled c t o)
| answer_transfer_nft c t to from :
    answer viem enabled (OpenSeaActions.transfer_nft enabled c t to from)
| answer_wrap_weth a :
    answer viem enabled (OpenSeaActions.wrap_weth viem enabled a)
| answer_unwrap_weth a :
    answer viem enabled (OpenSeaActions.unwrap_weth viem enabled a)
| answer_bulk_cancel ids ty :
    answer viem enabled (OpenSeaActions.bulk_cancel enabled ids ty).

(** The names under which a collection slug may be given, in the order
    of precedence. *)
Definition SLUG_ALIASES : list string :=
  ["collection_slug"; "collectionSlug"; "slug"; "collection"].

(** The first of the keys that the object has. *)
Definition first_present (fields : list (string * Json)) (keys : list string)
  : option string :=
  List.find (fun k => match Js.assoc k fields with
                      | Some _ => true
                      | None => false
                      end) keys.

End Terms.

(* ===================================================================== *)
(** * Further simulated hosts                                            *)
(* ===================================================================== *)

Module Scenarios.

(** Every [fetch] rejects, as undici does when the connection fails. *)
Definition fetch_fails : Host :=
  Simulated.constant (inl (ThrownError (Err ClsTypeError "fetch failed"))).

(** Every request is answered by status 429. *)
Definition always_429 : Host :=
  Simulated.constant (Simulated.failure 429 "slow down").

(** Every request is answered by one NFT of an ERC-1155 collection. *)
Definition one_nft : Host :=
  Simulated.constant
    (inr (Simulated.response 200 ∅ ""
            (JObj [("nft",
                    JObj [("token_standard", JStr "erc1155");
                          ("name", JStr "Smol #7");
                          ("collection",
                           JObj [("slug", JStr "smol-brains");
                                 ("is_verified", JBool true)])])]))).

(** Every request is answered by a page of collections. *)
Definition collections_page (collections : Json) : Host :=
  Simulated.constant
    (inr (Simulated.response 200 ∅ ""
            (JObj [("collections", collections); ("next", JStr "page-2")]))).

Definition arbitrum_collection : Json :=
  JObj [("collection", JStr "smol-brains");
        ("contracts",
         JArr [JObj [("address", JStr "0x6325439389e0797ab35752b4f43a14c004f22a9c");
                     ("chain", JStr "arbitrum")]])].

Definition ethereum_collection : Json :=
  JObj [("collection", JStr "azuki");
        ("contracts",
         JArr [JObj [("address", JStr "0xed5af388653567af2f388e6224dc7c4b3241c544");
                     ("chain", JStr "ethereum")]])].

(** A [parseEther] that reads no amount. *)
Definition viem_rejects : OpenSeaActions.Viem :=
  OpenSeaActions.mkViem
    (fun s => inl (ThrownError (Err ClsError ("Invalid decimal number: " +:+ s)))).

(** A [parseEther] that answers one ether for every amount. *)
Definition viem_one_ether : OpenSeaActions.Viem :=
  OpenSeaActions.mkViem (fun _ => inr 1000000000000000000%Z).

End Scenarios.

(* ===================================================================== *)
(** * Facts about strings and regular expressions                        *)
(* ===================================================================== *)

Module JsStringFacts.
Import JsString.

Lemma chars_app (a b : string) : chars (a +:+ b) = (chars a ++ chars b)%list.
Proof.
  unfold chars. induction a as [|c a IH]; simpl; [done|]. by rewrite IH.
Qed.

End JsStringFacts.

Module RegExpFacts.
Import JsString RegExp.

(** [match_here] succeeds exactly when the input starts with as many
    characters as there are atoms, each matched by its atom. *)
Lemma match_here_Some ic atoms s rest :
  match_here ic atoms s = Some rest <->
  exists mid, s = (mid ++ rest)%list
              /\ Forall2 (fun a c => atom_matches ic a c = true) atoms mid.
Proof.
  revert s. induction atoms as [|a atoms IH]; intros s; simpl.
  - split.
    + intros [= ->]. exists []. split; [done|constructor].
    + intros (mid & -> & H). inversion H. done.
  - destruct s as [|c s].
    + split; [done|]. intros (mid & Hs & H). inversion H; subst. done.
    + destruct (atom_matches ic a c) eqn:Hac.
      * rewrite IH. split.
        -- intros (mid & -> & H). exists (c :: mid). split; [done|].
           by constructor.
        -- intros (mid & Hs & H). inversion H; subst.
           simpl in Hs. injection Hs as -> ->. eauto.
      * split; [done|]. intros (mid & Hs & H). inversion H; subst.
        simpl in Hs. injection Hs as -> ->. congruence.
Qed.

(** An unanchored search succeeds exactly when some suffix of the input
    matches at its head. *)
Lemma search_true re s :
  search re s = true <->
  exists pre rest, s = (pre ++ rest)%list /\ test_at re rest = true.
Proof.
  induction s as [|c s IH]; simpl.
  - rewrite orb_false_r. split.
    + intros H. by exists [], [].
    + intros (pre & rest & Hs & H).
      symmetry in Hs. apply app_eq_nil in Hs as [-> ->]. done.
  - rewrite orb_true_iff, IH. split.
    + intros [H | (pre & rest & -> & H)].
      * by exists [], (c :: s).
      * by exists (c :: pre), rest.
    + intros (pre & rest & Hs & H). destruct pre as [|c' pre].
      * simpl in Hs. subst rest. by left.
      * simpl in Hs. injection Hs as -> ->. right. eauto.
Qed.

Lemma test_at_true re s :
  test_at re s = true <->
  exists alt, alt ∈ alts re /\ alt_matches_at re s alt = true.
Proof.
  unfold test_at. rewrite existsb_exists.
  split; intros (alt & H1 & H2); exists alt; split; try done;
    by apply list_elem_of_In.
Qed.

(** Two characters are matched by a literal, ignoring case, when their
    upper-case forms agree. *)
Lemma lit_matches (w mid : list ascii) :
  Forall2 (fun a c => atom_matches true a c = true) (map AChar w) mid <->
  map toUpperChar mid = map toUpperChar w.
Proof.
  revert mid. induction w as [|x w IH]; intros mid; simpl.
  - split.
    + intros H. by inversion H.
    + destruct mid; [constructor|done].
  - split.
    + intros H. inversion H as [|? c ? mid' Hc Hrest]; subst. simpl.
      apply bool_decide_eq_true in Hc. unfold canon in Hc.
      f_equal; [done|]. by apply IH.
    + destruct mid as [|c mid]; [done|]. simpl. intros [= Hc Hrest].
      constructor; [|by apply IH].
      simpl. apply bool_decide_eq_true. by unfold canon.
Qed.

End RegExpFacts.

(* ===================================================================== *)
(** * Failure classification                                             *)
(* ===================================================================== *)

Module Classification.
Import JsString RegExp RegExpFacts Spec.

Lemma toUpperChar_five c : toUpperChar c = "5"%char -> c = "5"%char.
Proof.
  destruct c as [[] [] [] [] [] [] [] []]; vm_compute; intros H;
    first [reflexivity | discriminate H].
Qed.

Lemma alt_ci_iff (w : string) (s : list ascii) :
  (exists rest, match_here true (lit w) s = Some rest) <->
  exists mid post, s = (mid ++ post)%list
                   /\ map toUpperChar mid = map toUpperChar (chars w).
Proof.
  split.
  - intros (rest & H). apply match_here_Some in H as (mid & -> & H).
    exists mid, rest. split; [done|]. by apply lit_matches.
  - intros (mid & post & -> & H). exists post.
    apply match_here_Some. exists mid. split; [done|]. by apply lit_matches.
Qed.

Lemma alt_5xx_iff (s : list ascii) :
  (exists rest, match_here true [AChar "5"; ADigit; ADigit] s = Some rest) <->
  exists d1 d2 post, s = ("5"%char :: d1 :: d2 :: post)%list
                     /\ is_digit d1 = true /\ is_digit d2 = true.
Proof.
  split.
  - intros (rest & H). apply match_here_Some in H as (mid & -> & H).
    inversion H as [|? c ? m1 Hc H1]; subst.
    inversion H1 as [|? d1 ? m2 Hd1 H2]; subst.
    inversion H2 as [|? d2 ? m3 Hd2 H3]; subst.
    inversion H3; subst.
    simpl in Hc. apply bool_decide_eq_true in Hc. unfold canon in Hc.
    symmetry in Hc. apply toUpperChar_five in Hc. subst c.
    exists d1, d2, rest. done.
  - intros (d1 & d2 & post & -> & Hd1 & Hd2). exists post.
    simpl. by rewrite Hd1, Hd2.
Qed.

Lemma alt_matches_at_transient s alt :
  alt_matches_at TRANSIENT_RE s alt = true <->
  exists rest, match_here true alt s = Some rest.
Proof.
  unfold alt_matches_at. simpl.
  destruct (match_here true alt s); split; eauto; try done.
  by intros [? ?].
Qed.

(** The regular expression of [isRateLimitOrTransient], read as a
    property of the message. *)
Lemma transient_re_spec (m : string) :
  RegExp.test TRANSIENT_RE m = true <-> transient_message m.
Proof.
  unfold RegExp.test. simpl bol. cbv iota.
  rewrite search_true. unfold transient_message, contains_ci, contains_5xx.
  split.
  - intros (pre & rest & Hs & H).
    apply test_at_true in H as (alt & Hin & H).
    apply alt_matches_at_transient in H.
    simpl in Hin. rewrite !elem_of_cons in Hin.
    destruct Hin as [-> | [-> | [-> | [-> | [-> | Hin]]]]].
    + left. apply (alt_ci_iff "429") in H as (mid & post & -> & H). eauto 6.
    + right; left. apply alt_5xx_iff in H as (d1 & d2 & post & -> & ? & ?).
      exists pre, d1, d2, post. done.
    + do 2 right; left.
      apply (alt_ci_iff "rate") in H as (mid & post & -> & H). eauto 6.
    + do 3 right; left.
      apply (alt_ci_iff "timeout") in H as (mid & post & -> & H). eauto 6.
    + do 4 right.
      apply (alt_ci_iff "network") in H as (mid & post & -> & H). eauto 6.
    + by apply elem_of_nil in Hin.
  - intros H.
    assert (exists pre rest alt, chars m = (pre ++ rest)%list
              /\ alt ∈ alts TRANSIENT_RE
              /\ exists r, match_here true alt rest = Some r)
      as (pre & rest & alt & Hs & Hin & Hm).
    { destruct H as [H | [H | [H | [H | H]]]].
      - destruct H as (pre & mid & post & Hs & H).
        exists pre, (mid ++ post)%list, (lit "429"). split; [done|].
        split; [simpl; set_solver|]. apply alt_ci_iff. eauto.
      - destruct H as (pre & d1 & d2 & post & Hs & H1 & H2).
        exists pre, ("5"%char :: d1 :: d2 :: post), [AChar "5"; ADigit; ADigit].
        split; [done|]. split; [simpl; set_solver|].
        apply alt_5xx_iff. eauto 6.
      - destruct H as (pre & mid & post & Hs & H).
        exists pre, (mid ++ post)%list, (lit "rate"). split; [done|].
        split; [simpl; set_solver|]. apply alt_ci_iff. eauto.
      - destruct H as (pre & mid & post & Hs & H).
        exists pre, (mid ++ post)%list, (lit "timeout"). split; [done|].
        split; [simpl; set_solver|]. apply alt_ci_iff. eauto.
      - destruct H as (pre & mid & post & Hs & H).
        exists pre, (mid ++ post)%list, (lit "network"). split; [done|].
        split; [simpl; set_solver|]. apply alt_ci_iff. eauto. }
    exists pre, rest. split; [done|].
    apply test_at_true. exists alt. split; [done|].
    by apply alt_matches_at_transient.
Qed.

(** C3, as the code has it by design: an error object whose message
    contains, letter case aside, [rate], [timeout] or [network], or
    contains [429] or a [5] followed by two digits, is classified
    retryable; of the three-digit tokens that begin with 4 only [429]
    counts, so that an error object whose message holds a three-digit
    token beginning with 4 or 5 but none of these marks is classified
    terminal; and every thrown value that is not an error object is
    classified terminal. *)
Theorem isRateLimitOrTransient_spec :
  (forall e,
     transient_message (message e) ->
     isRateLimitOrTransient (ThrownError e) = true)
  /\ (forall e,
        contains_status_token (message e) ->
        ~ transient_message (message e) ->
        isRateLimitOrTransient (ThrownError e) = false)
  /\ (forall v, isRateLimitOrTransient (ThrownOther v) = false).
Proof.
  split; [|split; [|done]].
  - intros e He. simpl. by apply transient_re_spec.
  - intros e _ He. simpl.
    destruct (RegExp.test TRANSIENT_RE (message e)) eqn:Htest; [|done].
    by apply transient_re_spec in Htest.
Qed.

(** A timeout reported by undici is retryable; a failure with status
    404 is not. *)
Lemma isRateLimitOrTransient_examples :
  isRateLimitOrTransient (ThrownError (Err ClsError "Connect Timeout Error")) = true
  /\ isRateLimitOrTransient
       (ThrownError (Err ClsError "OpenSea API error 404: Not Found")) = false.
Proof.
  destruct isRateLimitOrTransient_spec as (Hyes & Hno & _).
  split.
  - apply Hyes. do 3 right; left.
    exists (chars "Connect "), (chars "Timeout"), (chars " Error").
    split; reflexivity.
  - apply Hno.
    + exists (chars "OpenSea API error "), "4"%char, "0"%char, "4"%char,
             (chars ": Not Found").
      repeat split; auto.
    + intros H. apply transient_re_spec in H. discriminate H.
Defined.

(** C3, counterexample: the message of a 404 failure holds a three-digit
    token that begins with 4, which the specification's wording calls
    retryable, and the code classifies it terminal. *)
Lemma isRateLimitOrTransient_404 :
  spec_retryable (ThrownError (Err ClsError "OpenSea API error 404: Not Found"))
  /\ isRateLimitOrTransient
       (ThrownError (Err ClsError "OpenSea API error 404: Not Found")) = false.
Proof.
  split; [|reflexivity].
  eexists. split; [reflexivity|]. do 3 right.
  exists (chars "OpenSea API error "), "4"%char, "0"%char, "4"%char,
         (chars ": Not Found").
  repeat split; auto.
Qed.

(** The messages [read ECONNRESET] and [fetch failed] hold none of the
    marks of the pattern. *)
Example messages_without_mark :
  isRateLimitOrTransient (ThrownError (Err ClsError "read ECONNRESET")) = false
  /\ isRateLimitOrTransient (ThrownError (Err ClsTypeError "fetch failed")) = false.
Proof. repeat split. Qed.

End Classification.

(* ===================================================================== *)
(** * The error that p-retry rejects with                                *)
(* ===================================================================== *)

Module PRetryFacts.
Import Spec PRetry.
Local Open Scope list_scope.

Lemma count_message_app m l1 l2 :
  count_message m (l1 ++ l2) = count_message m l1 + count_message m l2.
Proof. induction l1 as [|x l1 IH]; simpl; [done|]. rewrite IH. lia. Qed.

Lemma occurrences_app e l1 l2 :
  occurrences e (l1 ++ l2) = occurrences e l1 + occurrences e l2.
Proof. unfold occurrences. by rewrite map_app, count_message_app. Qed.

Lemma occurrences_one e x :
  occurrences e [x] = if bool_decide (message x = message e) then 1 else 0.
Proof. unfold occurrences. simpl. lia. Qed.

Lemma loop_step processed mainError mainErrorCount x :
  loop_invariant processed mainError mainErrorCount ->
  let count := S (occurrences x processed) in
  if (mainErrorCount <=? count)%nat
  then loop_invariant (processed ++ [x]) (Some x) count
  else loop_invariant (processed ++ [x]) mainError mainErrorCount.
Proof.
  intros Hinv count.
  assert (count = occurrences x (processed ++ [x])) as Hcount.
  { unfold count. rewrite occurrences_app, occurrences_one.
    rewrite bool_decide_eq_true_2 by done. lia. }
  assert (forall e', occurrences e' (processed ++ [x])
                     = if bool_decide (message x = message e')
                       then count else occurrences e' processed) as Hstep.
  { intros e'. rewrite occurrences_app, occurrences_one.
    destruct (decide (message x = message e')) as [Heq | Hne].
    - rewrite !bool_decide_eq_true_2 by done. unfold count, occurrences.
      rewrite Heq. lia.
    - rewrite !bool_decide_eq_false_2 by done. lia. }
  destruct (Nat.leb_spec mainErrorCount count) as [Hle | Hlt].
  - exists processed, []. split; [done|]. split; [done|]. split.
    + intros e'. rewrite Hstep. destruct (bool_decide _); [lia|].
      destruct mainError as [e|].
      * destruct Hinv as (before & after & _ & _ & Hmax & _).
        specialize (Hmax e'). lia.
      * destruct Hinv as [-> _]. unfold occurrences. simpl. lia.
    + intros e' He'. by apply elem_of_nil in He'.
  - destruct mainError as [e|]; [|destruct Hinv as [_ ->]; lia].
    destruct Hinv as (before & after & -> & Hmc & Hmax & Hafter).
    exists before, (after ++ [x]).
    split; [by rewrite <- app_assoc|]. split; [done|]. split.
    + intros e'. rewrite Hstep. destruct (bool_decide _); [lia | apply Hmax].
    + intros e' He'. rewrite Hstep.
      destruct (bool_decide _); [lia|].
      apply elem_of_app in He' as [He' | He']; [by apply Hafter|].
      apply list_elem_of_singleton in He' as ->.
      specialize (Hmax x). unfold count in Hlt. lia.
Qed.

Lemma mainError_loop_invariant rest :
  forall processed met mainError mainErrorCount,
    (forall m, count_message m met = count_message m (map message processed)) ->
    loop_invariant processed mainError mainErrorCount ->
    exists mainErrorCount',
      loop_invariant (processed ++ rest)
        (mainError_loop rest met mainError mainErrorCount) mainErrorCount'.
Proof.
  induction rest as [|x rest IH]; intros processed met main mc Hmet Hinv.
  - rewrite app_nil_r. by exists mc.
  - cbn [mainError_loop]. cbv zeta.
    pose proof (loop_step processed main mc x Hinv) as Hstep. cbv zeta in Hstep.
    unfold occurrences in Hstep at 1 2. rewrite <- Hmet in Hstep.
    assert (forall m, count_message m (message x :: met)
                      = count_message m (map message (processed ++ [x])))
      as Hmet'.
    { intros m. rewrite map_app, count_message_app. simpl. rewrite Hmet. lia. }
    replace (processed ++ x :: rest) with ((processed ++ [x]) ++ rest)
      by (by rewrite <- app_assoc).
    destruct (mc <=? S (count_message (message x) met))%nat;
      by apply IH.
Qed.

(** [mainError] gives the error whose message occurred most often, the
    latest of them when several occurred equally often. *)
Lemma mainError_spec errors e :
  mainError errors = Some e -> most_frequent_latest errors e.
Proof.
  intros Hmain. unfold mainError in Hmain.
  destruct (mainError_loop_invariant errors [] [] None 0) as [mc Hinv];
    [done | done |].
  rewrite Hmain in Hinv. simpl in Hinv.
  destruct Hinv as (before & after & Herrors & Hmc & Hmax & Hafter).
  assert (occurrences e errors = mc) as Hocc.
  { apply Nat.le_antisymm; [apply Hmax|].
    rewrite Hmc, Herrors.
    replace (before ++ e :: after) with ((before ++ [e]) ++ after)
      by (by rewrite <- app_assoc).
    rewrite (occurrences_app e (before ++ [e]) after). lia. }
  exists before, after. split; [done|]. rewrite Hocc. split.
  - intros e' _. apply Hmax.
  - exact Hafter.
Qed.

Lemma mainError_is_Some errors :
  errors ≠ [] -> exists e, mainError errors = Some e.
Proof.
  intros Hne. unfold mainError.
  destruct (mainError_loop_invariant errors [] [] None 0) as [mc Hinv];
    [done | done |].
  destruct (mainError_loop errors [] None 0) as [e|]; [by exists e|].
  simpl in Hinv. by destruct Hinv.
Qed.

(** When all messages are the same, the latest error is the main one. *)
Lemma most_frequent_latest_same errors e :
  most_frequent_latest errors e ->
  (forall e', e' ∈ errors -> message e' = message e) ->
  last errors = Some e.
Proof.
  intros (before & after & -> & _ & Hafter) Hsame.
  destruct after as [|e' after]; [apply last_snoc|].
  exfalso. specialize (Hafter e' ltac:(constructor)).
  assert (occurrences e' (before ++ e :: e' :: after)
          = occurrences e (before ++ e :: e' :: after)) as Heq.
  { unfold occurrences. rewrite (Hsame e'); [done|].
    apply elem_of_app. right. do 2 constructor. }
  lia.
Qed.

End PRetryFacts.

(* ===================================================================== *)
(** * The resilient fetch client                                         *)
(* ===================================================================== *)

Module FetchFacts.
Import JsString JsStringFacts RegExp Spec Classification OpenSeaMcp.
Local Open Scope list_scope.

Lemma status_5xx_digits (st : N) :
  (500 <= st <= 599)%N -> three_digits_from_5 (of_N st) = true.
Proof.
  intros Hst.
  assert (forallb (fun k => three_digits_from_5 (of_N (500 + N.of_nat k)))
                  (seq 0 100) = true) as Hall by (vm_compute; reflexivity).
  rewrite forallb_forall in Hall.
  specialize (Hall (N.to_nat (st - 500))).
  rewrite N2Nat.id in Hall.
  replace (500 + (st - 500))%N with st in Hall by lia.
  apply Hall. apply in_seq. lia.
Qed.

(** The message of a failure with a retryable status matches the
    pattern of [isRateLimitOrTransient], whatever the body says. *)
Lemma api_error_transient (res : Response) :
  retryable_status (status res) ->
  isRateLimitOrTransient (ThrownError (api_error res)) = true.
Proof.
  intros Hst. unfold isRateLimitOrTransient. apply transient_re_spec.
  unfold api_error. simpl message.
  set (text := default "" (body_text res)).
  destruct Hst as [-> | Hst].
  - left. exists (chars "OpenSea API error "), (chars "429"), (chars (": " +:+ text)).
    split; [|done]. by rewrite !chars_app.
  - right; left. apply status_5xx_digits in Hst.
    unfold three_digits_from_5 in Hst.
    destruct (chars (of_N (status res))) as [|c [|d1 [|d2 [|? ?]]]] eqn:Hc;
      try discriminate Hst.
    apply andb_true_iff in Hst as [Hst Hd2].
    apply andb_true_iff in Hst as [Hc5 Hd1].
    apply bool_decide_eq_true in Hc5. subst c.
    exists (chars "OpenSea API error "), d1, d2, (chars (": " +:+ text)).
    split; [|done]. by rewrite !chars_app, Hc.
Qed.

Lemma retryable_not_ok (res : Response) :
  retryable_status (status res) -> ok res = false.
Proof.
  unfold ok. intros [-> | H]; [done|].
  apply andb_false_iff. right. apply N.leb_gt. lia.
Qed.

Lemma retryable_test (res : Response) :
  retryable_status (status res) ->
  ((status res =? 429) || (500 <=? status res))%N = true.
Proof.
  intros [-> | H]; [done|]. apply orb_true_iff. right. apply N.leb_le. lia.
Qed.

Section Attempt.
Context (h : Host) (url : URL) (apiKey : string).


(** One attempt answered by a retryable status rejects with the
    plain API error. *)
Lemma attempt_retryable s res :
  network h (issued s) (attempt_request url apiKey) = inr res ->
  retryable_status (status res) ->
  osFetch_attempt h url apiKey s
  = (Rejected (ThrownError (api_error res)), sent (attempt_request url apiKey) s).
Proof.
  intros Hnet Hst. unfold osFetch_attempt, try_catch, bind, fetch.
  fold (attempt_request url apiKey). rewrite Hnet.
  rewrite (retryable_not_ok _ Hst), (retryable_test _ Hst).
  cbn -[isRateLimitOrTransient api_error].
  by rewrite (api_error_transient _ Hst).
Qed.

(** One attempt answered by another failure status rejects with an
    [AbortError] that carries the API error's message. *)
Lemma attempt_terminal s res :
  network h (issued s) (attempt_request url apiKey) = inr res ->
  ok res = false ->
  status res <> 429%N -> (status res < 500)%N ->
  exists e,
    osFetch_attempt h url apiKey s
    = (Rejected (ThrownError (AbortError e)), sent (attempt_request url apiKey) s)
    /\ message e = message (api_error res)
    /\ (e = api_error res \/ e = AbortError (api_error res)).
Proof.
  intros Hnet Hok H429 H500. unfold osFetch_attempt, try_catch, bind, fetch.
  fold (attempt_request url apiKey). rewrite Hnet, Hok.
  replace ((status res =? 429) || (500 <=? status res))%N with false.
  2:{ symmetry. apply orb_false_iff. split.
      - by apply N.eqb_neq.
      - by apply N.leb_gt. }
  cbn -[isRateLimitOrTransient api_error].
  destruct (isRateLimitOrTransient _).
  - exists (api_error res). simpl. auto.
  - exists (AbortError (api_error res)). simpl. auto.
Qed.

(** One attempt answered by a success status and a decodable body. *)
Lemma attempt_success s res d :
  network h (issued s) (attempt_request url apiKey) = inr res ->
  ok res = true -> body_json res = inr d ->
  osFetch_attempt h url apiKey s
  = (Resolved (mkFetchResult d (extractRateLimit (headers res))), sent (attempt_request url apiKey) s).
Proof.
  intros Hnet Hok Hjson. unfold osFetch_attempt, try_catch, bind, fetch.
  fold (attempt_request url apiKey). by rewrite Hnet, Hok, Hjson.
Qed.

(** Every attempt sends exactly one request. *)
Lemma attempt_sends_one s :
  (osFetch_attempt h url apiKey s).2 = sent (attempt_request url apiKey) s.
Proof.
  unfold osFetch_attempt, try_catch, bind, fetch. fold (attempt_request url apiKey).
  destruct (network h (issued s) (attempt_request url apiKey)) as [t | res]; cbn -[isRateLimitOrTransient api_error].
  - by destruct (isRateLimitOrTransient t).
  - destruct (ok res); cbn -[isRateLimitOrTransient api_error].
    + destruct (body_json res) as [t | d]; cbn -[isRateLimitOrTransient api_error]; [|done].
      by destruct (isRateLimitOrTransient t).
    + destruct ((status res =? 429) || (500 <=? status res))%N; cbn -[isRateLimitOrTransient api_error];
        by destruct (isRateLimitOrTransient _).
Qed.

(** A resolved attempt is a success response whose rate-limit headers
    were read. *)
Lemma attempt_resolved s r s' :
  osFetch_attempt h url apiKey s = (Resolved r, s') ->
  exists res, network h (issued s) (attempt_request url apiKey) = inr res /\ ok res = true
              /\ body_json res = inr (data r)
              /\ rateLimit r = extractRateLimit (headers res)
              /\ s' = sent (attempt_request url apiKey) s.
Proof.
  unfold osFetch_attempt, try_catch, bind, fetch. fold (attempt_request url apiKey).
  destruct (network h (issued s) (attempt_request url apiKey)) as [t | res] eqn:Hnet;
    cbn -[isRateLimitOrTransient api_error].
  - by destruct (isRateLimitOrTransient t).
  - destruct (ok res) eqn:Hok; cbn -[isRateLimitOrTransient api_error].
    + destruct (body_json res) as [t | d] eqn:Hd;
        cbn -[isRateLimitOrTransient api_error].
      * by destruct (isRateLimitOrTransient t).
      * intros [= <- <-]. exists res. done.
    + destruct ((status res =? 429) || (500 <=? status res))%N;
        cbn -[isRateLimitOrTransient api_error];
        by destruct (isRateLimitOrTransient _).
Qed.

End Attempt.

Section Retry.
Context (h : Host) (url : URL) (apiKey : string).


(** [attempts], one step at a time. *)
Lemma attempts_eq errs a n s :
  PRetry.attempts h (attempt_input h url apiKey) retry_options errs a n s =
  match (attempt_input h url apiKey) a s with
  | (Resolved r, s1) => (Resolved r, s1)
  | (Rejected (ThrownOther v), s1) =>
      (Rejected (ThrownError (PRetry.non_error v)), s1)
  | (Rejected (ThrownError (AbortError o)), s1) =>
      (Rejected (ThrownError o), s1)
  | (Rejected (ThrownError (Err cls m)), s1) =>
      if is_TypeError cls && negb (isNetworkError h m)
      then (Rejected (ThrownError (Err cls m)), s1)
      else
        match n with
        | O =>
            (Rejected (ThrownError
               (default (Err cls m)
                  (PRetry.mainError (errs ++ [Err cls m])))),
             logged (Err cls m) a n s1)
        | S n' =>
            PRetry.attempts h (attempt_input h url apiKey) retry_options
              (errs ++ [Err cls m]) (S a) n'
              (logged (Err cls m) a n s1)
        end
  end.
Proof.
  destruct n as [|n']; simpl; unfold try_catch;
    destruct ((attempt_input h url apiKey) a s) as [[r | [[cls m | o] | v]] s1]; try reflexivity;
    destruct (is_TypeError cls && negb (isNetworkError h m)); reflexivity.
Qed.

(** The step after an attempt that was answered by a retryable
    status. *)
Lemma attempts_retry errs a n s res :
  network h (issued s) (attempt_request url apiKey) = inr res ->
  retryable_status (status res) ->
  PRetry.attempts h (attempt_input h url apiKey) retry_options errs a n s =
  match n with
  | O =>
      (Rejected (ThrownError
         (default (api_error res)
            (PRetry.mainError (errs ++ [api_error res])))),
       logged (api_error res) a n (sent (attempt_request url apiKey) s))
  | S n' =>
      PRetry.attempts h (attempt_input h url apiKey) retry_options
        (errs ++ [api_error res]) (S a) n'
        (logged (api_error res) a n (sent (attempt_request url apiKey) s))
  end.
Proof.
  intros Hnet Hst. rewrite attempts_eq. unfold attempt_input at 1.
  rewrite (attempt_retryable h url apiKey s res Hnet Hst). reflexivity.
Qed.

(** The requests of an operation are copies of one request: at least
    one, at most one per attempt. *)
Lemma attempts_requests n errs a s :
  exists k, 1 <= k <= S n
    /\ issued (PRetry.attempts h (attempt_input h url apiKey) retry_options
                 errs a n s).2
       = issued s ++ repeat (attempt_request url apiKey) k.
Proof.
  revert errs a s. induction n as [|n IH]; intros errs a s; rewrite attempts_eq;
    pose proof (attempt_sends_one h url apiKey s) as Hone; fold (attempt_request url apiKey) in Hone;
    change (osFetch_attempt h url apiKey s) with (attempt_input h url apiKey a s) in Hone;
    destruct ((attempt_input h url apiKey) a s) as [[r | [[cls m | o] | v]] s1]; simpl in Hone;
    subst s1;
    try (exists 1; split; [lia | reflexivity]).
  - destruct (is_TypeError cls && negb (isNetworkError h m));
      exists 1; split; try lia; reflexivity.
  - destruct (is_TypeError cls && negb (isNetworkError h m)).
    + exists 1. split; [lia | reflexivity].
    + destruct (IH (errs ++ [Err cls m]) (S a)
                  (logged (Err cls m) a (S n) (sent (attempt_request url apiKey) s)))
        as (k & Hk & Hiss).
      exists (S k). split; [lia|]. rewrite Hiss. simpl.
      by rewrite <- app_assoc.
Qed.

(** An operation whose attempts are all answered by a retryable
    status makes every attempt it has, and rejects with the main error
    of the attempts' errors. *)
Lemma attempts_exhausted (answers : list Response) errs a s :
  answers ≠ [] ->
  (forall k res, answers !! k = Some res ->
     network h (issued s ++ repeat (attempt_request url apiKey) k)
             (attempt_request url apiKey) = inr res
     /\ retryable_status (status res)) ->
  exists e s',
    PRetry.mainError (errs ++ map api_error answers) = Some e
    /\ PRetry.attempts h (attempt_input h url apiKey) retry_options errs a
         (pred (length answers)) s
       = (Rejected (ThrownError e), s')
    /\ issued s' = issued s ++ repeat (attempt_request url apiKey) (length answers).
Proof.
  revert errs a s. induction answers as [|res0 answers IH]; intros errs a s Hne Hall;
    [done|].
  destruct (Hall 0 res0 eq_refl) as [Hnet0 Hst0].
  simpl in Hnet0. rewrite app_nil_r in Hnet0.
  rewrite (attempts_retry errs a _ s res0 Hnet0 Hst0).
  destruct answers as [|res1 answers].
  - destruct (PRetryFacts.mainError_is_Some (errs ++ [api_error res0]))
      as [e He]; [by destruct errs|].
    exists e. eexists. cbn [map length pred]. rewrite He.
    split; [done|]. split; [reflexivity|]. simpl. reflexivity.
  - destruct (IH (errs ++ [api_error res0]) (S a)
                (logged (api_error res0) a (S (length answers))
                   (sent (attempt_request url apiKey) s)))
      as (e & s' & He & Hrun & Hiss); [done| |].
    { intros k res Hk. destruct (Hall (S k) res Hk) as [Hr Hs].
      split; [|done]. simpl. rewrite <- app_assoc. exact Hr. }
    exists e, s'. split; [|split].
    + rewrite <- He. cbn [map]. by rewrite <- app_assoc.
    + exact Hrun.
    + rewrite Hiss. simpl. by rewrite <- app_assoc.
Qed.

(** A resolved operation has read the rate-limit headers of the
    response to its last request, which was a success. *)
Lemma attempts_resolved n errs a s r s' :
  PRetry.attempts h (attempt_input h url apiKey) retry_options errs a n s
  = (Resolved r, s') ->
  exists hist res,
    issued s' = hist ++ [(attempt_request url apiKey)]
    /\ network h hist (attempt_request url apiKey) = inr res
    /\ ok res = true
    /\ body_json res = inr (data r)
    /\ rateLimit r = extractRateLimit (headers res).
Proof.
  revert errs a s. induction n as [|n IH]; intros errs a s; rewrite attempts_eq;
    destruct ((attempt_input h url apiKey) a s) as [[r1 | [[cls m | o] | v]] s1] eqn:Hin;
    try discriminate;
    try (destruct (is_TypeError cls && negb (isNetworkError h m));
         try discriminate).
  - intros [= <- <-]. apply attempt_resolved in Hin
      as (res & Hnet & Hok & Hjson & Hrl & ->).
    exists (issued s), res. done.
  - intros [= <- <-]. apply attempt_resolved in Hin
      as (res & Hnet & Hok & Hjson & Hrl & ->).
    exists (issued s), res. done.
  - apply IH.
Qed.

End Retry.

Lemma osFetch_eq h path apiKey searchParams :
  osFetch h path apiKey searchParams
  = PRetry.attempts h (attempt_input h (osFetch_url h path searchParams) apiKey)
      retry_options [] 1 4.
Proof. reflexivity. Qed.

(** C1, as the code has it: when the five attempts of a request are all
    answered by a retryable status (429 or 5xx), [osFetch] sends exactly
    five requests, one initial attempt and four retries, and then fails
    with the error of one of the attempts: the one that p-retry takes
    for the main error, whose message occurred most often among the five
    and, among equally frequent ones, latest.  When the five attempts
    fail with the same message this is the error of the last attempt. *)
Theorem osFetch_retries_exhausted h path apiKey searchParams s
    (answers : list Response) :
  length answers = 5 ->
  (forall k res, answers !! k = Some res ->
     network h (issued s ++ repeat (osFetch_request h path apiKey searchParams) k)
             (osFetch_request h path apiKey searchParams) = inr res
     /\ retryable_status (status res)) ->
  exists e s',
    osFetch h path apiKey searchParams s = (Rejected (ThrownError e), s')
    /\ issued s'
       = issued s ++ repeat (osFetch_request h path apiKey searchParams) 5
    /\ PRetry.mainError (map api_error answers) = Some e
    /\ most_frequent_latest (map api_error answers) e
    /\ (forall final,
          answers !! 4 = Some final ->
          (forall res, res ∈ answers ->
             message (api_error res) = message (api_error final)) ->
          e = api_error final).
Proof.
  intros Hlen Hall. rewrite osFetch_eq.
  destruct (attempts_exhausted h (osFetch_url h path searchParams) apiKey
              answers [] 1 s) as (e & s' & He & Hrun & Hiss).
  { by destruct answers. }
  { exact Hall. }
  rewrite Hlen in Hrun, Hiss. cbn [pred app] in Hrun, He.
  exists e, s'. split; [exact Hrun|]. split; [exact Hiss|].
  split; [exact He|].
  pose proof (PRetryFacts.mainError_spec _ _ He) as Hmain.
  split; [exact Hmain|].
  intros final Hfinal Hsame.
  assert (e ∈ map api_error answers) as He_in.
  { destruct Hmain as (before & after & -> & _). apply elem_of_app. right.
    constructor. }
  apply list_elem_of_fmap in He_in as (res_e & -> & Hres_e).
  assert (last (map api_error answers) = Some (api_error res_e)) as Hl.
  { apply PRetryFacts.most_frequent_latest_same; [exact Hmain|].
    intros e' He'. apply list_elem_of_fmap in He' as (res' & -> & Hres').
    transitivity (message (api_error final));
      [by apply Hsame | symmetry; by apply Hsame]. }
  change (map api_error answers) with (api_error <$> answers) in Hl.
  rewrite fmap_last, last_lookup, Hlen in Hl. cbn [pred] in Hl.
  rewrite Hfinal in Hl. cbn [fmap option_fmap option_map] in Hl. congruence.
Qed.

(** Five consecutive 500 responses with the same body: five requests,
    then the failure of the last attempt. *)
Lemma osFetch_five_500s :
  exists s',
    osFetch Simulated.always_500 "/api/v2/collections" "key" None initial
    = (Rejected (ThrownError (api_error (Simulated.response 500 ∅ "boom" JNull))),
       s')
    /\ issued s'
       = issued initial
         ++ repeat (osFetch_request Simulated.always_500 "/api/v2/collections" "key" None) 5.
Proof.
  destruct (osFetch_retries_exhausted Simulated.always_500 "/api/v2/collections"
              "key" None initial
              (repeat (Simulated.response 500 ∅ "boom" JNull) 5))
    as (e & s' & Hrun & Hiss & _ & _ & Hlast).
  - reflexivity.
  - intros k res Hk.
    destruct k as [|[|[|[|[|k]]]]]; simpl in Hk; try discriminate Hk;
      injection Hk as <-; (split; [reflexivity | right; simpl; lia]).
  - exists s'. split; [|exact Hiss].
    rewrite Hrun. do 3 f_equal. apply Hlast; [reflexivity|].
    intros res Hres. apply list_elem_of_In, repeat_spec in Hres. by subst res.
Defined.

(** C1, counterexample: five answers 500 with the bodies a, a, b, c, d.
    All five attempts fail with a retryable status and five requests are
    sent, but the failure is not the error of the last attempt, whose
    body is d: it is the error of the second attempt, the message of
    which occurred twice. *)
Lemma osFetch_500_aabcd :
  (forall k, k < 5 -> exists res,
     network Simulated.five_500s_aabcd
       (repeat (osFetch_request Simulated.five_500s_aabcd "/api/v2/collections"
                  "key" None) k)
       (osFetch_request Simulated.five_500s_aabcd "/api/v2/collections" "key" None)
     = inr res /\ retryable_status (status res))
  /\ network Simulated.five_500s_aabcd
       (repeat (osFetch_request Simulated.five_500s_aabcd "/api/v2/collections"
                  "key" None) 4)
       (osFetch_request Simulated.five_500s_aabcd "/api/v2/collections" "key" None)
     = inr (Simulated.response 500 ∅ "d" JNull)
  /\ (osFetch Simulated.five_500s_aabcd "/api/v2/collections" "key" None initial).1
     = Rejected (ThrownError (Err ClsError "OpenSea API error 500: a"))
  /\ length (issued (osFetch Simulated.five_500s_aabcd "/api/v2/collections"
                       "key" None initial).2) = 5
  /\ api_error (Simulated.response 500 ∅ "d" JNull)
     = Err ClsError "OpenSea API error 500: d"
  /\ Err ClsError "OpenSea API error 500: a"
     ≠ api_error (Simulated.response 500 ∅ "d" JNull).
Proof.
  split; [|split; [|split; [|split; [|split]]]].
  - intros k Hk.
    destruct k as [|[|[|[|[|k]]]]]; [| | | | |lia];
      (eexists; split; [reflexivity | right; simpl; lia]).
  - reflexivity.
  - vm_compute. reflexivity.
  - vm_compute. reflexivity.
  - vm_compute. reflexivity.
  - vm_compute. discriminate.
Qed.

(** The answers 429, 429, 200: three requests, two lines on the console,
    and the payload of the third answer. *)
Example osFetch_429_429_200 :
  osFetch Simulated.twice_429_then_200 "/api/v2/collections/smol" "key" None initial
  = (Resolved (mkFetchResult (JObj [("name", JStr "smol")])
                 (mkRateLimitInfo None None None)),
     mkState
       (repeat (osFetch_request Simulated.twice_429_then_200
                  "/api/v2/collections/smol" "key" None) 3)
       ["OpenSea fetch failed (attempt 1, left 4): OpenSea API error 429: slow down";
        "OpenSea fetch failed (attempt 2, left 3): OpenSea API error 429: slow down"]).
Proof. vm_compute. reflexivity. Qed.

(** C2: a failure status other than 429 and below 500 ends the operation
    after one request, with an error whose message carries the status
    code and the body text; among the failure statuses up to 599, a
    second request is sent exactly for 429 and 5xx. *)
Theorem osFetch_terminal_status h path apiKey searchParams s res :
  network h (issued s) (osFetch_request h path apiKey searchParams) = inr res ->
  ok res = false ->
  (status res <= 599)%N ->
  (status res <> 429%N /\ (status res < 500)%N ->
     exists e s',
       osFetch h path apiKey searchParams s = (Rejected (ThrownError e), s')
       /\ message e
          = "OpenSea API error " +:+ JsString.of_N (status res) +:+ ": "
            +:+ default "" (body_text res)
       /\ issued s' = issued s ++ [osFetch_request h path apiKey searchParams])
  /\ (status res = 429%N \/ (500 <= status res)%N ->
        exists k, 2 <= k
          /\ issued (osFetch h path apiKey searchParams s).2
             = issued s ++ repeat (osFetch_request h path apiKey searchParams) k).
Proof.
  intros Hnet Hok Hmax. rewrite osFetch_eq. split.
  - intros [H429 H500].
    destruct (attempt_terminal h (osFetch_url h path searchParams) apiKey
                s res Hnet Hok H429 H500) as (e & Hrun & Hmsg & _).
    exists e. eexists. rewrite attempts_eq. unfold attempt_input.
    rewrite Hrun. split; [reflexivity|].
    split; [exact Hmsg | reflexivity].
  - intros Hst.
    assert (retryable_status (status res)) as Hre.
    { destruct Hst as [-> | H]; [by left | right; lia]. }
    rewrite attempts_eq. unfold attempt_input at 1.
    rewrite (attempt_retryable h (osFetch_url h path searchParams) apiKey
               s res Hnet Hre).
    unfold api_error at 1. cbn [is_TypeError andb PRetry.retries retry_options].
    match goal with
    | |- context [PRetry.attempts _ _ _ ?errs ?a ?n ?st] =>
        destruct (attempts_requests h (osFetch_url h path searchParams) apiKey
                    n errs a st) as (k & Hk & Hiss)
    end.
    exists (S k). split; [lia|]. rewrite Hiss. simpl.
    by rewrite <- app_assoc.
Qed.

(** A 404 answer: one request, and the failure carries status and
    body. *)
Lemma osFetch_404 :
  (exists e s',
     osFetch Simulated.always_404 "/api/v2/collections/none" "key" None initial
     = (Rejected (ThrownError e), s')
     /\ message e = "OpenSea API error 404: Not Found"
     /\ issued s'
        = [osFetch_request Simulated.always_404 "/api/v2/collections/none" "key" None]).
Proof.
  refine (proj1 (osFetch_terminal_status Simulated.always_404
                   "/api/v2/collections/none" "key" None initial
                   (Simulated.response 404 ∅ "Not Found" JNull)
                   eq_refl eq_refl _) _).
  - vm_compute. discriminate.
  - split; [vm_compute; discriminate | vm_compute; reflexivity].
Defined.

(** C8: on a successful fetch the three fields of [rateLimit] are the
    values of the headers [x-ratelimit-limit], [x-ratelimit-remaining]
    and [x-ratelimit-reset] of the response, as they stand, and absent
    where the header is absent; a response that carries only
    [x-ratelimit-remaining] gives that value and two absent fields. *)
Theorem osFetch_rateLimit h path apiKey searchParams s r s' :
  osFetch h path apiKey searchParams s = (Resolved r, s') ->
  exists hist res,
    issued s' = hist ++ [osFetch_request h path apiKey searchParams]
    /\ network h hist (osFetch_request h path apiKey searchParams) = inr res
    /\ ok res = true
    /\ body_json res = inr (data r)
    /\ limit (rateLimit r) = headers res !! "x-ratelimit-limit"
    /\ remaining (rateLimit r) = headers res !! "x-ratelimit-remaining"
    /\ reset (rateLimit r) = headers res !! "x-ratelimit-reset"
    /\ (forall v, headers res = {[ "x-ratelimit-remaining" := v ]} ->
          rateLimit r = mkRateLimitInfo None (Some v) None).
Proof.
  rewrite osFetch_eq. intros Hrun.
  apply attempts_resolved in Hrun as (hist & res & Hiss & Hnet & Hok & Hjson & Hrl).
  exists hist, res. rewrite Hrl. repeat split; try done.
  intros v ->. unfold extractRateLimit. f_equal.
Qed.

Lemma osFetch_only_remaining :
  exists hist res,
    issued (osFetch Simulated.only_remaining "/p" "key" None initial).2
    = hist ++ [osFetch_request Simulated.only_remaining "/p" "key" None]
    /\ network Simulated.only_remaining hist
         (osFetch_request Simulated.only_remaining "/p" "key" None) = inr res
    /\ ok res = true
    /\ body_json res = inr (JObj [("nfts", JArr [])])
    /\ None = headers res !! "x-ratelimit-limit"
    /\ Some "42" = headers res !! "x-ratelimit-remaining"
    /\ None = headers res !! "x-ratelimit-reset"
    /\ (forall v, headers res = {[ "x-ratelimit-remaining" := v ]} ->
          mkRateLimitInfo None (Some "42") None
          = mkRateLimitInfo None (Some v) None).
Proof.
  exact (osFetch_rateLimit Simulated.only_remaining "/p" "key" None initial
           _ _ eq_refl).
Defined.

End FetchFacts.


(* ===================================================================== *)
(** * Query parameters                                                   *)
(* ===================================================================== *)

Module QueryFacts.
Import Spec OpenSeaMcp.
Local Open Scope list_scope.







Lemma assoc_elem {A} k (v : A) (l : list (string * A)) :
  Js.assoc k l = Some v -> (k, v) ∈ l.
Proof.
  induction l as [|[k0 v0] l IH]; simpl; [done|].
  destruct (decide (k0 = k)) as [-> | Hne].
  - rewrite bool_decide_eq_true_2 by done. intros [= ->]. constructor.
  - rewrite bool_decide_eq_false_2 by done. intros H. constructor. by apply IH.
Qed.






(** The plugin's own [osFetch] builds its URL with the same loop. *)
Lemma plugin_osFetch_url h path params :
  OpenSea.osFetch_url h path params = OpenSeaMcp.osFetch_url h path params.
Proof. reflexivity. Qed.


End QueryFacts.


(* ===================================================================== *)
(** * The plugin registry                                                *)
(* ===================================================================== *)

Module RegistryFacts.
Import Nft.

Lemma register_lookup plugin (registry : Registry) :
  getNftPlugin (id plugin) (registerNftPlugin plugin registry) = Some plugin.
Proof. unfold getNftPlugin, registerNftPlugin. apply lookup_insert_eq. Qed.

Lemma register_lookup_other plugin i (registry : Registry) :
  id plugin ≠ i ->
  getNftPlugin i (registerNftPlugin plugin registry) = getNftPlugin i registry.
Proof.
  intros Hne. unfold getNftPlugin, registerNftPlugin. by apply lookup_insert_ne.
Qed.

(** Whatever was registered, an id resolves to at most one plugin. *)
Lemma one_plugin_per_id (registry : Registry) i p q :
  (i, p) ∈ map_to_list registry -> (i, q) ∈ map_to_list registry -> p = q.
Proof.
  rewrite !elem_of_map_to_list. congruence.
Qed.

(** Each id is listed once among the entries of the registry. *)
Lemma ids_listed_once (registry : Registry) : NoDup (map_to_list registry).*1.
Proof. apply NoDup_fst_map_to_list. Qed.

(** C5: registering under an id that holds an entry replaces the entry:
    after two registrations under one id, the id resolves to the second
    plugin and the registry is the one the second registration alone
    gives; and after any sequence of registrations an id resolves to at
    most one plugin. *)
Theorem register_replaces (first second : NftPlugin) (registry : Registry) :
  id first = id second ->
  getNftPlugin (id second)
    (registerNftPlugin second (registerNftPlugin first registry)) = Some second
  /\ registerNftPlugin second (registerNftPlugin first registry)
     = registerNftPlugin second registry
  /\ (forall plugins i p q,
        (i, p) ∈ map_to_list (register_all plugins registry) ->
        (i, q) ∈ map_to_list (register_all plugins registry) -> p = q)
  /\ (forall plugins, NoDup (map_to_list (register_all plugins registry)).*1).
Proof.
  intros Hid. split; [apply register_lookup|]. split.
  - unfold registerNftPlugin. rewrite Hid. apply insert_insert_eq.
  - split.
    + intros plugins i p q. apply one_plugin_per_id.
    + intros plugins. apply ids_listed_once.
Qed.

(** Magic Eden's stub, then a second implementation under the same id:
    the id resolves to the second. *)
Lemma register_magic_eden_twice :
  getNftPlugin "magic-eden"
    (registerNftPlugin Simulated.magic_eden_v2
       (registerNftPlugin MagicEden.MagicEdenPlugin empty_registry))
  = Some Simulated.magic_eden_v2
  /\ registerNftPlugin Simulated.magic_eden_v2
       (registerNftPlugin MagicEden.MagicEdenPlugin empty_registry)
     = registerNftPlugin Simulated.magic_eden_v2 empty_registry.
Proof.
  pose proof (register_replaces MagicEden.MagicEdenPlugin Simulated.magic_eden_v2
                empty_registry eq_refl) as (H1 & H2 & _).
  split; [exact H1 | exact H2].
Defined.

(** The two implementations differ: the stub sends nothing, the other
    sends a request. *)
Example magic_eden_v2_differs :
  Simulated.magic_eden_v2 ≠ MagicEden.MagicEdenPlugin.
Proof.
  intros H.
  assert (getListings Simulated.magic_eden_v2 (mkGetAssetParams "0x" (SStr "1") 1) initial
          = getListings MagicEden.MagicEdenPlugin (mkGetAssetParams "0x" (SStr "1") 1) initial)
    as Hrun by (by rewrite H).
  vm_compute in Hrun. discriminate Hrun.
Qed.

End RegistryFacts.

(* ===================================================================== *)
(** * The Magic Eden plugin                                              *)
(* ===================================================================== *)

Module MagicEdenFacts.
Import Nft MagicEden.

(** C10: the read operations of the Magic Eden plugin are stubs: for every
    input [getListings] and [getOffers] resolve to the empty sequence,
    [getAsset] resolves to a primitive that repeats the contract address,
    the token id in string form and the chain id, with token standard
    ERC721 and no other member; none of them sends a request or writes a
    line, and none rejects; the plugin registers under [magic-eden]. *)
Theorem magic_eden_reads_are_stubs (params : GetAssetParams) (s : State) :
  getListings MagicEdenPlugin params s = (Resolved (JArr []), s)
  /\ getOffers MagicEdenPlugin params s = (Resolved (JArr []), s)
  /\ getAsset MagicEdenPlugin params s
     = (Resolved
          (mkNftPrimitive (p_contractAddress params) (String_ (p_tokenId params))
             ERC721 None None None None None None None None None None None
             None None None (p_chainId params)), s)
  /\ (forall registry,
        getNftPlugin "magic-eden" (registerNftPlugin MagicEdenPlugin registry)
        = Some MagicEdenPlugin).
Proof.
  repeat split. intros registry. apply (RegistryFacts.register_lookup MagicEdenPlugin).
Qed.

(** A numeric token id comes back in its decimal form. *)
Example magic_eden_asset_7 :
  (getAsset MagicEdenPlugin
     (mkGetAssetParams "0xe6270e46c9f99f00d459ca707298d8679f44b9ae" (SNum 7) 42161)
     initial).1
  = Resolved
      (mkNftPrimitive "0xe6270e46c9f99f00d459ca707298d8679f44b9ae" "7" ERC721
         None None None None None None None None None None None None None None
         42161).
Proof. reflexivity. Qed.

End MagicEdenFacts.


(* ===================================================================== *)
(** * The read tools                                                     *)
(* ===================================================================== *)

Module ToolFacts.
Import Spec OpenSeaMcp Tools.
Local Open Scope list_scope.

Lemma bind_ret_state {A B} (m : M A) (f : A -> B) s :
  (bind m (fun x => ret (f x)) s).2 = (m s).2.
Proof. unfold bind, ret. by destruct (m s) as [[a | t] s1]. Qed.

Lemma bind_state {A B} (m : M A) (k : A -> M B) s :
  (forall a s1, (k a s1).2 = s1) -> (bind m k s).2 = (m s).2.
Proof. intros Hk. unfold bind. destruct (m s) as [[a | t] s1]; [apply Hk | done]. Qed.

Lemma osFetch_requests h path apiKey searchParams s :
  exists n, 1 <= n
    /\ issued (osFetch h path apiKey searchParams s).2
       = issued s ++ repeat (osFetch_request h path apiKey searchParams) n.
Proof.
  rewrite FetchFacts.osFetch_eq.
  destruct (FetchFacts.attempts_requests h (osFetch_url h path searchParams)
              apiKey 4 [] 1 s) as (n & Hn & Hiss).
  exists n. split; [lia | exact Hiss].
Qed.


Lemma both_inr {A B} (pa : Zod.SafeParse A) (pb : Zod.SafeParse B) a b :
  Zod.both pa pb = inr (a, b) <-> pa = inr a /\ pb = inr b.
Proof.
  destruct pa as [i | a'], pb as [j | b']; simpl; split; intros H;
    try discriminate H; try (destruct H; discriminate).
  - by injection H as -> ->.
  - destruct H as [H1 H2]. by injection H1 as ->; injection H2 as ->.
Qed.

Lemma both_inl_l {A B} (pa : Zod.SafeParse A) (pb : Zod.SafeParse B) :
  Zod.success pa = false -> Zod.success (Zod.both pa pb) = false.
Proof. by destruct pa, pb. Qed.

Lemma both_inl_r {A B} (pa : Zod.SafeParse A) (pb : Zod.SafeParse B) :
  Zod.success pb = false -> Zod.success (Zod.both pa pb) = false.
Proof. by destruct pa, pb. Qed.

(** A slug that passed [CollectionSlugSchema] is not empty. *)
Lemma slug_member_truthy fields k slug :
  Zod.member fields k (Zod.optional CollectionSlugSchema) = inr (Some slug) ->
  JsString.truthy slug = true.
Proof.
  unfold Zod.member, Zod.optional, CollectionSlugSchema, Zod.preprocess,
    Zod.min, Zod.string_.
  destruct (Js.assoc k fields) as [[| | |x| |]|]; simpl; try done.
  destruct (JsString.trim x) as [|c t]; simpl; [done|].
  by intros [= <-].
Qed.

Lemma coalesce_truthy (a b : option string) slug :
  (forall x, a = Some x -> JsString.truthy x = true) ->
  (forall x, b = Some x -> JsString.truthy x = true) ->
  Zod.coalesce a b = Some slug -> JsString.truthy slug = true.
Proof.
  destruct a as [x|]; simpl; intros Ha Hb H.
  - injection H as ->. by apply Ha.
  - by apply Hb.
Qed.

Lemma asset_slug_truthy unparsed args slug :
  GetAssetListingsSchemaRaw unparsed = inr args ->
  a_collection_slug args = Some slug ->
  JsString.truthy slug = true.
Proof.
  unfold GetAssetListingsSchemaRaw, Zod.object.
  destruct unparsed as [| | | | |fields]; try done.
  destruct (Zod.both _ _)
    as [|[[[ca1 ca2] [t1 t2]] [[[s1 s2] [f1 f2]] [lim cursor]]]] eqn:Hboth;
    [done|].
  repeat (apply both_inr in Hboth as [Hboth ?]).
  repeat match goal with H : Zod.both _ _ = inr _ |- _ =>
    apply both_inr in H as [? ?] end.
  destruct (_ ++ _); [|done]. intros [= <-]. simpl.
  apply coalesce_truthy; intros x ->; eapply slug_member_truthy; eauto.
Qed.

(** C4, as the code has it: for arguments that pass the tool's schema
    with the collection fallback asked for and a collection slug, when
    the plugin registered under [opensea] resolves [getListings] to an
    empty sequence, the tool queries the collection-scoped listings
    endpoint (one request per attempt, with the slug as
    [collection_slug]), and when that query succeeds the output is the
    envelope of its result, not of the empty plugin result, tagged
    [fallback: collection_listings]. *)
Theorem plugin_empty_falls_back h deps registry plugin unparsed args slug
    s s1 colResult s2 :
  GetAssetListingsSchemaRaw unparsed = inr args ->
  a_fallback_to_collection args = Some true ->
  a_collection_slug args = Some slug ->
  Nft.getNftPlugin "opensea" registry = Some plugin ->
  Nft.getListings plugin
    (Nft.mkGetAssetParams
       (or_default (a_contract_address args) DEFAULTS_contract)
       (SStr (or_default (a_token_id args) DEFAULTS_token_id)) 42161) s
  = (Resolved (JArr []), s1) ->
  osFetch h "/api/v2/orders/arbitrum/seaport/listings" (apiKey deps)
    (Some (with_limit_next [("collection_slug", QStr slug)]
             (a_limit args) (a_cursor args))) s1
  = (Resolved colResult, s2) ->
  get_listings_by_asset h deps (inr registry) unparsed s
  = (Resolved
       (JObj [("rateLimit", rateLimit_json (rateLimit colResult));
              ("nextCursor", next_or_next_cursor (data colResult));
              ("data", data colResult);
              ("fallback", JStr "collection_listings")]), s2)
  /\ exists n, 1 <= n
       /\ issued s2
          = issued s1
            ++ repeat
                 (osFetch_request h "/api/v2/orders/arbitrum/seaport/listings"
                    (apiKey deps)
                    (Some (with_limit_next [("collection_slug", QStr slug)]
                             (a_limit args) (a_cursor args)))) n.
Proof.
  intros Hparse Hfb Hslug Hplugin Hget Hcol.
  split.
  2:{ pose proof (osFetch_requests h "/api/v2/orders/arbitrum/seaport/listings"
                    (apiKey deps)
                    (Some (with_limit_next [("collection_slug", QStr slug)]
                             (a_limit args) (a_cursor args))) s1) as Hreq.
      by rewrite Hcol in Hreq. }
  pose proof (asset_slug_truthy _ _ _ Hparse Hslug) as Htruthy.
  unfold get_listings_by_asset, asset_orders_handler.
  rewrite Hparse, Hfb, Hslug.
  unfold bind at 1. unfold try_catch, bind, import_nft, ret.
  rewrite Hplugin.
  change (String_ (SStr ?x)) with x.
  rewrite Hget.
  cbn [is_empty_array truthy_bool truthy_str default from_option id andb].
  rewrite Htruthy. cbn [andb].
  change ("/api/v2/orders/" +:+ ARBITRUM_CHAIN +:+ "/seaport/" +:+ "listings")
    with "/api/v2/orders/arbitrum/seaport/listings".
  rewrite Hcol. reflexivity.
Qed.

(** The OpenSea plugin finds no listing of the asset; the collection
    query answers with one order and a next page. *)
Lemma plugin_empty_falls_back_example :
  exists out s',
    get_listings_by_asset Simulated.empty_then_collection (mkDeps "key")
      (inr (Simulated.opensea_only Simulated.empty_then_collection))
      Simulated.asset_args initial
    = (Resolved out, s')
    /\ Js.get out "fallback" = Some (JStr "collection_listings")
    /\ Js.get out "data"
       = Some (JObj [("orders", JArr [JStr "collection-order"]);
                     ("next", JStr "page-2")])
    /\ Js.get out "nextCursor" = Some (JStr "page-2")
    /\ length (issued s') = 2.
Proof.
  pose proof (fun args slug =>
                plugin_empty_falls_back Simulated.empty_then_collection
                  (mkDeps "key")
                  (Simulated.opensea_only Simulated.empty_then_collection)
                  (OpenSea.OpenSeaPlugin Simulated.empty_then_collection)
                  Simulated.asset_args args slug initial) as H.
  edestruct H as [Hrun _]; [vm_compute; reflexivity .. |].
  eexists _, _. split; [exact Hrun|]. vm_compute. repeat split.
Defined.

(** When the collection query of the plugin-backed path fails, the
    failure is swallowed with the rest of that path and the raw HTTP path
    answers. *)
Example collection_failure_is_swallowed :
  (get_listings_by_asset Simulated.collection_query_fails (mkDeps "key")
     (inr (Simulated.opensea_only Simulated.collection_query_fails))
     Simulated.asset_args initial).1
  = Resolved
      (JObj [("rateLimit",
              JObj [("limit", JNull); ("remaining", JNull); ("reset", JNull)]);
             ("nextCursor", JNull);
             ("data", JObj [("orders", JArr [JStr "asset-order"])])])
  /\ length (issued (get_listings_by_asset Simulated.collection_query_fails
                       (mkDeps "key")
                       (inr (Simulated.opensea_only Simulated.collection_query_fails))
                       Simulated.asset_args initial).2) = 3.
Proof. split; vm_compute; reflexivity. Qed.

(** C4, counterexample: the plugin registered under [opensea] finds no
    listing, the caller asked for the collection fallback and gave a
    slug, and yet the output carries no fallback tag.  In the first call
    the collection query is answered by 404: its failure is swallowed
    and the raw HTTP path answers with the result of the asset query.
    In the second call the limit is not a number: the arguments fail the
    schema, slug and fallback flag are dropped with them, and the empty
    plugin result is the answer. *)
Lemma plugin_empty_without_tag :
  (exists args,
     GetAssetListingsSchemaRaw Simulated.asset_args = inr args
     /\ a_fallback_to_collection args = Some true
     /\ a_collection_slug args = Some "smol-brains")
  /\ Nft.getNftPlugin "opensea"
       (Simulated.opensea_only Simulated.collection_query_fails)
     = Some (OpenSea.OpenSeaPlugin Simulated.collection_query_fails)
  /\ (Nft.getListings (OpenSea.OpenSeaPlugin Simulated.collection_query_fails)
        (Nft.mkGetAssetParams "0xe6270e46c9f99f00d459ca707298d8679f44b9ae"
           (SStr "13") 42161) initial).1
     = Resolved (JArr [])
  /\ (get_listings_by_asset Simulated.collection_query_fails (mkDeps "key")
        (inr (Simulated.opensea_only Simulated.collection_query_fails))
        Simulated.asset_args initial).1
     = Resolved
         (JObj [("rateLimit",
                 JObj [("limit", JNull); ("remaining", JNull); ("reset", JNull)]);
                ("nextCursor", JNull);
                ("data", JObj [("orders", JArr [JStr "asset-order"])])])
  /\ Js.get Simulated.asset_args_bad_limit "fallback_to_collection"
     = Some (JBool true)
  /\ Js.get Simulated.asset_args_bad_limit "collection_slug"
     = Some (JStr "smol-brains")
  /\ (Nft.getListings (OpenSea.OpenSeaPlugin Simulated.empty_then_collection)
        (Nft.mkGetAssetParams DEFAULTS_contract (SStr DEFAULTS_token_id) 42161)
        initial).1
     = Resolved (JArr [])
  /\ (get_listings_by_asset Simulated.empty_then_collection (mkDeps "key")
        (inr (Simulated.opensea_only Simulated.empty_then_collection))
        Simulated.asset_args_bad_limit initial).1
     = Resolved (JObj [("data", JObj [("orders", JArr [])])]).
Proof.
  split; [eexists; repeat split; vm_compute; reflexivity|].
  repeat split; vm_compute; reflexivity.
Qed.

(** C6, counterexample: with the OpenSea plugin registered and an asset
    that has a listing, get_listings_by_asset answers successfully with
    [{ data: { orders } }]: the answer has no [rateLimit]. *)
Lemma plugin_answer_without_rateLimit :
  (get_listings_by_asset Simulated.one_order (mkDeps "key")
     (inr (Simulated.opensea_only Simulated.one_order))
     Simulated.asset_args initial).1
  = Resolved (JObj [("data", JObj [("orders", JArr [JStr "asset-order"])])])
  /\ Js.get (JObj [("data", JObj [("orders", JArr [JStr "asset-order"])])])
       "rateLimit" = None.
Proof. split; vm_compute; reflexivity. Qed.

(** ** Validation failures *)

Lemma truthy_length (c : string) :
  c ≠ "" -> (0 <? String.length c)%nat = true /\ JsString.truthy c = true.
Proof. by destruct c. Qed.

(** A malformed address fails [GetWalletNftsSchemaRaw]. *)
Lemma wallet_schema_rejects h fields a :
  Js.assoc "address" fields = Some (JStr a) ->
  JsString.toLowerCase (JsString.trim a) ≠ "" ->
  malformed_address a ->
  Zod.success (GetWalletNftsSchemaRaw h (JObj fields)) = false.
Proof.
  intros Haddr Hne Hbad. unfold GetWalletNftsSchemaRaw, Zod.object.
  destruct (Zod.member fields "cursor" _) as [issues | cursor]; [done|].
  cbn [map List.find]. rewrite Haddr. cbn [wallet_candidate].
  destruct (truthy_length _ Hne) as [-> Htruthy].
  cbn [or_default w_address]. rewrite Htruthy.
  unfold malformed_address in Hbad. by rewrite Hbad.
Qed.

(** A failure of [GetWalletNftsSchemaRaw] comes with issues. *)
Lemma wallet_schema_issues h unparsed :
  Zod.success (GetWalletNftsSchemaRaw h unparsed) = false ->
  exists issue issues, GetWalletNftsSchemaRaw h unparsed = inl (issue :: issues).
Proof.
  unfold GetWalletNftsSchemaRaw, Zod.object, Zod.fail.
  destruct unparsed as [| | | | |fields]; try (by eexists _, _).
  unfold Zod.member, Zod.optional, Zod.string_, Zod.fail.
  destruct (Js.assoc "cursor" fields) as [[| | |c| |]|];
    cbn [map]; try (by eexists _, _);
    destruct (negb _); try done; by eexists _, _.
Qed.

(** On a validation failure get_wallet_nfts asks for the default
    wallet. *)
Lemma wallet_invalid_requests h deps unparsed s :
  Zod.success (GetWalletNftsSchemaRaw h unparsed) = false ->
  exists n, 1 <= n
    /\ issued (get_wallet_nfts h deps unparsed s).2
       = issued s ++ repeat (default_wallet_request h deps) n.
Proof.
  intros Hfail. unfold get_wallet_nfts.
  destruct (GetWalletNftsSchemaRaw h unparsed) as [issues | d]; [|done].
  rewrite bind_ret_state. apply osFetch_requests.
Qed.

Lemma address_member_rejects fields k a :
  Js.assoc k fields = Some (JStr a) ->
  malformed_address a ->
  Zod.success (Zod.member fields k (Zod.optional EthAddressSchema)) = false.
Proof.
  intros Hk Hbad. unfold Zod.member, Zod.optional, EthAddressSchema,
    Zod.preprocess, Zod.regex, Zod.string_.
  rewrite Hk. unfold malformed_address in Hbad. by rewrite Hbad.
Qed.

Lemma token_member_rejects fields k t :
  Js.assoc k fields = Some (JStr t) ->
  JsString.trim t = "" ->
  Zod.success (Zod.member fields k (Zod.optional TokenIdSchema)) = false.
Proof.
  intros Hk Hempty. unfold Zod.member, Zod.optional, TokenIdSchema,
    Zod.preprocess, Zod.min, Zod.string_.
  rewrite Hk. cbn [String_]. by rewrite Hempty.
Qed.

(** A malformed contract address, or an empty token id, fails
    [GetAssetListingsSchemaRaw]. *)
Lemma asset_schema_rejects_address fields a :
  Js.assoc "contract_address" fields = Some (JStr a) ->
  malformed_address a ->
  Zod.success (GetAssetListingsSchemaRaw (JObj fields)) = false.
Proof.
  intros Hk Hbad. unfold GetAssetListingsSchemaRaw, Zod.object.
  match goal with
  | |- Zod.success (match ?p with inl _ => _ | inr _ => _ end) = false =>
      assert (Zod.success p = false) as Hp; [|by destruct p]
  end.
  do 3 apply both_inl_l. by eapply address_member_rejects.
Qed.

Lemma asset_schema_rejects_token fields t :
  Js.assoc "token_id" fields = Some (JStr t) ->
  JsString.trim t = "" ->
  Zod.success (GetAssetListingsSchemaRaw (JObj fields)) = false.
Proof.
  intros Hk Hempty. unfold GetAssetListingsSchemaRaw, Zod.object.
  match goal with
  | |- Zod.success (match ?p with inl _ => _ | inr _ => _ end) = false =>
      assert (Zod.success p = false) as Hp; [|by destruct p]
  end.
  apply both_inl_l, both_inl_r, both_inl_l. by eapply token_member_rejects.
Qed.

(** On a validation failure an asset tool behaves as without arguments. *)
Lemma asset_invalid_as_no_arguments method segment tag h deps m unparsed :
  Zod.success (GetAssetListingsSchemaRaw unparsed) = false ->
  asset_orders_handler method GetAssetListingsSchemaRaw segment tag h deps m
    unparsed
  = asset_orders_handler method GetAssetListingsSchemaRaw segment tag h deps m
      (JObj []).
Proof.
  intros Hfail. unfold asset_orders_handler.
  destruct (GetAssetListingsSchemaRaw unparsed) as [issues | d]; [|done].
  reflexivity.
Qed.

(** Without a plugin under [opensea] the plugin-backed path is left
    with nothing returned and nothing done. *)
Lemma plugin_path_skipped (m : Thrown + Nft.Registry)
    (X : Nft.NftPlugin -> M (option Json)) s :
  ~ opensea_registered m ->
  try_catch
    (registry <- import_nft m ;;
     match Nft.getNftPlugin "opensea" registry with
     | Some plugin => X plugin
     | None => ret None
     end)
    (fun _ => ret None) s
  = (Resolved None, s).
Proof.
  intros Hnone. unfold try_catch, bind, import_nft.
  destruct m as [t | registry]; [done|].
  unfold ret at 1.
  destruct (Nft.getNftPlugin "opensea" registry) as [plugin|] eqn:Hp; [|done].
  exfalso. apply Hnone. by exists registry, plugin.
Qed.

(** Without a plugin under [opensea], the tool then asks for the default
    contract and token. *)
Lemma asset_invalid_requests method segment tag h deps m unparsed s :
  Zod.success (GetAssetListingsSchemaRaw unparsed) = false ->
  ~ opensea_registered m ->
  exists n, 1 <= n
    /\ issued (asset_orders_handler method GetAssetListingsSchemaRaw segment
                 tag h deps m unparsed s).2
       = issued s ++ repeat (default_asset_request h deps segment) n.
Proof.
  intros Hfail Hnone. unfold asset_orders_handler.
  destruct (GetAssetListingsSchemaRaw unparsed) as [issues | d]; [|done].
  unfold bind at 1. rewrite plugin_path_skipped by done.
  rewrite bind_state.
  - apply (osFetch_requests h _ (apiKey deps)
             (Some [("asset_contract_address", QStr DEFAULTS_contract);
                    ("token_ids", QStr DEFAULTS_token_id)]) s).
  - intros a s1. cbn [truthy_bool default from_option].
    by rewrite andb_false_r.
Qed.

(** C7, as the code has it: an address that fails the 0x+40-hex shape,
    or an empty token id, makes the tool's schema fail, for
    get_wallet_nfts with a list of issues; the handler does not reject the
    invocation: it takes the built-in defaults in place of the arguments
    and goes on to the network with them (get_wallet_nfts asks for the
    default wallet; the asset tools behave as without arguments and,
    when no plugin is registered under [opensea], ask for the default
    contract and token). *)
Theorem invalid_arguments_use_defaults h deps :
  (forall fields a,
     Js.assoc "address" fields = Some (JStr a) ->
     JsString.toLowerCase (JsString.trim a) ≠ "" ->
     malformed_address a ->
     Zod.success (GetWalletNftsSchemaRaw h (JObj fields)) = false)
  /\ (forall fields a,
        Js.assoc "contract_address" fields = Some (JStr a) ->
        malformed_address a ->
        Zod.success (GetAssetListingsSchemaRaw (JObj fields)) = false)
  /\ (forall fields t,
        Js.assoc "token_id" fields = Some (JStr t) ->
        JsString.trim t = "" ->
        Zod.success (GetAssetListingsSchemaRaw (JObj fields)) = false)
  /\ (forall unparsed s,
        Zod.success (GetWalletNftsSchemaRaw h unparsed) = false ->
        (exists issue issues,
           GetWalletNftsSchemaRaw h unparsed = inl (issue :: issues))
        /\ exists n, 1 <= n
             /\ issued (get_wallet_nfts h deps unparsed s).2
                = issued s ++ repeat (default_wallet_request h deps) n)
  /\ (forall nft_module unparsed,
        Zod.success (GetAssetListingsSchemaRaw unparsed) = false ->
        get_listings_by_asset h deps nft_module unparsed
        = get_listings_by_asset h deps nft_module (JObj [])
        /\ get_offers_by_asset h deps nft_module unparsed
           = get_offers_by_asset h deps nft_module (JObj [])
        /\ (~ opensea_registered nft_module ->
            forall s,
              (exists n, 1 <= n
                 /\ issued (get_listings_by_asset h deps nft_module unparsed s).2
                    = issued s ++ repeat (default_asset_request h deps "listings") n)
              /\ (exists n, 1 <= n
                    /\ issued (get_offers_by_asset h deps nft_module unparsed s).2
                       = issued s ++ repeat (default_asset_request h deps "offers") n))).
Proof.
  split; [intros *; apply wallet_schema_rejects|].
  split; [intros *; apply asset_schema_rejects_address|].
  split; [intros *; apply asset_schema_rejects_token|].
  split.
  - intros unparsed s Hfail. split.
    + by apply wallet_schema_issues.
    + by apply wallet_invalid_requests.
  - intros m unparsed Hfail. split; [|split].
    + by apply asset_invalid_as_no_arguments.
    + by apply asset_invalid_as_no_arguments.
    + intros Hnone s. split; by apply asset_invalid_requests.
Qed.

(** The address [0x123]: the schema reports an issue, and the request
    for the default wallet is sent. *)
Lemma invalid_wallet_example :
  (exists issue issues,
     GetWalletNftsSchemaRaw Simulated.only_remaining
       (JObj [("address", JStr "0x123")]) = inl (issue :: issues))
  /\ exists n, 1 <= n
       /\ issued (get_wallet_nfts Simulated.only_remaining (mkDeps "key")
                    (JObj [("address", JStr "0x123")]) initial).2
          = issued initial
            ++ repeat (default_wallet_request Simulated.only_remaining
                         (mkDeps "key")) n.
Proof.
  refine (proj1 (proj2 (proj2 (proj2
            (invalid_arguments_use_defaults Simulated.only_remaining
               (mkDeps "key")))))
            (JObj [("address", JStr "0x123")]) initial _).
  vm_compute. reflexivity.
Defined.

(** C7, counterexample: get_wallet_nfts called with the malformed address
    [0x123] is not rejected: the schema fails, and the handler sends the
    request for the default wallet and answers with its result. *)
Lemma malformed_address_is_fetched :
  Zod.success (GetWalletNftsSchemaRaw Simulated.only_remaining
                 (JObj [("address", JStr "0x123")])) = false
  /\ get_wallet_nfts Simulated.only_remaining (mkDeps "key")
       (JObj [("address", JStr "0x123")]) initial
     = (Resolved
          (JObj [("rateLimit",
                  JObj [("limit", JNull); ("remaining", JStr "42");
                        ("reset", JNull)]);
                 ("nextCursor", JNull);
                 ("data", JObj [("nfts", JArr [])])]),
        mkState
          [mkRequest
             (mkURL "https://api.opensea.io"
                "/api/v2/chain/arbitrum/account/0xc9d7a0d7136277a4b1ffda1cadb0f1f114865af1/nfts"
                [])
             [("x-api-key", "key"); ("accept", "application/json")]]
          []).
Proof. split; vm_compute; reflexivity. Qed.

(** An empty token id, likewise: the schema fails and, with no plugin
    registered, the request for the default contract and token 13 is
    sent. *)
Example empty_token_id_is_fetched :
  Zod.success (GetAssetListingsSchemaRaw
                 (JObj [("contract_address",
                         JStr "0xe6270e46c9f99f00d459ca707298d8679f44b9ae");
                        ("token_id", JStr "  ")])) = false
  /\ map (fun r => url_search (req_url r))
       (issued (get_listings_by_asset Simulated.one_order (mkDeps "key")
                  (inr Nft.empty_registry)
                  (JObj [("contract_address",
                          JStr "0xe6270e46c9f99f00d459ca707298d8679f44b9ae");
                         ("token_id", JStr "  ")]) initial).2)
     = [[("asset_contract_address", "0xe6270e46c9f99f00d459ca707298d8679f44b9ae");
         ("token_ids", "13")]].
Proof. split; vm_compute; reflexivity. Qed.

End ToolFacts.


(* ===================================================================== *)
(** * Further properties of the resilient fetch client                   *)
(* ===================================================================== *)

Module FetchMore.
Import JsString Spec Terms OpenSeaMcp FetchFacts.
Local Open Scope list_scope.

(** The requests and console lines of an operation: [k] copies of the
    request and one line per failed attempt that was reported, which is
    every attempt but the last, or every attempt when the budget ran
    out. *)
Lemma attempts_trace h url apiKey n errs a s :
  exists k lines,
    1 <= k <= S n
    /\ issued (PRetry.attempts h (attempt_input h url apiKey) retry_options
                 errs a n s).2
       = issued s ++ repeat (attempt_request url apiKey) k
    /\ console (PRetry.attempts h (attempt_input h url apiKey) retry_options
                  errs a n s).2
       = console s ++ lines
    /\ (length lines + 1 = k
        \/ (length lines = k /\ k = S n
            /\ exists t,
                 (PRetry.attempts h (attempt_input h url apiKey) retry_options
                    errs a n s).1
                 = Rejected t)).
Proof.
  revert errs a s. induction n as [|n IH]; intros errs a s; rewrite attempts_eq;
    pose proof (attempt_sends_one h url apiKey s) as Hone;
    change (osFetch_attempt h url apiKey s) with (attempt_input h url apiKey a s) in Hone;
    destruct (attempt_input h url apiKey a s) as [[r | [[cls m | o] | v]] s1];
    simpl in Hone; subst s1;
    try (exists 1, []; simpl; rewrite app_nil_r; repeat split; [lia | lia | by left]).
  - destruct (is_TypeError cls && negb (isNetworkError h m)).
    + exists 1, []. simpl. rewrite app_nil_r. repeat split; [lia | lia | by left].
    + exists 1, [failed_attempt_line (Err cls m) a 0]. simpl.
      repeat split; [lia | lia |]. right. repeat split. by eexists.
  - destruct (is_TypeError cls && negb (isNetworkError h m)).
    + exists 1, []. simpl. rewrite app_nil_r. repeat split; [lia | lia | by left].
    + destruct (IH (errs ++ [Err cls m]) (S a)
                  (logged (Err cls m) a (S n) (sent (attempt_request url apiKey) s)))
        as (k & lines & Hk & Hiss & Hcon & Hlen).
      exists (S k), (failed_attempt_line (Err cls m) a (S n) :: lines).
      split; [lia|]. split; [|split].
      * rewrite Hiss. simpl. by rewrite <- app_assoc.
      * rewrite Hcon. simpl. by rewrite <- app_assoc.
      * simpl. destruct Hlen as [Hlen | (Hlen & Hkn & Hrej)]; [left; lia|].
        right. repeat split; [lia | lia | exact Hrej].
Qed.

(** X1: whatever the network answers, one call of [osFetch] sends between
    one and five requests, all equal to the request of the call, and
    writes one console line for each attempt but the last, or for each of
    the five attempts when it rejects after the last retry. *)
Theorem osFetch_budget h path apiKey searchParams s :
  exists k lines,
    1 <= k <= 5
    /\ issued (osFetch h path apiKey searchParams s).2
       = issued s ++ repeat (osFetch_request h path apiKey searchParams) k
    /\ console (osFetch h path apiKey searchParams s).2 = console s ++ lines
    /\ (length lines + 1 = k
        \/ (length lines = 5 /\ k = 5
            /\ exists t, (osFetch h path apiKey searchParams s).1 = Rejected t)).
Proof.
  rewrite osFetch_eq.
  destruct (attempts_trace h (osFetch_url h path searchParams) apiKey 4 [] 1 s)
    as (k & lines & Hk & Hiss & Hcon & Hlen).
  exists k, lines. repeat split; try done; try lia.
  destruct Hlen as [Hlen | (Hlen & Hk5 & Hrej)]; [by left|].
  right. repeat split; [lia | lia | exact Hrej].
Qed.

(** Retryable failures followed by a success, within the budget. *)
Lemma attempts_recover h url apiKey k n errs a s res d :
  k <= n ->
  (forall j, j < k -> exists r,
     network h (issued s ++ repeat (attempt_request url apiKey) j)
             (attempt_request url apiKey) = inr r
     /\ retryable_status (status r)) ->
  network h (issued s ++ repeat (attempt_request url apiKey) k)
          (attempt_request url apiKey) = inr res ->
  ok res = true -> body_json res = inr d ->
  exists s',
    PRetry.attempts h (attempt_input h url apiKey) retry_options errs a n s
    = (Resolved (mkFetchResult d (extractRateLimit (headers res))), s')
    /\ issued s' = issued s ++ repeat (attempt_request url apiKey) (S k)
    /\ length (console s') = length (console s) + k.
Proof.
  revert n errs a s.
  induction k as [|k IH]; intros n errs a s Hkn Hfail Hnet Hok Hjson.
  - simpl in Hnet. rewrite app_nil_r in Hnet.
    eexists. rewrite attempts_eq. unfold attempt_input.
    rewrite (attempt_success h url apiKey s res d Hnet Hok Hjson).
    split; [reflexivity|]. simpl. split; [done | lia].
  - destruct n as [|n]; [lia|].
    destruct (Hfail 0) as (r0 & Hnet0 & Hst0); [lia|].
    simpl in Hnet0. rewrite app_nil_r in Hnet0.
    rewrite attempts_eq. unfold attempt_input at 1.
    rewrite (attempt_retryable h url apiKey s r0 Hnet0 Hst0).
    unfold api_error at 1. cbn [is_TypeError andb].
    fold (api_error r0).
    destruct (IH n (errs ++ [api_error r0]) (S a)
                (logged (api_error r0) a (S n) (sent (attempt_request url apiKey) s)))
      as (s' & Hrun & Hiss & Hcon).
    + lia.
    + intros j Hj. destruct (Hfail (S j)) as (r & Hr & Hs); [lia|].
      exists r. split; [|done]. simpl. rewrite <- app_assoc. exact Hr.
    + simpl. rewrite <- app_assoc. exact Hnet.
    + exact Hok.
    + exact Hjson.
    + exists s'. split; [exact Hrun|]. split.
      * rewrite Hiss. simpl. by rewrite <- app_assoc.
      * rewrite Hcon. simpl. rewrite length_app. simpl. lia.
Qed.

(** X2: when the first [k] attempts of a call, [k] at most four, are
    answered by a retryable status and the next one by a success with a
    decodable body, [osFetch] resolves to that body with the rate-limit
    headers of that answer, after [k + 1] requests and [k] console
    lines. *)
Theorem osFetch_recovers h path apiKey searchParams s k res d :
  k <= 4 ->
  (forall j, j < k -> exists r,
     network h (issued s ++ repeat (osFetch_request h path apiKey searchParams) j)
             (osFetch_request h path apiKey searchParams) = inr r
     /\ retryable_status (status r)) ->
  network h (issued s ++ repeat (osFetch_request h path apiKey searchParams) k)
          (osFetch_request h path apiKey searchParams) = inr res ->
  ok res = true -> body_json res = inr d ->
  exists s',
    osFetch h path apiKey searchParams s
    = (Resolved (mkFetchResult d (extractRateLimit (headers res))), s')
    /\ issued s'
       = issued s ++ repeat (osFetch_request h path apiKey searchParams) (S k)
    /\ length (console s') = length (console s) + k.
Proof.
  intros Hk Hfail Hnet Hok Hjson. rewrite osFetch_eq.
  by apply (attempts_recover h (osFetch_url h path searchParams) apiKey k 4 [] 1 s
              res d).
Qed.

(** Two answers 429 and a success: three requests, two lines. *)
Lemma osFetch_recovers_after_two :
  exists s',
    osFetch Simulated.twice_429_then_200 "/api/v2/collections/smol" "key" None initial
    = (Resolved (mkFetchResult (JObj [("name", JStr "smol")])
                   (extractRateLimit ∅)), s')
    /\ issued s'
       = issued initial
         ++ repeat (osFetch_request Simulated.twice_429_then_200
                      "/api/v2/collections/smol" "key" None) 3
    /\ length (console s') = length (console initial) + 2.
Proof.
  apply (osFetch_recovers Simulated.twice_429_then_200 "/api/v2/collections/smol"
           "key" None initial 2
           (Simulated.response 200 ∅ "" (JObj [("name", JStr "smol")]))).
  - lia.
  - intros j Hj. exists (Simulated.response 429 ∅ "slow down" JNull).
    split; [|by left].
    destruct j as [|[|j]]; [reflexivity | reflexivity | lia].
  - reflexivity.
  - reflexivity.
  - reflexivity.
Defined.

(** One attempt in which [fetch] rejects, or in which decoding the body
    of a success rejects, with a value that is not transient. *)
Lemma attempt_rejection h url apiKey s t :
  (network h (issued s) (attempt_request url apiKey) = inl t
   \/ exists res, network h (issued s) (attempt_request url apiKey) = inr res
                  /\ ok res = true /\ body_json res = inl t) ->
  isRateLimitOrTransient t = false ->
  osFetch_attempt h url apiKey s
  = (Rejected (ThrownError (AbortError (as_error t))),
     sent (attempt_request url apiKey) s).
Proof.
  intros Hnet Hterm. unfold osFetch_attempt, try_catch, bind, fetch.
  fold (attempt_request url apiKey).
  destruct Hnet as [Hnet | (res & Hnet & Hok & Hjson)]; rewrite Hnet.
  - cbn -[isRateLimitOrTransient]. rewrite Hterm. by destruct t.
  - rewrite Hok, Hjson. cbn -[isRateLimitOrTransient]. rewrite Hterm.
    by destruct t.
Qed.

(** X3: when [fetch] rejects, or a success answer cannot be decoded, with
    a value whose message is not transient, [osFetch] ends after that one
    request, writes no console line, and rejects with the thrown error
    itself (or with an [Error] made of the thrown value when it is not an
    error object). *)
Theorem osFetch_rejection_is_terminal h path apiKey searchParams s t :
  (network h (issued s) (osFetch_request h path apiKey searchParams) = inl t
   \/ exists res,
        network h (issued s) (osFetch_request h path apiKey searchParams) = inr res
        /\ ok res = true /\ body_json res = inl t) ->
  isRateLimitOrTransient t = false ->
  osFetch h path apiKey searchParams s
  = (Rejected (ThrownError (as_error t)),
     sent (osFetch_request h path apiKey searchParams) s).
Proof.
  intros Hnet Hterm. rewrite osFetch_eq, attempts_eq. unfold attempt_input.
  by rewrite (attempt_rejection h (osFetch_url h path searchParams) apiKey s t Hnet Hterm).
Qed.

(** A connection failure reported by undici as [fetch failed]. *)
Lemma osFetch_fetch_failed :
  osFetch Scenarios.fetch_fails "/api/v2/collections" "key" None initial
  = (Rejected (ThrownError (Err ClsTypeError "fetch failed")),
     sent (osFetch_request Scenarios.fetch_fails "/api/v2/collections" "key" None)
          initial).
Proof.
  apply (osFetch_rejection_is_terminal Scenarios.fetch_fails "/api/v2/collections"
           "key" None initial (ThrownError (Err ClsTypeError "fetch failed"))).
  - left. reflexivity.
  - reflexivity.
Defined.

End FetchMore.

(* ===================================================================== *)
(** * Further properties of the OpenSea plugin                           *)
(* ===================================================================== *)

Module PluginMore.
Import Spec Terms Nft OpenSea.
Local Open Scope list_scope.

Lemma plugin_osFetch_run h path params s :
  OpenSea.osFetch h path params s
  = match network h (issued s) (plugin_request h path params) with
    | inl t => (Rejected t, sent (plugin_request h path params) s)
    | inr res =>
        if ok res then
          match body_json res with
          | inl t => (Rejected t, sent (plugin_request h path params) s)
          | inr d => (Resolved d, sent (plugin_request h path params) s)
          end
        else
          (Rejected (ThrownError (Err ClsError
             ("OpenSea API error " +:+ JsString.of_N (status res) +:+ ": "
              +:+ default "" (body_text res)))),
           sent (plugin_request h path params) s)
    end.
Proof.
  unfold OpenSea.osFetch, bind, fetch. fold (plugin_request h path params).
  destruct (network h (issued s) (plugin_request h path params)) as [t | res];
    [done|].
  destruct (ok res); simpl; [|done]. by destruct (body_json res).
Qed.

(** X4: the OpenSea plugin's own [osFetch] never retries: every call sends
    exactly one request, and an answer 429 or 5xx rejects at once, like
    any other failure status, with an error that carries the status and
    the body text. *)
Theorem plugin_osFetch_never_retries h path params s :
  (OpenSea.osFetch h path params s).2 = sent (plugin_request h path params) s
  /\ (forall res,
        network h (issued s) (plugin_request h path params) = inr res ->
        ok res = false ->
        (OpenSea.osFetch h path params s).1
        = Rejected (ThrownError (Err ClsError
            ("OpenSea API error " +:+ JsString.of_N (status res) +:+ ": "
             +:+ default "" (body_text res))))).
Proof.
  rewrite plugin_osFetch_run. split.
  - destruct (network h (issued s) (plugin_request h path params)) as [t | res];
      [done|].
    destruct (ok res); [|done]. by destruct (body_json res).
  - intros res -> ->. reflexivity.
Qed.

(** One answer 429: the plugin sends one request and rejects. *)
Lemma plugin_osFetch_429 :
  (OpenSea.osFetch Scenarios.always_429 "/api/v2/orders/arbitrum/seaport/listings"
     None initial).1
  = Rejected (ThrownError (Err ClsError "OpenSea API error 429: slow down"))
  /\ length (issued (OpenSea.osFetch Scenarios.always_429
                       "/api/v2/orders/arbitrum/seaport/listings" None initial).2)
     = 1.
Proof.
  split.
  - exact (proj2 (plugin_osFetch_never_retries Scenarios.always_429
                    "/api/v2/orders/arbitrum/seaport/listings" None initial)
             (Simulated.response 429 ∅ "slow down" JNull) eq_refl eq_refl).
  - reflexivity.
Defined.

Lemma chain_of_cases (c : Z) :
  (c = 42161%Z /\ chain_of c = "arbitrum")
  \/ (c ≠ 42161%Z /\ chain_of c = "ethereum").
Proof.
  unfold chain_of. destruct (Z.eqb_spec c 42161); [by left | by right].
Qed.

(** X5: [getListings] and [getOffers] of the OpenSea plugin send one
    request to the listings (offers) endpoint of the chain, which is
    arbitrum for chain id 42161 and ethereum for every other chain id,
    with the contract address and the token id in string form as the
    query; when the answer is a success with a decodable body they
    resolve to its [orders] member, and to the empty sequence when that
    member is absent or null. *)
Theorem plugin_orders_request h params s res d :
  network h (issued s)
    (mkRequest
       (mkURL (OpenSea.BASE h)
          ("/api/v2/orders/" +:+ chain_of (p_chainId params) +:+ "/seaport/listings")
          [("asset_contract_address", p_contractAddress params);
           ("token_ids", String_ (p_tokenId params))])
       [("x-api-key", env_or (env_OPENSEA_API_KEY h) "");
        ("accept", "application/json")]) = inr res ->
  ok res = true -> body_json res = inr d ->
  getListings (OpenSeaPlugin h) params s
  = (Resolved (match Js.get d "orders" with
               | None | Some JNull => JArr []
               | Some orders => orders
               end),
     sent (mkRequest
             (mkURL (OpenSea.BASE h)
                ("/api/v2/orders/" +:+ chain_of (p_chainId params) +:+ "/seaport/listings")
                [("asset_contract_address", p_contractAddress params);
                 ("token_ids", String_ (p_tokenId params))])
             [("x-api-key", env_or (env_OPENSEA_API_KEY h) "");
              ("accept", "application/json")]) s)
  /\ (chain_of (p_chainId params) = "arbitrum" <-> p_chainId params = 42161%Z)
  /\ (p_chainId params ≠ 42161%Z -> chain_of (p_chainId params) = "ethereum")
  /\ (forall res' d',
        network h (issued s)
          (mkRequest
             (mkURL (OpenSea.BASE h)
                ("/api/v2/orders/" +:+ chain_of (p_chainId params) +:+ "/seaport/offers")
                [("asset_contract_address", p_contractAddress params);
                 ("token_ids", String_ (p_tokenId params))])
             [("x-api-key", env_or (env_OPENSEA_API_KEY h) "");
              ("accept", "application/json")]) = inr res' ->
        ok res' = true -> body_json res' = inr d' ->
        (getOffers (OpenSeaPlugin h) params s).1
        = Resolved (match Js.get d' "orders" with
                    | None | Some JNull => JArr []
                    | Some orders => orders
                    end)).
Proof.
  intros Hnet Hok Hjson. split; [|split; [|split]].
  - cbn [getListings OpenSeaPlugin]. unfold bind at 1.
    rewrite plugin_osFetch_run.
    assert (plugin_request h
              ("/api/v2/orders/" +:+ chain_of (p_chainId params) +:+ "/seaport/listings")
              (Some (asset_query params))
            = mkRequest
                (mkURL (OpenSea.BASE h)
                   ("/api/v2/orders/" +:+ chain_of (p_chainId params) +:+ "/seaport/listings")
                   [("asset_contract_address", p_contractAddress params);
                    ("token_ids", String_ (p_tokenId params))])
                [("x-api-key", env_or (env_OPENSEA_API_KEY h) "");
                 ("accept", "application/json")]) as -> by reflexivity.
    rewrite Hnet, Hok, Hjson. unfold ret, orders_of, Js.coalesce.
    by destruct (Js.get d "orders") as [[]|].
  - destruct (chain_of_cases (p_chainId params)) as [[Hc ->] | [Hc ->]];
      split; try done.
  - intros Hne. by destruct (chain_of_cases (p_chainId params)) as [[Hc ?] | [Hc ->]].
  - intros res' d' Hnet' Hok' Hjson'.
    cbn [getOffers OpenSeaPlugin]. unfold bind at 1.
    rewrite plugin_osFetch_run.
    assert (plugin_request h
              ("/api/v2/orders/" +:+ chain_of (p_chainId params) +:+ "/seaport/offers")
              (Some (asset_query params))
            = mkRequest
                (mkURL (OpenSea.BASE h)
                   ("/api/v2/orders/" +:+ chain_of (p_chainId params) +:+ "/seaport/offers")
                   [("asset_contract_address", p_contractAddress params);
                    ("token_ids", String_ (p_tokenId params))])
                [("x-api-key", env_or (env_OPENSEA_API_KEY h) "");
                 ("accept", "application/json")]) as -> by reflexivity.
    rewrite Hnet', Hok', Hjson'. unfold ret, orders_of, Js.coalesce. simpl.
    by destruct (Js.get d' "orders") as [[]|].
Qed.

(** The listings of an asset on Arbitrum, answered by one order. *)
Lemma plugin_orders_one_order :
  (getListings (OpenSeaPlugin Simulated.one_order)
     (mkGetAssetParams "0xe6270e46c9f99f00d459ca707298d8679f44b9ae" (SNum 13) 42161)
     initial).1
  = Resolved (JArr [JStr "asset-order"]).
Proof.
  exact (f_equal fst
           (proj1 (plugin_orders_request Simulated.one_order
                     (mkGetAssetParams "0xe6270e46c9f99f00d459ca707298d8679f44b9ae"
                        (SNum 13) 42161)
                     initial
                     (Simulated.response 200 {[ "x-ratelimit-remaining" := "7" ]} ""
                        (JObj [("orders", JArr [JStr "asset-order"])]))
                     (JObj [("orders", JArr [JStr "asset-order"])])
                     eq_refl eq_refl eq_refl))).
Defined.

Lemma erc1155_match (x : string) :
  x ≠ "erc1155" ->
  match x with
  | "erc1155" => ERC1155
  | _ => ERC721
  end = ERC721.
Proof.
  do 7 (destruct x as [|[[] [] [] [] [] [] [] []] x];
        try (intros _; reflexivity)).
  destruct x; [by intros [] | reflexivity].
Qed.

(** The token standard that [getAsset] reads. *)
Lemma token_standard_cases (o : option Json) :
  (o = Some (JStr "erc1155")
   /\ match o with
      | Some (JStr "erc1155") => ERC1155
      | _ => ERC721
      end = ERC1155)
  \/ (o ≠ Some (JStr "erc1155")
      /\ match o with
         | Some (JStr "erc1155") => ERC1155
         | _ => ERC721
         end = ERC721).
Proof.
  destruct o as [[| | |x| |]|]; try (right; split; [discriminate | reflexivity]).
  destruct (decide (x = "erc1155")) as [-> | Hx]; [by left|].
  right. split; [congruence|]. by apply erc1155_match.
Qed.

(** X6: for a contract address and a token id that are plain path
    segments (letters, digits, [-], [_], [~]: text that the URL parser
    keeps as it is; a token id given as a number is a safe integer),
    [getAsset] of the OpenSea plugin asks for the NFT on
    the chain (arbitrum for 42161, ethereum otherwise), without a query;
    from a success with a decodable body it builds a primitive that
    repeats the contract address, the token id in string form and the
    chain id of the call, whose token standard is ERC1155 exactly when
    the body's [nft.token_standard] is the string [erc1155] and ERC721
    otherwise, whose [collectionVerified] is always present, and which
    never has attributes or pricing members. *)
Theorem plugin_getAsset h params s res d :
  url_plain (p_contractAddress params) = true ->
  url_plain (String_ (p_tokenId params)) = true ->
  (forall n, p_tokenId params = SNum n -> JsString.safe_integer n = true) ->
  network h (issued s)
    (mkRequest
       (mkURL (OpenSea.BASE h)
          ("/api/v2/chain/" +:+ chain_of (p_chainId params) +:+ "/contract/"
           +:+ p_contractAddress params +:+ "/nfts/" +:+ String_ (p_tokenId params))
          [])
       [("x-api-key", env_or (env_OPENSEA_API_KEY h) "");
        ("accept", "application/json")]) = inr res ->
  ok res = true -> body_json res = inr d ->
  exists asset,
    getAsset (OpenSeaPlugin h) params s
    = (Resolved asset,
       sent (mkRequest
               (mkURL (OpenSea.BASE h)
                  ("/api/v2/chain/" +:+ chain_of (p_chainId params) +:+ "/contract/"
                   +:+ p_contractAddress params +:+ "/nfts/"
                   +:+ String_ (p_tokenId params))
                  [])
               [("x-api-key", env_or (env_OPENSEA_API_KEY h) "");
                ("accept", "application/json")]) s)
    /\ contractAddress asset = p_contractAddress params
    /\ tokenId asset = String_ (p_tokenId params)
    /\ chainId asset = p_chainId params
    /\ (tokenStandard asset = ERC1155
        <-> nft_field d "token_standard" = Some (JStr "erc1155"))
    /\ (tokenStandard asset = ERC721
        <-> nft_field d "token_standard" ≠ Some (JStr "erc1155"))
    /\ collectionVerified asset
       = Some (Js.truthy_opt (collection_field d "is_verified"))
    /\ attributes asset = None /\ isListed asset = None
    /\ isOffered asset = None /\ currentPrice asset = None
    /\ floorPrice asset = None /\ lastSalePrice asset = None
    /\ offerPrice asset = None
    /\ (Js.get d "nft" = None ->
        owner asset = None /\ name asset = None /\ description asset = None
        /\ image asset = None /\ collectionSlug asset = None
        /\ collectionName asset = None /\ tokenStandard asset = ERC721
        /\ collectionVerified asset = Some false).
Proof.
  intros _ _ _ Hnet Hok Hjson. eexists. split.
  - cbn [getAsset OpenSeaPlugin]. unfold bind at 1.
    rewrite plugin_osFetch_run.
    change (plugin_request h ?p None)
      with (mkRequest (mkURL (OpenSea.BASE h) p [])
              [("x-api-key", env_or (env_OPENSEA_API_KEY h) "");
               ("accept", "application/json")]).
    rewrite Hnet, Hok, Hjson. reflexivity.
  - cbn [contractAddress tokenId chainId tokenStandard collectionVerified
         attributes isListed isOffered currentPrice floorPrice lastSalePrice
         offerPrice owner name description image collectionSlug collectionName].
    pose proof (token_standard_cases (nft_field d "token_standard")) as Hstd.
    split; [done|]. split; [done|]. split; [done|].
    split; [|split].
    + destruct Hstd as [[Ho Hm] | [Ho Hm]]; rewrite Hm; split; done.
    + destruct Hstd as [[Ho Hm] | [Ho Hm]]; rewrite Hm; split; done.
    + do 8 (split; [done|]).
      intros Hnft. unfold collection_field, nft_field. rewrite Hnft.
      repeat split.
Qed.

(** An ERC-1155 NFT of a verified collection. *)
Lemma plugin_getAsset_erc1155 :
  exists asset,
    (getAsset (OpenSeaPlugin Scenarios.one_nft)
       (mkGetAssetParams "0xe6270e46c9f99f00d459ca707298d8679f44b9ae" (SNum 7) 42161)
       initial).1 = Resolved asset
    /\ tokenId asset = "7"
    /\ tokenStandard asset = ERC1155
    /\ collectionVerified asset = Some true.
Proof.
  assert (forall n, SNum 7 = SNum n -> JsString.safe_integer n = true) as Hsafe
    by (intros n [= <-]; reflexivity).
  destruct (plugin_getAsset Scenarios.one_nft
              (mkGetAssetParams "0xe6270e46c9f99f00d459ca707298d8679f44b9ae"
                 (SNum 7) 42161)
              initial _ _ eq_refl eq_refl Hsafe eq_refl eq_refl eq_refl)
    as (asset & Hrun & _ & Htok & _ & Hstd & _ & Hver & _).
  exists asset. split; [by rewrite Hrun|]. split; [exact Htok|].
  split; [by apply Hstd | exact Hver].
Defined.

(** X7: the eight write operations of the OpenSea plugin and of the Magic
    Eden plugin are placeholders: each resolves to an object made of a
    [prepared] tag and the parameters as they were passed, and none sends
    a request or writes a line. *)
Theorem write_operations_prepare_only h (params : Json) (s : State) :
  Forall (fun op => exists tag,
            op params s
            = (Resolved (JObj [("prepared", JStr tag); ("params", params)]), s))
         (write_operations (OpenSeaPlugin h)
          ++ write_operations MagicEden.MagicEdenPlugin).
Proof.
  repeat constructor; eexists; reflexivity.
Qed.

End PluginMore.

(* ===================================================================== *)
(** * Further properties of the plugin registry                          *)
(* ===================================================================== *)

Module RegistryMore.
Import Terms Nft.
Local Open Scope list_scope.

(** X8: a registration touches its own id only: it leaves what every
    other id resolves to as it was, and two registrations under different
    ids give the same registry in either order. *)
Theorem register_other_ids (p q : NftPlugin) (registry : Registry) :
  id p ≠ id q ->
  getNftPlugin (id q) (registerNftPlugin p registry) = getNftPlugin (id q) registry
  /\ registerNftPlugin p (registerNftPlugin q registry)
     = registerNftPlugin q (registerNftPlugin p registry)
  /\ getNftPlugin (id p) (registerNftPlugin q (registerNftPlugin p registry)) = Some p
  /\ getNftPlugin (id q) (registerNftPlugin q (registerNftPlugin p registry)) = Some q.
Proof.
  intros Hne. unfold getNftPlugin, registerNftPlugin.
  split; [by apply lookup_insert_ne|].
  split; [by apply insert_insert_ne|].
  split; [|apply lookup_insert_eq].
  rewrite lookup_insert_ne by done. apply lookup_insert_eq.
Qed.

(** Both plugins of the repository, registered in either order. *)
Lemma register_both_plugins :
  getNftPlugin "magic-eden"
    (registerNftPlugin (OpenSea.OpenSeaPlugin Simulated.one_order) empty_registry)
  = None
  /\ registerNftPlugin (OpenSea.OpenSeaPlugin Simulated.one_order)
       (registerNftPlugin MagicEden.MagicEdenPlugin empty_registry)
     = registerNftPlugin MagicEden.MagicEdenPlugin
         (registerNftPlugin (OpenSea.OpenSeaPlugin Simulated.one_order) empty_registry).
Proof.
  destruct (register_other_ids (OpenSea.OpenSeaPlugin Simulated.one_order)
              MagicEden.MagicEdenPlugin empty_registry) as (H1 & H2 & _).
  - discriminate.
  - split; [exact H1 | exact H2].
Defined.

Lemma register_all_snoc plugins p (registry : Registry) :
  register_all (plugins ++ [p]) registry
  = registerNftPlugin p (register_all plugins registry).
Proof. unfold register_all. by rewrite foldl_app. Qed.

Lemma lookup_register_all i plugins (registry : Registry) :
  getNftPlugin i (register_all plugins registry)
  = match last_registered i plugins with
    | Some p => Some p
    | None => getNftPlugin i registry
    end.
Proof.
  induction plugins as [|p plugins IH] using rev_ind.
  - reflexivity.
  - rewrite register_all_snoc. unfold last_registered.
    rewrite rev_app_distr. simpl.
    unfold getNftPlugin, registerNftPlugin.
    destruct (decide (id p = i)) as [<- | Hne].
    + rewrite bool_decide_eq_true_2 by done. apply lookup_insert_eq.
    + rewrite bool_decide_eq_false_2 by done.
      rewrite lookup_insert_ne by done. exact IH.
Qed.

Lemma last_registered_Some i plugins p :
  last_registered i plugins = Some p -> id p = i /\ p ∈ plugins.
Proof.
  unfold last_registered. intros H. apply find_some in H as [Hin Hid].
  apply bool_decide_eq_true in Hid. split; [done|].
  apply list_elem_of_In, in_rev. exact Hin.
Qed.

(** X9: after a sequence of registrations an id resolves to the plugin
    that was registered last under it, and to what it resolved to before
    when no plugin of the sequence has that id; starting from the empty
    registry, it resolves only to a plugin of the sequence that carries
    this id, and to nothing when there is none. *)
Theorem resolve_after_registrations (i : string) (plugins : list NftPlugin)
    (registry : Registry) :
  getNftPlugin i (register_all plugins registry)
  = match last_registered i plugins with
    | Some p => Some p
    | None => getNftPlugin i registry
    end
  /\ (forall p, getNftPlugin i (register_all plugins empty_registry) = Some p ->
        id p = i /\ p ∈ plugins)
  /\ ((forall p, p ∈ plugins -> id p ≠ i) ->
      getNftPlugin i (register_all plugins empty_registry) = None).
Proof.
  split; [apply lookup_register_all|]. split.
  - intros p. rewrite lookup_register_all.
    destruct (last_registered i plugins) as [q|] eqn:Hlast.
    + intros [= ->]. by apply last_registered_Some.
    + unfold getNftPlugin, empty_registry. by rewrite lookup_empty.
  - intros Hnone. rewrite lookup_register_all.
    destruct (last_registered i plugins) as [q|] eqn:Hlast.
    + apply last_registered_Some in Hlast as [Hid Hin]. by destruct (Hnone q Hin).
    + unfold getNftPlugin, empty_registry. by rewrite lookup_empty.
Qed.

(** Only Magic Eden's plugin registered: [opensea] resolves to nothing. *)
Lemma resolve_unregistered :
  getNftPlugin "opensea" (register_all [MagicEden.MagicEdenPlugin] empty_registry)
  = None.
Proof.
  apply (proj2 (proj2 (resolve_after_registrations "opensea"
                         [MagicEden.MagicEdenPlugin] empty_registry))).
  intros p Hp. apply list_elem_of_singleton in Hp as ->. discriminate.
Defined.

End RegistryMore.

(* ===================================================================== *)
(** * Normalised strings: trim, lower case, the address pattern          *)
(* ===================================================================== *)

Module StringMore.
Import JsString Terms.
Local Open Scope list_scope.

Lemma chars_of_chars l : chars (of_chars l) = l.
Proof. apply list_ascii_of_string_of_list_ascii. Qed.

Lemma of_chars_chars s : of_chars (chars s) = s.
Proof. apply string_of_list_ascii_of_string. Qed.

Lemma toLowerChar_idem c : toLowerChar (toLowerChar c) = toLowerChar c.
Proof. destruct c as [[] [] [] [] [] [] [] []]; vm_compute; reflexivity. Qed.

Lemma toLowerCase_idem s : toLowerCase (toLowerCase s) = toLowerCase s.
Proof.
  unfold toLowerCase. rewrite chars_of_chars, map_map. f_equal.
  apply map_ext. intros c. apply toLowerChar_idem.
Qed.

Lemma zero_ci c :
  RegExp.atom_matches true (RegExp.AChar "0") c
  = bool_decide (toLowerChar c = "0"%char).
Proof. destruct c as [[] [] [] [] [] [] [] []]; vm_compute; reflexivity. Qed.

Lemma x_ci c :
  RegExp.atom_matches true (RegExp.AChar "x") c
  = bool_decide (toLowerChar c = "x"%char).
Proof. destruct c as [[] [] [] [] [] [] [] []]; vm_compute; reflexivity. Qed.

Lemma hex_ci c :
  RegExp.atom_matches true hex_class c = lower_hex (toLowerChar c).
Proof. destruct c as [[] [] [] [] [] [] [] []]; vm_compute; reflexivity. Qed.

(** A repetition [{n}] followed by [$]. *)
Lemma repeat_to_the_end ic a n l :
  match RegExp.match_here ic (repeat a n) l with
  | Some rest => bool_decide (rest = [])
  | None => false
  end
  = (length l =? n)%nat && forallb (RegExp.atom_matches ic a) l.
Proof.
  revert l. induction n as [|n IH]; intros [|c l]; simpl; try reflexivity.
  destruct (RegExp.atom_matches ic a c).
  - apply IH.
  - by rewrite andb_false_r.
Qed.

Lemma forallb_hex l :
  forallb (RegExp.atom_matches true hex_class) l
  = forallb lower_hex (map toLowerChar l).
Proof.
  induction l as [|c l IH]; cbn [forallb map]; [done|]. by rewrite hex_ci, IH.
Qed.

Lemma hex_pattern n l :
  RegExp.test_at
    (RegExp.mk true [RegExp.lit "0x" ++ repeat hex_class n] true true) l
  = match map toLowerChar l with
    | c0 :: c1 :: body =>
        bool_decide (c0 = "0"%char) && bool_decide (c1 = "x"%char)
        && (length body =? n)%nat && forallb lower_hex body
    | _ => false
    end.
Proof.
  unfold RegExp.test_at, RegExp.alt_matches_at.
  cbn [RegExp.alts RegExp.ignoreCase RegExp.eol existsb RegExp.lit chars
       list_ascii_of_string map app RegExp.match_here].
  rewrite orb_false_r.
  destruct l as [|c0 [|c1 body]]; cbn [map].
  - reflexivity.
  - rewrite zero_ci. by destruct (bool_decide _).
  - rewrite zero_ci, x_ci.
    destruct (bool_decide (toLowerChar c0 = _)); [|done].
    destruct (bool_decide (toLowerChar c1 = _)); [|done].
    rewrite repeat_to_the_end, forallb_hex, length_map. reflexivity.
Qed.

(** [/^0x[a-f0-9]{40}$/i] accepts the strings whose lower-case form is
    [0x] and forty lower-case hexadecimal digits. *)
Lemma address_test s :
  RegExp.test Tools.ADDRESS_RE s = address_shape (toLowerCase s).
Proof.
  unfold RegExp.test, address_shape, toLowerCase. rewrite chars_of_chars.
  exact (hex_pattern 40 (chars s)).
Qed.

Lemma trimStart_clean l : clean_head (trimStart_chars l) = true.
Proof.
  induction l as [|c l IH]; simpl; [done|].
  destruct (is_white c) eqn:Hc; [exact IH|]. simpl. by rewrite Hc.
Qed.

Lemma trimStart_suffix l : exists pre, l = pre ++ trimStart_chars l.
Proof.
  induction l as [|c l [pre IH]]; simpl.
  - by exists [].
  - destruct (is_white c).
    + exists (c :: pre). simpl. by rewrite <- IH.
    + by exists [].
Qed.

Lemma clean_head_prefix (l1 l2 : list ascii) :
  clean_head (l1 ++ l2) = true -> clean_head l1 = true.
Proof. by destruct l1. Qed.

Lemma trim_chars_clean l :
  clean_head (trim_chars l) = true /\ clean_head (rev (trim_chars l)) = true.
Proof.
  unfold trim_chars. split.
  - destruct (trimStart_suffix (rev (trimStart_chars l))) as [pre Hpre].
    apply (clean_head_prefix _ (rev pre)).
    rewrite <- rev_app_distr, <- Hpre, rev_involutive.
    apply trimStart_clean.
  - rewrite rev_involutive. apply trimStart_clean.
Qed.

Lemma trim_trimmed s : trimmed (trim s) = true.
Proof.
  unfold trimmed, trim. rewrite chars_of_chars.
  destruct (trim_chars_clean (chars s)) as [-> ->]. reflexivity.
Qed.

Lemma trimStart_id l : clean_head l = true -> trimStart_chars l = l.
Proof. destruct l as [|c l]; simpl; [done|]. by destruct (is_white c). Qed.

(** [trim] leaves a string without surrounding white space as it is. *)
Lemma trim_id s : trimmed s = true -> trim s = s.
Proof.
  unfold trimmed, trim, trim_chars. intros [H1 H2]%andb_true_iff.
  rewrite (trimStart_id _ H1), (trimStart_id _ H2), rev_involutive.
  apply of_chars_chars.
Qed.

Lemma uint_digits d :
  Forall (fun c => is_digit c = true) (chars (NilZero.string_of_uint d))
  /\ NilZero.string_of_uint d ≠ "".
Proof.
  assert (forall d, Forall (fun c => is_digit c = true)
                      (chars (DecimalString.NilEmpty.string_of_uint d))) as Hd.
  { clear d. induction d; simpl; constructor; done. }
  destruct d; simpl; (split; [|done]); try (constructor; [done|]);
    try apply Hd; constructor.
Qed.

Lemma clean_head_rev_cons (c : ascii) l :
  is_white c = false -> clean_head l = true ->
  clean_head (rev l) = true -> clean_head (rev (c :: l)) = true.
Proof.
  intros Hc _ Hrev. simpl. destruct (rev l) as [|x r]; simpl.
  - by rewrite Hc.
  - exact Hrev.
Qed.

Lemma digits_trimmed l :
  Forall (fun c => is_digit c = true) l ->
  clean_head l = true /\ clean_head (rev l) = true.
Proof.
  assert (forall c, is_digit c = true -> is_white c = false) as Hdw.
  { intros c. destruct c as [[] [] [] [] [] [] [] []]; vm_compute; congruence. }
  induction 1 as [|c l Hc Hl [IH1 IH2]]; [done|]. split.
  - simpl. by rewrite (Hdw c Hc).
  - simpl. destruct (rev l) as [|x r]; simpl in *; [by rewrite (Hdw c Hc)|done].
Qed.

(** The decimal form of a number is not empty and has no white space
    around it. *)
Lemma of_Z_trimmed n : of_Z n ≠ "" /\ trimmed (of_Z n) = true.
Proof.
  unfold of_Z, NilZero.string_of_int, trimmed.
  destruct (Z.to_int n) as [d | d].
  - destruct (uint_digits d) as [Hd Hne]. split; [done|].
    destruct (digits_trimmed _ Hd) as [-> ->]. reflexivity.
  - destruct (uint_digits d) as [Hd Hne]. split; [done|].
    destruct (digits_trimmed _ Hd) as [H1 H2].
    cbn [chars list_ascii_of_string clean_head]. fold (chars (NilZero.string_of_uint d)).
    simpl rev. destruct (rev (chars (NilZero.string_of_uint d))) as [|x r]; done.
Qed.

End StringMore.

(* ===================================================================== *)
(** * The normalizing schemas of the read tools                          *)
(* ===================================================================== *)

Module SchemaMore.
Import JsString Spec Terms OpenSeaMcp Tools StringMore.
Local Open Scope list_scope.

Lemma address_schema_inr (v : option Json) (out : string) :
  EthAddressSchema v = inr out
  <-> exists a, v = Some (JStr a)
        /\ out = toLowerCase (trim a)
        /\ address_shape out = true.
Proof.
  unfold EthAddressSchema, Zod.preprocess, Zod.regex, Zod.string_, Zod.fail.
  split.
  - destruct v as [[| | |a| |]|]; try discriminate.
    rewrite address_test, toLowerCase_idem.
    destruct (address_shape _) eqn:Hshape; [|discriminate].
    intros [= <-]. by exists a.
  - intros (a & -> & -> & Hshape).
    by rewrite address_test, toLowerCase_idem, Hshape.
Qed.

(** X10: [EthAddressSchema] accepts a value exactly when it is a string
    whose trimmed, lower-case form is [0x] followed by forty lower-case
    hexadecimal digits, and its output is that canonical form: white
    space around the address and the case of its letters are
    normalised, nothing else is. *)
Theorem address_schema_canonical (v : option Json) (out : string) :
  EthAddressSchema v = inr out
  <-> exists a, v = Some (JStr a)
        /\ out = toLowerCase (trim a)
        /\ address_shape out = true.
Proof. apply address_schema_inr. Qed.

(** An address in upper case with white space around it. *)
Lemma address_schema_upper_case :
  EthAddressSchema
    (Some (JStr "  0xE6270E46C9F99F00D459CA707298D8679F44B9AE "))
  = inr "0xe6270e46c9f99f00d459ca707298d8679f44b9ae".
Proof.
  apply (proj2 (address_schema_canonical _ _)).
  eexists. split; [reflexivity|]. split; vm_compute; reflexivity.
Defined.

Lemma wallet_candidate_lower v :
  toLowerCase (wallet_candidate v) = wallet_candidate v.
Proof.
  destruct v as [[| | |a| |]|]; try reflexivity. apply toLowerCase_idem.
Qed.

Lemma wallet_address_lower h (fields : list (string * Json)) keys :
  let cand :=
    List.find (fun v => (0 <? String.length v)%nat)
      (map (fun k => wallet_candidate (Js.assoc k fields)) keys) in
  let fallback :=
    toLowerCase (env_or (env_DEFAULT_ARBITRUM_WALLET h) DEFAULT_WALLET) in
  toLowerCase (or_default cand fallback) = or_default cand fallback.
Proof.
  intros cand fallback. unfold or_default.
  destruct cand as [c|] eqn:Hcand; [|apply toLowerCase_idem].
  destruct (truthy c); [|apply toLowerCase_idem].
  apply find_some in Hcand as [Hin _].
  apply in_map_iff in Hin as (k & <- & _). apply wallet_candidate_lower.
Qed.

(** Arguments that pass [GetWalletNftsSchemaRaw] carry a well-formed
    address. *)
Lemma wallet_parsed_shape h unparsed d :
  GetWalletNftsSchemaRaw h unparsed = inr d -> address_shape (w_address d) = true.
Proof.
  unfold GetWalletNftsSchemaRaw, Zod.object.
  destruct unparsed as [| | | | |fields]; try discriminate.
  destruct (Zod.member fields "cursor" _) as [issues | cursor]; [discriminate|].
  cbv zeta. cbn [w_address].
  destruct (RegExp.test ADDRESS_RE _) eqn:Htest; [|discriminate].
  intros [= <-]. cbn [w_address].
  by rewrite address_test, wallet_address_lower in Htest.
Qed.

Lemma osFetch_requests_of h deps address cursor s :
  exists n, 1 <= n
    /\ issued (osFetch h
                 ("/api/v2/chain/" +:+ ARBITRUM_CHAIN +:+ "/account/" +:+ address
                  +:+ "/nfts")
                 (apiKey deps)
                 (Some [("cursor", match cursor with
                                   | Some c => QStr c
                                   | None => QUndefined
                                   end)]) s).2
       = issued s ++ repeat (wallet_request h deps address cursor) n.
Proof. apply ToolFacts.osFetch_requests. Qed.

(** X11: get_wallet_nfts only ever asks for
    [/api/v2/chain/arbitrum/account/<address>/nfts], one request per
    attempt, where the address either has the canonical shape ([0x] and
    forty lower-case hexadecimal digits) or is the default wallet,
    requested without a cursor; with DEFAULT_ARBITRUM_WALLET unset the
    address always has the canonical shape. *)
Theorem wallet_requests_well_formed h deps unparsed s :
  exists address cursor n,
    1 <= n
    /\ issued (get_wallet_nfts h deps unparsed s).2
       = issued s ++ repeat (wallet_request h deps address cursor) n
    /\ (address_shape address = true
        \/ (address = DEFAULTS_wallet h /\ cursor = None))
    /\ (env_DEFAULT_ARBITRUM_WALLET h = None -> address_shape address = true).
Proof.
  unfold get_wallet_nfts.
  destruct (GetWalletNftsSchemaRaw h unparsed) as [issues | d] eqn:Hparse.
  - exists (DEFAULTS_wallet h), None.
    destruct (osFetch_requests_of h deps (DEFAULTS_wallet h) None s)
      as (n & Hn & Hiss).
    exists n. rewrite ToolFacts.bind_ret_state.
    split; [done|]. split; [exact Hiss|]. split; [by right|].
    intros Henv. unfold DEFAULTS_wallet. rewrite Henv. vm_compute. reflexivity.
  - exists (w_address d), (w_cursor d).
    destruct (osFetch_requests_of h deps (w_address d) (w_cursor d) s)
      as (n & Hn & Hiss).
    exists n. rewrite ToolFacts.bind_ret_state.
    pose proof (wallet_parsed_shape _ _ _ Hparse) as Hshape.
    split; [done|]. split; [exact Hiss|]. split; [by left | done].
Qed.

Lemma min_one_inr (m : string) (v : option Json) (out : string) r :
  Zod.min 1 m (Zod.string_ r) v = inr out
  <-> v = Some (JStr out) /\ out ≠ "".
Proof.
  unfold Zod.min, Zod.string_, Zod.fail. split.
  - destruct v as [[| | |x| |]|]; try discriminate.
    destruct x as [|c x]; simpl; [discriminate|]. by intros [= <-].
  - intros [-> Hne]. by destruct out.
Qed.

Lemma token_number n : TokenIdSchema (Some (JNum n)) = inr (of_Z n).
Proof.
  unfold TokenIdSchema, Zod.preprocess. cbn [String_].
  destruct (of_Z_trimmed n) as [Hne Htrim].
  rewrite (trim_id _ Htrim). by apply min_one_inr.
Qed.

Lemma token_schema_inr v out :
  TokenIdSchema v = inr out
  <-> out ≠ ""
      /\ ((exists raw, v = Some (JStr raw) /\ out = trim raw)
          \/ (exists n, v = Some (JNum n) /\ out = of_Z n)).
Proof.
  split.
  - destruct v as [[| |n|raw| |]|]; try discriminate.
    + rewrite token_number. intros [= <-].
      split; [apply of_Z_trimmed | right; by exists n].
    + unfold TokenIdSchema, Zod.preprocess. cbn [String_].
      intros [[= <-] Hne]%min_one_inr. split; [done | left; by exists raw].
  - intros [Hne [(raw & -> & ->) | (n & -> & ->)]]; [|apply token_number].
    unfold TokenIdSchema, Zod.preprocess. cbn [String_].
    by apply min_one_inr.
Qed.

Lemma slug_schema_inr v out :
  CollectionSlugSchema v = inr out
  <-> out ≠ "" /\ exists raw, v = Some (JStr raw) /\ out = trim raw.
Proof.
  unfold CollectionSlugSchema, Zod.preprocess. split.
  - destruct v as [[| | |raw| |]|]; try discriminate.
    intros [[= <-] Hne]%min_one_inr. split; [done | by exists raw].
  - intros [Hne (raw & -> & ->)]. by apply min_one_inr.
Qed.

(** X12: [TokenIdSchema] accepts a number that is a safe integer (below
    2^53 in absolute value) as its decimal form and a string as its
    trimmed form when that is not empty, and nothing but numbers and
    strings; [CollectionSlugSchema] accepts a string as its trimmed form
    when that is not empty, and no number.  What either schema accepts
    from a string or from a safe integer is not empty and has no white
    space around it. *)
Theorem token_and_slug_schemas :
  (forall n, safe_integer n = true ->
             TokenIdSchema (Some (JNum n)) = inr (of_Z n))
  /\ (forall n, Zod.success (CollectionSlugSchema (Some (JNum n))) = false)
  /\ (forall raw out,
        TokenIdSchema (Some (JStr raw)) = inr out
        <-> out ≠ "" /\ out = trim raw)
  /\ (forall v out,
        TokenIdSchema v = inr out ->
        (exists raw, v = Some (JStr raw)) \/ (exists n, v = Some (JNum n)))
  /\ (forall v out,
        CollectionSlugSchema v = inr out
        <-> out ≠ "" /\ exists raw, v = Some (JStr raw) /\ out = trim raw)
  /\ (forall v out,
        (TokenIdSchema v = inr out
         /\ forall n, v = Some (JNum n) -> safe_integer n = true)
        \/ CollectionSlugSchema v = inr out ->
        out ≠ "" /\ trimmed out = true).
Proof.
  split; [intros n _; exact (token_number n)|]. split; [done|].
  split; [|split; [|split; [exact slug_schema_inr|]]].
  - intros raw out. rewrite token_schema_inr. split.
    + intros [Hne [(raw' & [= <-] & ->) | (n & [=] & _)]]. done.
    + intros [Hne ->]. split; [done|]. left. by exists raw.
  - intros v out [_ [(raw & -> & _) | (n & -> & _)]]%token_schema_inr;
      [left; by exists raw | right; by exists n].
  - intros v out [[H _] | H].
    + apply token_schema_inr in H as [Hne [(raw & _ & ->) | (n & _ & ->)]].
      * split; [done | apply trim_trimmed].
      * apply of_Z_trimmed.
    + apply slug_schema_inr in H as [Hne (raw & _ & ->)].
      split; [done | apply trim_trimmed].
Qed.

(** The token id [ 13 ] and the number 13 give the same token. *)
Lemma token_13 :
  TokenIdSchema (Some (JStr " 13 ")) = inr "13"
  /\ TokenIdSchema (Some (JNum 13)) = inr "13"
  /\ trimmed "13" = true.
Proof.
  destruct token_and_slug_schemas as (Hnum & _ & Htok & _ & _ & Htrim).
  split; [|split].
  - by apply Htok.
  - apply (Hnum 13%Z eq_refl).
  - apply (Htrim (Some (JNum 13)) "13"). left. split.
    + apply (Hnum 13%Z eq_refl).
    + by intros n [= <-].
Defined.

End SchemaMore.

(* ===================================================================== *)
(** * Further properties of the read tools                               *)
(* ===================================================================== *)

Module ToolMore.
Import JsString Spec Terms OpenSeaMcp Tools StringMore SchemaMore.
Local Open Scope list_scope.

(** ** list_arbitrum_collections *)

Lemma is_arbitrum_contract_inr c b :
  is_arbitrum_contract c = inr b ->
  (b = true <-> Js.get c "chain" = Some (JStr "arbitrum")).
Proof.
  unfold is_arbitrum_contract.
  destruct c as [| | | | |fields]; try discriminate;
    try (intros [= <-]; split; discriminate).
  destruct (Js.get (JObj fields) "chain") as [[| | |x| |]|];
    intros [= <-]; try (split; discriminate).
  unfold ARBITRUM_CHAIN. rewrite bool_decide_eq_true.
  split; [by intros -> | by intros [= ->]].
Qed.

Lemma some_arbitrum_inr cs b :
  some_arbitrum cs = inr b ->
  (b = true
   <-> exists contract,
         contract ∈ cs /\ Js.get contract "chain" = Some (JStr "arbitrum")).
Proof.
  revert b. induction cs as [|c cs IH]; intros b; simpl.
  - intros [= <-]. split; [discriminate|]. intros (x & Hx & _).
    by apply elem_of_nil in Hx.
  - destruct (is_arbitrum_contract c) as [t | [|]] eqn:Hc; [discriminate| |].
    + intros [= <-]. split; [|done]. intros _. exists c.
      split; [apply list_elem_of_here|]. by apply (is_arbitrum_contract_inr c true).
    + intros Hcs. rewrite (IH b Hcs). split.
      * intros (x & Hx & Hchain). exists x. split; [by apply list_elem_of_further|done].
      * intros (x & Hx & Hchain). apply elem_of_cons in Hx as [-> | Hx].
        -- apply (is_arbitrum_contract_inr c false Hc) in Hchain. discriminate.
        -- by exists x.
Qed.

(** The filter keeps a collection on which its test does not throw
    exactly when one of its contracts is on Arbitrum. *)
Lemma kept_iff c :
  readable c = true -> (kept c = true <-> on_chain_arbitrum c).
Proof.
  unfold readable, kept, on_chain_arbitrum, on_arbitrum.
  destruct c as [| | | | |fields]; try discriminate;
    try (intros _; split; [discriminate | by intros (? & ? & [=] & _)]).
  destruct (Js.get (JObj fields) "contracts") as [[| | | |cs|]|] eqn:Hget;
    try discriminate;
    try (intros _; split; [discriminate | by intros (? & ? & [=] & _)]).
  destruct (some_arbitrum cs) as [t | b] eqn:Hsome; [discriminate|].
  intros _. pose proof (some_arbitrum_inr cs b Hsome) as Hb. split.
  - destruct b; [|discriminate]. intros _.
    destruct (proj1 Hb eq_refl) as (x & Hx & Hchain). by exists cs, x.
  - intros (cs' & x & [= <-] & Hx & Hchain).
    assert (b = true) as -> by (apply Hb; by exists x). reflexivity.
Qed.

Lemma filter_arbitrum_readable cs :
  forallb readable cs = true -> filter_arbitrum cs = inr (List.filter kept cs).
Proof.
  induction cs as [|c cs IH]; simpl; [done|].
  intros [Hc Hcs]%andb_true_iff. rewrite (IH Hcs).
  unfold readable in Hc. unfold kept.
  by destruct (on_arbitrum c) as [t | [|]].
Qed.

Lemma is_arbitrum_contract_error c t :
  is_arbitrum_contract c = inl t -> exists m, t = type_error m.
Proof.
  unfold is_arbitrum_contract.
  destruct c as [| | | | |fields]; try (intros [= <-]; by eexists);
    by destruct (Js.get _ "chain") as [[| | |x| |]|].
Qed.

Lemma some_arbitrum_error cs t :
  some_arbitrum cs = inl t -> exists m, t = type_error m.
Proof.
  induction cs as [|c cs IH]; simpl; [discriminate|].
  destruct (is_arbitrum_contract c) as [t' | [|]] eqn:Hc; [|discriminate|exact IH].
  intros [= <-]. by eapply is_arbitrum_contract_error.
Qed.

Lemma on_arbitrum_error c t :
  on_arbitrum c = inl t -> exists m, t = type_error m.
Proof.
  unfold on_arbitrum.
  destruct c as [| | | | |fields]; try (intros [= <-]; by eexists);
    try discriminate.
  destruct (Js.get _ "contracts") as [[| | | |cs|]|];
    try discriminate; try (intros [= <-]; by eexists).
  apply some_arbitrum_error.
Qed.

Lemma filter_arbitrum_unreadable cs :
  forallb readable cs = false -> exists m, filter_arbitrum cs = inl (type_error m).
Proof.
  induction cs as [|c cs IH]; simpl; [discriminate|].
  unfold readable at 1.
  destruct (on_arbitrum c) as [t | keep] eqn:Hc.
  - intros _. destruct (on_arbitrum_error c t Hc) as [m ->]. by exists m.
  - simpl. intros Hcs. destruct (IH Hcs) as [m ->]. by exists m.
Qed.

Lemma list_collections_eq h deps lim cursor :
  list_arbitrum_collections h deps lim cursor
  = (result <- osFetch h "/api/v2/collections" (apiKey deps)
                 (Some (collections_params lim cursor)) ;;
     match arbitrum_only (data result) with
     | inl t => throw t
     | inr collections =>
         ret (JObj [("rateLimit", rateLimit_json (rateLimit result));
                    ("nextCursor", next_only (data result));
                    ("data",
                     JObj (Js.assign "collections" (JArr collections)
                             (spread (data result))))])
     end).
Proof.
  unfold list_arbitrum_collections, collections_params.
  destruct cursor as [c|]; [|reflexivity]. by destruct (truthy c).
Qed.

Lemma assoc_assign_eq {A} k (v : A) l : Js.assoc k (Js.assign k v l) = Some v.
Proof.
  induction l as [|[k' v'] l IH]; simpl.
  - by rewrite bool_decide_eq_true_2.
  - destruct (bool_decide (k' = k)) eqn:Hk; simpl.
    + by rewrite bool_decide_eq_true_2.
    + by rewrite Hk.
Qed.

Lemma assoc_assign_ne {A} k k0 (v : A) l :
  k0 ≠ k -> Js.assoc k0 (Js.assign k v l) = Js.assoc k0 l.
Proof.
  intros Hne. induction l as [|[k' v'] l IH]; simpl.
  - by rewrite bool_decide_eq_false_2.
  - destruct (bool_decide (k' = k)) eqn:Hk; simpl.
    + apply bool_decide_eq_true in Hk as ->.
      by rewrite !bool_decide_eq_false_2.
    + by rewrite IH.
Qed.

(** X13: when the answer of /api/v2/collections has the array
    [collections] and the filter's test throws on none of its entries,
    list_arbitrum_collections answers with the envelope whose data are
    the answer with [collections] replaced: a collection of the answer
    is in the output exactly when one of its contracts has the chain
    [arbitrum], the kept collections come in their order, and every
    other member of the answer is passed on as it is. *)
Theorem list_collections_keeps_arbitrum h deps lim cursor s result s1 cs :
  osFetch h "/api/v2/collections" (apiKey deps)
    (Some (collections_params lim cursor)) s = (Resolved result, s1) ->
  Js.get (data result) "collections" = Some (JArr cs) ->
  forallb readable cs = true ->
  exists members,
    list_arbitrum_collections h deps lim cursor s
    = (Resolved
         (JObj [("rateLimit", rateLimit_json (rateLimit result));
                ("nextCursor", next_only (data result));
                ("data", JObj members)]), s1)
    /\ Js.assoc "collections" members = Some (JArr (List.filter kept cs))
    /\ (forall c, c ∈ cs -> (c ∈ List.filter kept cs <-> on_chain_arbitrum c))
    /\ (forall k, k ≠ "collections" ->
          Js.assoc k members = Js.get (data result) k).
Proof.
  intros Hfetch Hcs Hread.
  exists (Js.assign "collections" (JArr (List.filter kept cs))
            (spread (data result))).
  split; [|split; [|split]].
  - rewrite list_collections_eq. unfold bind. rewrite Hfetch.
    unfold arbitrum_only. rewrite Hcs, (filter_arbitrum_readable cs Hread).
    reflexivity.
  - apply assoc_assign_eq.
  - intros c Hc. rewrite list_elem_of_In, filter_In, <- list_elem_of_In.
    rewrite <- kept_iff.
    + split; [by intros [_ ?] | done].
    + rewrite forallb_forall in Hread. apply Hread. by apply list_elem_of_In.
  - intros k Hk. rewrite assoc_assign_ne by done.
    destruct (data result); try discriminate. reflexivity.
Qed.

(** A page with a collection on Arbitrum and one on Ethereum. *)
Lemma list_collections_page :
  exists members,
    (list_arbitrum_collections
       (Scenarios.collections_page
          (JArr [Scenarios.ethereum_collection; Scenarios.arbitrum_collection]))
       (mkDeps "key") 20 None initial).1
    = Resolved
        (JObj [("rateLimit",
                JObj [("limit", JNull); ("remaining", JNull); ("reset", JNull)]);
               ("nextCursor", JStr "page-2");
               ("data", JObj members)])
    /\ Js.assoc "collections" members
       = Some (JArr [Scenarios.arbitrum_collection])
    /\ Js.assoc "next" members = Some (JStr "page-2").
Proof.
  pose proof (fun result s1 =>
                list_collections_keeps_arbitrum
                  (Scenarios.collections_page
                     (JArr [Scenarios.ethereum_collection;
                            Scenarios.arbitrum_collection]))
                  (mkDeps "key") 20 None initial result s1
                  [Scenarios.ethereum_collection; Scenarios.arbitrum_collection])
    as H.
  edestruct H as (members & Hrun & Hcol & _ & Hrest);
    [vm_compute; reflexivity .. |].
  exists members. split; [by rewrite Hrun|]. split; [exact Hcol|].
  by rewrite Hrest.
Defined.

(** X14: list_arbitrum_collections rejects with a TypeError, after the
    request has been answered, when [collections] is an array with an
    entry on which the filter's test throws (a null entry, contracts
    that are not an array, a null contract before any contract on
    Arbitrum), or when [collections] is a truthy value that is not an
    array; when [collections] is absent or falsy the output lists no
    collection. *)
Theorem list_collections_malformed h deps lim cursor s result s1 :
  osFetch h "/api/v2/collections" (apiKey deps)
    (Some (collections_params lim cursor)) s = (Resolved result, s1) ->
  ((exists cs, Js.get (data result) "collections" = Some (JArr cs)
               /\ forallb readable cs = false)
   \/ (exists v, Js.get (data result) "collections" = Some v
                 /\ Js.truthy v = true /\ forall cs, v ≠ JArr cs) ->
   exists m,
     list_arbitrum_collections h deps lim cursor s
     = (Rejected (type_error m), s1))
  /\ (Js.truthy_opt (Js.get (data result) "collections") = false ->
      exists out,
        list_arbitrum_collections h deps lim cursor s = (Resolved out, s1)
        /\ (Js.get out "data" ≫= fun d => Js.get d "collections")
           = Some (JArr [])).
Proof.
  intros Hfetch. rewrite list_collections_eq. unfold bind. rewrite Hfetch.
  unfold arbitrum_only. split.
  - intros [(cs & -> & Hbad) | (v & -> & Htruthy & Hno)].
    + destruct (filter_arbitrum_unreadable cs Hbad) as [m ->]. by exists m.
    + rewrite Htruthy. destruct v; try by eexists. by destruct (Hno items).
  - intros Hfalsy.
    destruct (Js.get (data result) "collections") as [v|].
    + simpl in Hfalsy. rewrite Hfalsy. destruct v; try discriminate;
        (eexists; split; [reflexivity|]; cbn [Js.get Js.assoc bool_decide
           decide_rel mbind option_bind]; simpl; apply assoc_assign_eq).
    + eexists. split; [reflexivity|]. simpl. apply assoc_assign_eq.
Qed.

(** A page whose only entry is null. *)
Lemma list_collections_null_entry :
  exists m,
    list_arbitrum_collections (Scenarios.collections_page (JArr [JNull]))
      (mkDeps "key") 20 None initial
    = (Rejected (type_error m),
       sent (query_request (Scenarios.collections_page (JArr [JNull]))
               (mkDeps "key") "/api/v2/collections" [("limit", "20")])
            initial).
Proof.
  pose proof (fun result =>
                list_collections_malformed
                  (Scenarios.collections_page (JArr [JNull]))
                  (mkDeps "key") 20 None initial result
                  (sent (query_request (Scenarios.collections_page (JArr [JNull]))
                           (mkDeps "key") "/api/v2/collections" [("limit", "20")])
                        initial)) as H.
  edestruct H as [Hrej _]; [vm_compute; reflexivity|].
  apply Hrej. left. exists [JNull]. split; vm_compute; reflexivity.
Defined.

(** ** The queries of the two listing tools *)






(** ** get_collection *)

Lemma member_optional_slug fields k a :
  Zod.member fields k (Zod.optional CollectionSlugSchema) = inr a ->
  (Js.assoc k fields = None /\ a = None)
  \/ exists raw, Js.assoc k fields = Some (JStr raw)
                 /\ a = Some (trim raw) /\ trim raw ≠ "".
Proof.
  unfold Zod.member, Zod.optional.
  destruct (Js.assoc k fields) as [v|] eqn:Hk; [|intros [= <-]; by left].
  destruct (CollectionSlugSchema (Some v)) as [issues | out] eqn:Hv;
    [discriminate|].
  intros [= <-]. apply slug_schema_inr in Hv as [Hne (raw & [= ->] & ->)].
  right. by exists raw.
Qed.

Lemma slug_members_inr fields slug :
  slug_members fields = inr slug ->
  match first_present fields SLUG_ALIASES with
  | None => slug = None
  | Some k =>
      exists raw, Js.assoc k fields = Some (JStr raw)
                  /\ slug = Some (trim raw) /\ trim raw ≠ ""
  end.
Proof.
  unfold slug_members.
  destruct (Zod.both _ _) as [issues | [[a b] [c d]]] eqn:Hboth; [discriminate|].
  intros [= <-].
  apply ToolFacts.both_inr in Hboth as [Hab Hcd].
  apply ToolFacts.both_inr in Hab as [Ha Hb].
  apply ToolFacts.both_inr in Hcd as [Hc Hd].
  apply member_optional_slug in Ha, Hb, Hc, Hd.
  unfold first_present, SLUG_ALIASES. cbn [List.find].
  destruct Ha as [[-> ->] | (raw & Hraw & -> & Hne)];
    [|rewrite Hraw; by exists raw].
  destruct Hb as [[-> ->] | (raw & Hraw & -> & Hne)];
    [|rewrite Hraw; by exists raw].
  destruct Hc as [[-> ->] | (raw & Hraw & -> & Hne)];
    [|rewrite Hraw; by exists raw].
  destruct Hd as [[-> ->] | (raw & Hraw & -> & Hne)];
    [|rewrite Hraw; by exists raw].
  reflexivity.
Qed.

(** X16: get_collection fetches the path [/api/v2/collections/<slug>]
    without search parameters and answers with the rate limit and the
    data of that fetch, where the slug is never empty: it is the trimmed
    value of the first of [collection_slug], [collectionSlug], [slug],
    [collection] that the arguments have, or else the default slug
    [alchemy-denver2025-blue] (no alias given, or arguments that fail
    the schema).  When the slug is a plain path segment (letters, digits,
    [-], [_], [~]), every request of the call, at least one, is for that
    path as it is written, without a query. *)
Theorem collection_slug_resolution h deps unparsed s :
  exists slug,
    slug ≠ ""
    /\ (slug = DEFAULTS_collection_slug
        \/ exists fields k raw,
             unparsed = JObj fields
             /\ first_present fields SLUG_ALIASES = Some k
             /\ Js.assoc k fields = Some (JStr raw)
             /\ slug = trim raw)
    /\ get_collection h deps unparsed s
       = (result <- osFetch h ("/api/v2/collections/" +:+ slug) (apiKey deps)
                      None ;;
          ret (JObj [("rateLimit", rateLimit_json (rateLimit result));
                     ("data", data result)])) s
    /\ (url_plain slug = true ->
        exists n,
          1 <= n
          /\ issued (get_collection h deps unparsed s).2
             = issued s
               ++ repeat (query_request h deps ("/api/v2/collections/" +:+ slug)
                            []) n).
Proof.
  assert (forall slug,
            exists n,
              1 <= n
              /\ issued ((result <- osFetch h ("/api/v2/collections/" +:+ slug)
                                      (apiKey deps) None ;;
                          ret (JObj [("rateLimit",
                                      rateLimit_json (rateLimit result));
                                     ("data", data result)])) s).2
                 = issued s
                   ++ repeat (query_request h deps
                                ("/api/v2/collections/" +:+ slug) []) n)
    as Hrequests.
  { intros slug.
    destruct (ToolFacts.osFetch_requests h ("/api/v2/collections/" +:+ slug)
                (apiKey deps) None s) as (n & Hn & Hiss).
    exists n. by rewrite ToolFacts.bind_ret_state. }
  unfold get_collection.
  destruct (GetCollectionSchemaRaw unparsed) as [issues | d] eqn:Hparse.
  - exists DEFAULTS_collection_slug.
    split; [done|]. split; [by left|]. split; [reflexivity|].
    intros _. apply Hrequests.
  - unfold GetCollectionSchemaRaw, Zod.object in Hparse.
    destruct unparsed as [| | | | |fields]; try discriminate.
    destruct (slug_members fields) as [issues | slug] eqn:Hmembers;
      [discriminate|].
    destruct (negb (truthy_str slug)) eqn:Htruthy; [discriminate|].
    injection Hparse as <-.
    apply slug_members_inr in Hmembers.
    destruct (first_present fields SLUG_ALIASES) as [k|] eqn:Hfirst.
    + destruct Hmembers as (raw & Hraw & -> & Hne).
      exists (trim raw). split; [done|].
      split; [right; by exists fields, k, raw|]. split; [reflexivity|].
      intros _. apply Hrequests.
    + by subst slug.
Qed.

(** [slug] and [collection] given: [slug] comes first. *)
Lemma collection_slug_precedence :
  exists n, 1 <= n
    /\ issued (get_collection Simulated.one_order (mkDeps "key")
                 (JObj [("collection", JStr "azuki");
                        ("slug", JStr " smol-brains ")]) initial).2
       = repeat (query_request Simulated.one_order (mkDeps "key")
                   "/api/v2/collections/smol-brains" []) n.
Proof.
  destruct (collection_slug_resolution Simulated.one_order (mkDeps "key")
              (JObj [("collection", JStr "azuki");
                     ("slug", JStr " smol-brains ")]) initial)
    as (slug & _ & Hslug & _ & Hreq).
  destruct Hslug as [-> | (fields & k & raw & [= <-] & Hk & Hraw & ->)].
  - exfalso. destruct (Hreq eq_refl) as (n & Hn & Hiss).
    vm_compute in Hiss. destruct n; [lia | discriminate Hiss].
  - vm_compute in Hk. injection Hk as <-.
    vm_compute in Hraw. injection Hraw as <-.
    destruct (Hreq eq_refl) as (n & Hn & Hiss).
    exists n. split; [done | exact Hiss].
Defined.

(** ** get_listings_by_asset and get_offers_by_asset *)

Lemma member_optional_address fields k a :
  Zod.member fields k (Zod.optional EthAddressSchema) = inr a ->
  forall c, a = Some c -> address_shape c = true.
Proof.
  unfold Zod.member, Zod.optional.
  destruct (Js.assoc k fields) as [v|]; [|by intros [= <-]].
  destruct (EthAddressSchema (Some v)) as [issues | out] eqn:Hv; [discriminate|].
  intros [= <-] c [= <-]. by apply address_schema_inr in Hv as (raw & _ & _ & ?).
Qed.

Lemma member_optional_token fields k a :
  Zod.member fields k (Zod.optional TokenIdSchema) = inr a ->
  forall t, a = Some t -> t ≠ "" /\ trimmed t = true.
Proof.
  unfold Zod.member, Zod.optional.
  destruct (Js.assoc k fields) as [v|]; [|by intros [= <-]].
  destruct (TokenIdSchema (Some v)) as [issues | out] eqn:Hv; [discriminate|].
  intros [= <-] t [= <-].
  apply token_schema_inr in Hv as [Hne [(raw & _ & ->) | (n & _ & ->)]].
  - split; [done | apply trim_trimmed].
  - apply of_Z_trimmed.
Qed.

(** Arguments that pass the schema of the asset tools carry a canonical
    address and a token id that is not empty. *)
Lemma asset_parsed unparsed args :
  GetAssetListingsSchemaRaw unparsed = inr args ->
  exists contract token,
    a_contract_address args = Some contract /\ address_shape contract = true
    /\ a_token_id args = Some token /\ token ≠ "" /\ trimmed token = true.
Proof.
  unfold GetAssetListingsSchemaRaw, Zod.object.
  destruct unparsed as [| | | | |fields]; try done.
  destruct (Zod.both _ _)
    as [|[[[ca1 ca2] [t1 t2]] [[[s1 s2] [f1 f2]] [lim cursor]]]] eqn:Hboth;
    [done|].
  apply ToolFacts.both_inr in Hboth as [Hleft _].
  apply ToolFacts.both_inr in Hleft as [Hca Ht].
  apply ToolFacts.both_inr in Hca as [Hca1 Hca2].
  apply ToolFacts.both_inr in Ht as [Ht1 Ht2].
  cbv zeta. cbn [a_contract_address a_token_id].
  destruct (Zod.coalesce ca1 ca2) as [contract|] eqn:Hcontract;
    [|simpl; discriminate].
  destruct (Zod.coalesce t1 t2) as [token|] eqn:Htoken;
    [|simpl; destruct (negb _); discriminate].
  assert (address_shape contract = true) as Hshape.
  { destruct ca1 as [c|]; simpl in Hcontract.
    - eapply member_optional_address; [exact Hca1 | by rewrite Hcontract].
    - eapply member_optional_address; [exact Hca2 | done]. }
  assert (token ≠ "" /\ trimmed token = true) as [Hne Htrim].
  { destruct t1 as [t|]; simpl in Htoken.
    - eapply member_optional_token; [exact Ht1 | by rewrite Htoken].
    - eapply member_optional_token; [exact Ht2 | done]. }
  destruct (_ ++ _); [|discriminate]. intros [= <-]. simpl.
  by exists contract, token.
Qed.

Lemma default_contract_shape : address_shape DEFAULTS_contract = true.
Proof. vm_compute. reflexivity. Qed.

(** The asset handed to the plugin, and asked for over HTTP, always has
    a canonical address and a token id that is not empty. *)
Lemma asset_of_well_formed unparsed :
  let asset := asset_of (GetAssetListingsSchemaRaw unparsed) in
  address_shape (Nft.p_contractAddress asset) = true
  /\ String_ (Nft.p_tokenId asset) ≠ "".
Proof.
  unfold asset_of.
  destruct (GetAssetListingsSchemaRaw unparsed) as [issues | args] eqn:Hparse;
    cbn [Nft.p_contractAddress Nft.p_tokenId String_].
  - split; [apply default_contract_shape | done].
  - destruct (asset_parsed _ _ Hparse)
      as (contract & token & -> & Hshape & -> & Hne & _).
    unfold or_default. split.
    + destruct (truthy contract); [done | apply default_contract_shape].
    + by destruct (truthy token).
Qed.

Lemma empty_registry_unregistered : ~ opensea_registered (inr Nft.empty_registry).
Proof.
  intros (registry & plugin & [= <-] & Hp).
  unfold Nft.getNftPlugin, Nft.empty_registry in Hp. by rewrite lookup_empty in Hp.
Qed.

(** The handler, once the plugin-backed path has been left in state
    [s1], goes on as a handler without plugin from [s1]. *)
Lemma after_plugin_path (m : Thrown + Nft.Registry) s s1
    (X : Nft.NftPlugin -> M (option Json)) (K : option Json -> M Json) :
  try_catch
    (registry <- import_nft m ;;
     match Nft.getNftPlugin "opensea" registry with
     | Some plugin => X plugin
     | None => ret None
     end)
    (fun _ => ret None) s = (Resolved None, s1) ->
  bind (try_catch
          (registry <- import_nft m ;;
           match Nft.getNftPlugin "opensea" registry with
           | Some plugin => X plugin
           | None => ret None
           end)
          (fun _ => ret None)) K s
  = bind (try_catch
            (registry <- import_nft (inr Nft.empty_registry) ;;
             match Nft.getNftPlugin "opensea" registry with
             | Some plugin => X plugin
             | None => ret None
             end)
            (fun _ => ret None)) K s1.
Proof.
  intros Hleft. unfold bind at 1. rewrite Hleft.
  unfold bind at 1.
  by rewrite (ToolFacts.plugin_path_skipped (inr Nft.empty_registry) X s1
                empty_registry_unregistered).
Qed.

(** X17: whatever fails in the plugin-backed path of an asset tool
    is swallowed, and the tool goes on with the raw HTTP path as if no
    plugin were registered, from the state the failure left: when the
    import of the plugin module rejects, when the plugin's method
    rejects, and when the plugin finds no order and the collection query
    made in its place rejects. *)
Theorem plugin_failures_are_swallowed method segment tag h deps unparsed s :
  (forall t,
     asset_orders_handler method GetAssetListingsSchemaRaw segment tag h deps
       (inl t) unparsed s
     = asset_orders_handler method GetAssetListingsSchemaRaw segment tag h deps
         (inr Nft.empty_registry) unparsed s)
  /\ (forall registry plugin t s1,
        Nft.getNftPlugin "opensea" registry = Some plugin ->
        method plugin (asset_of (GetAssetListingsSchemaRaw unparsed)) s
        = (Rejected t, s1) ->
        asset_orders_handler method GetAssetListingsSchemaRaw segment tag h deps
          (inr registry) unparsed s
        = asset_orders_handler method GetAssetListingsSchemaRaw segment tag h deps
            (inr Nft.empty_registry) unparsed s1)
  /\ (forall registry plugin args slug s1 t s2,
        Nft.getNftPlugin "opensea" registry = Some plugin ->
        GetAssetListingsSchemaRaw unparsed = inr args ->
        a_fallback_to_collection args = Some true ->
        a_collection_slug args = Some slug ->
        method plugin (asset_of (GetAssetListingsSchemaRaw unparsed)) s
        = (Resolved (JArr []), s1) ->
        osFetch h (orders_endpoint segment) (apiKey deps)
          (Some (collection_params slug (a_limit args) (a_cursor args))) s1
        = (Rejected t, s2) ->
        asset_orders_handler method GetAssetListingsSchemaRaw segment tag h deps
          (inr registry) unparsed s
        = asset_orders_handler method GetAssetListingsSchemaRaw segment tag h deps
            (inr Nft.empty_registry) unparsed s2).
Proof.
  split; [|split].
  - intros t. unfold asset_orders_handler. cbv zeta.
    by apply after_plugin_path.
  - intros registry plugin t s1 Hplugin Hmethod.
    unfold asset_orders_handler. cbv zeta. apply after_plugin_path.
    unfold try_catch, bind, import_nft. unfold ret at 1. rewrite Hplugin.
    cbn [String_]. unfold asset_of in Hmethod. by rewrite Hmethod.
  - intros registry plugin args slug s1 t s2 Hplugin Hparse Hfb Hslug Hmethod Hcol.
    pose proof (ToolFacts.asset_slug_truthy _ _ _ Hparse Hslug) as Htruthy.
    unfold asset_orders_handler. cbv zeta. apply after_plugin_path.
    unfold try_catch, bind, import_nft. unfold ret at 1. rewrite Hplugin.
    cbn [String_]. unfold asset_of in Hmethod. rewrite Hmethod.
    rewrite Hparse, Hfb, Hslug.
    cbn [is_empty_array truthy_bool truthy_str default from_option id andb].
    rewrite Htruthy. cbn [andb].
    unfold orders_endpoint, collection_params in Hcol.
    change ("/api/v2/orders/" +:+ ARBITRUM_CHAIN +:+ "/seaport/" +:+ segment)
      with ("/api/v2/orders/arbitrum/seaport/" +:+ segment).
    by rewrite Hcol.
Qed.

(** The plugin finds no listing and the collection query is answered by
    404: the tool answers with the result of the asset query. *)
Lemma collection_failure_then_http :
  get_listings_by_asset Simulated.collection_query_fails (mkDeps "key")
    (inr (Simulated.opensea_only Simulated.collection_query_fails))
    Simulated.asset_args initial
  = get_listings_by_asset Simulated.collection_query_fails (mkDeps "key")
      (inr Nft.empty_registry) Simulated.asset_args
      (mkState
         [plugin_request Simulated.collection_query_fails
            (orders_endpoint "listings")
            (Some [("asset_contract_address",
                    QStr "0xe6270e46c9f99f00d459ca707298d8679f44b9ae");
                   ("token_ids", QStr "13")]);
          query_request Simulated.collection_query_fails (mkDeps "key")
            (orders_endpoint "listings") [("collection_slug", "smol-brains")]]
         []).
Proof.
  pose proof (fun args slug s1 t =>
                proj2 (proj2 (plugin_failures_are_swallowed Nft.getListings
                                "listings" "collection_listings"
                                Simulated.collection_query_fails (mkDeps "key")
                                Simulated.asset_args initial))
                  (Simulated.opensea_only Simulated.collection_query_fails)
                  (OpenSea.OpenSeaPlugin Simulated.collection_query_fails)
                  args slug s1 t) as H.
  eapply H.
  - vm_compute; reflexivity.
  - vm_compute; reflexivity.
  - vm_compute; reflexivity.
  - vm_compute; reflexivity.
  - vm_compute; reflexivity.
  - vm_compute; reflexivity.
Defined.

Lemma plugin_orders_run h path params s res d orders :
  network h (issued s) (plugin_request h path params) = inr res ->
  ok res = true ->
  body_json res = inr d ->
  Js.get d "orders" = Some orders ->
  orders ≠ JNull ->
  (res <- OpenSea.osFetch h path params ;; ret (OpenSea.orders_of res)) s
  = (Resolved orders, sent (plugin_request h path params) s).
Proof.
  intros Hnet Hok Hjson Horders Hnull.
  unfold bind. rewrite PluginMore.plugin_osFetch_run, Hnet, Hok, Hjson.
  unfold ret, OpenSea.orders_of. rewrite Horders. by destruct orders.
Qed.

(** X18: with the OpenSea plugin registered, an asset tool whose plugin
    request is answered by a success with orders (anything but null and
    the empty array) answers [{ data: { orders } }] after that single
    request: the request goes to the Arbitrum orders endpoint with the
    contract and the token as query and the API key of the environment,
    it is not retried, and the tool makes no request of its own. *)
Theorem plugin_orders_are_returned h deps registry unparsed s res d orders :
  Nft.getNftPlugin "opensea" registry = Some (OpenSea.OpenSeaPlugin h) ->
  body_json res = inr d ->
  ok res = true ->
  Js.get d "orders" = Some orders ->
  orders ≠ JNull ->
  is_empty_array orders = false ->
  (network h (issued s)
     (plugin_request h (orders_endpoint "listings")
        (Some (OpenSea.asset_query
                 (asset_of (GetAssetListingsSchemaRaw unparsed))))) = inr res ->
   get_listings_by_asset h deps (inr registry) unparsed s
   = (Resolved (JObj [("data", JObj [("orders", orders)])]),
      sent (plugin_request h (orders_endpoint "listings")
              (Some (OpenSea.asset_query
                       (asset_of (GetAssetListingsSchemaRaw unparsed))))) s))
  /\ (network h (issued s)
        (plugin_request h (orders_endpoint "offers")
           (Some (OpenSea.asset_query
                    (asset_of (GetAssetOffersSchemaRaw unparsed))))) = inr res ->
      get_offers_by_asset h deps (inr registry) unparsed s
      = (Resolved (JObj [("data", JObj [("orders", orders)])]),
         sent (plugin_request h (orders_endpoint "offers")
                 (Some (OpenSea.asset_query
                          (asset_of (GetAssetOffersSchemaRaw unparsed))))) s)).
Proof.
  intros Hplugin Hjson Hok Horders Hnull Hnonempty.
  split; intros Hnet.
  - assert (Nft.getListings (OpenSea.OpenSeaPlugin h)
              (asset_of (GetAssetListingsSchemaRaw unparsed)) s
            = (Resolved orders,
               sent (plugin_request h (orders_endpoint "listings")
                       (Some (OpenSea.asset_query
                                (asset_of (GetAssetListingsSchemaRaw unparsed)))))
                    s)) as Hcall
      by exact (plugin_orders_run h _ _ s res d orders Hnet Hok Hjson Horders Hnull).
    unfold get_listings_by_asset, asset_orders_handler. cbv zeta.
    unfold bind at 1. unfold try_catch. unfold bind at 1. unfold import_nft.
    unfold ret at 1. rewrite Hplugin. cbn [String_]. unfold bind at 1.
    unfold asset_of in Hcall at 1. rewrite Hcall. by rewrite Hnonempty.
  - assert (Nft.getOffers (OpenSea.OpenSeaPlugin h)
              (asset_of (GetAssetOffersSchemaRaw unparsed)) s
            = (Resolved orders,
               sent (plugin_request h (orders_endpoint "offers")
                       (Some (OpenSea.asset_query
                                (asset_of (GetAssetOffersSchemaRaw unparsed)))))
                    s)) as Hcall
      by exact (plugin_orders_run h _ _ s res d orders Hnet Hok Hjson Horders Hnull).
    unfold get_offers_by_asset, asset_orders_handler. cbv zeta.
    unfold bind at 1. unfold try_catch. unfold bind at 1. unfold import_nft.
    unfold ret at 1. rewrite Hplugin. cbn [String_]. unfold bind at 1.
    unfold asset_of in Hcall at 1. rewrite Hcall. by rewrite Hnonempty.
Qed.

(** The OpenSea plugin finds one offer of the asset. *)
Lemma plugin_offer_is_returned :
  get_offers_by_asset Simulated.one_order (mkDeps "key")
    (inr (Simulated.opensea_only Simulated.one_order)) Simulated.asset_args initial
  = (Resolved (JObj [("data", JObj [("orders", JArr [JStr "asset-order"])])]),
     sent (plugin_request Simulated.one_order (orders_endpoint "offers")
             (Some [("asset_contract_address",
                     QStr "0xe6270e46c9f99f00d459ca707298d8679f44b9ae");
                    ("token_ids", QStr "13")]))
          initial).
Proof.
  destruct (plugin_orders_are_returned Simulated.one_order (mkDeps "key")
              (Simulated.opensea_only Simulated.one_order)
              Simulated.asset_args initial
              (Simulated.response 200 {[ "x-ratelimit-remaining" := "7" ]} ""
                 (JObj [("orders", JArr [JStr "asset-order"])]))
              (JObj [("orders", JArr [JStr "asset-order"])])
              (JArr [JStr "asset-order"])) as [_ Hoffers].
  - vm_compute; reflexivity.
  - reflexivity.
  - reflexivity.
  - reflexivity.
  - discriminate.
  - reflexivity.
  - apply Hoffers. vm_compute; reflexivity.
Defined.

Lemma has_empty_orders_iff d :
  has_empty_orders d = true <-> Js.get d "orders" = Some (JArr []).
Proof.
  unfold has_empty_orders, is_empty_array.
  destruct (Js.get d "orders") as [[| | | |[|x l]|]|]; split; congruence.
Qed.

(** X19: the raw HTTP path of an asset tool, taken when no plugin is
    registered under [opensea].  On valid arguments the asset query is
    sent first.  When it finds an empty array of orders, the caller asked
    for the collection fallback and gave a slug, the collection query
    follows and its outcome is the outcome of the tool: its envelope with
    the fallback tag, or its rejection, which is not swallowed here.  In
    every other case the envelope of the asset query is the answer. *)
Theorem http_path_answers method segment tag h deps m unparsed args
    contract token s result s1 :
  ~ opensea_registered m ->
  GetAssetListingsSchemaRaw unparsed = inr args ->
  a_contract_address args = Some contract ->
  a_token_id args = Some token ->
  osFetch h (orders_endpoint segment) (apiKey deps)
    (Some (asset_params contract token (a_limit args) (a_cursor args))) s
  = (Resolved result, s1) ->
  (Js.get (data result) "orders" ≠ Some (JArr [])
   \/ a_fallback_to_collection args ≠ Some true
   \/ a_collection_slug args = None ->
   asset_orders_handler method GetAssetListingsSchemaRaw segment tag h deps m
     unparsed s
   = (Resolved (plain_envelope result), s1))
  /\ (forall slug outcome s2,
        Js.get (data result) "orders" = Some (JArr []) ->
        a_fallback_to_collection args = Some true ->
        a_collection_slug args = Some slug ->
        osFetch h (orders_endpoint segment) (apiKey deps)
          (Some (collection_params slug (a_limit args) (a_cursor args))) s1
        = (outcome, s2) ->
        asset_orders_handler method GetAssetListingsSchemaRaw segment tag h deps m
          unparsed s
        = (match outcome with
           | Resolved colResult => Resolved (tagged_envelope colResult tag)
           | Rejected t => Rejected t
           end, s2)).
Proof.
  intros Hnone Hparse Hcontract Htoken Hfetch.
  destruct (asset_parsed _ _ Hparse)
    as (contract' & token' & Hc & Hshape & Ht & Hne & _).
  rewrite Hcontract in Hc. injection Hc as <-.
  rewrite Htoken in Ht. injection Ht as <-.
  assert (or_default (Some contract) DEFAULTS_contract = contract) as Hc
    by (destruct contract; [discriminate Hshape | reflexivity]).
  assert (or_default (Some token) DEFAULTS_token_id = token) as Ht
    by (by destruct token).
  unfold orders_endpoint, asset_params in Hfetch.
  assert (forall out,
            (let fallback :=
               has_empty_orders (data result)
               && truthy_bool (a_fallback_to_collection args)
               && truthy_str (a_collection_slug args) in
             if fallback then
               (colResult <- osFetch h ("/api/v2/orders/arbitrum/seaport/" +:+ segment)
                               (apiKey deps)
                               (Some (with_limit_next
                                        [("collection_slug",
                                          QStr (default "" (a_collection_slug args)))]
                                        (a_limit args) (a_cursor args))) ;;
                ret (tagged_envelope colResult tag)) s1
             else (Resolved (plain_envelope result), s1)) = out ->
            asset_orders_handler method GetAssetListingsSchemaRaw segment tag h
              deps m unparsed s = out) as Hrun.
  { intros out <-. unfold asset_orders_handler. cbv zeta.
    unfold bind at 1. rewrite ToolFacts.plugin_path_skipped by done.
    rewrite Hparse, Hcontract, Htoken, Hc, Ht. cbn [String_].
    change ("/api/v2/orders/" +:+ ARBITRUM_CHAIN +:+ "/seaport/" +:+ segment)
      with ("/api/v2/orders/arbitrum/seaport/" +:+ segment).
    unfold bind at 1. rewrite Hfetch. by destruct (_ && _). }
  split; [intros Hplain | intros slug outcome s2 Horders Hfb Hslug Hcol];
    apply Hrun; cbv zeta.
  - assert (has_empty_orders (data result)
            && truthy_bool (a_fallback_to_collection args)
            && truthy_str (a_collection_slug args) = false) as ->; [|done].
    destruct Hplain as [Horders | [Hfb | Hslug]].
    + destruct (has_empty_orders (data result)) eqn:Hempty; [|done].
      by apply has_empty_orders_iff in Hempty.
    + destruct (a_fallback_to_collection args) as [[|]|]; try done.
      all: by rewrite andb_false_r.
    + rewrite Hslug. by rewrite andb_false_r.
  - pose proof (ToolFacts.asset_slug_truthy _ _ _ Hparse Hslug) as Htruthy.
    apply has_empty_orders_iff in Horders. rewrite Horders, Hfb, Hslug.
    cbn [truthy_bool truthy_str default from_option id andb].
    rewrite Htruthy.
    unfold orders_endpoint, collection_params in Hcol.
    unfold bind. rewrite Hcol. by destruct outcome.
Qed.

(** No plugin registered, no offer on the asset: the offers of the
    collection are the answer. *)
Lemma http_offers_fall_back :
  exists colResult s2,
    get_offers_by_asset Simulated.empty_then_collection (mkDeps "key")
      (inr Nft.empty_registry) Simulated.asset_args initial
    = (Resolved (tagged_envelope colResult "collection_offers"), s2)
    /\ data colResult
       = JObj [("orders", JArr [JStr "collection-order"]); ("next", JStr "page-2")]
    /\ length (issued s2) = 2.
Proof.
  pose proof (fun args contract token =>
                http_path_answers Nft.getOffers "offers" "collection_offers"
                  Simulated.empty_then_collection (mkDeps "key")
                  (inr Nft.empty_registry) Simulated.asset_args
                  args contract token initial) as H.
  edestruct H as [_ Hfb].
  - apply empty_registry_unregistered.
  - vm_compute; reflexivity.
  - vm_compute; reflexivity.
  - vm_compute; reflexivity.
  - vm_compute; reflexivity.
  - eexists _, _. split; [|split].
    + eapply (Hfb "smol-brains" (Resolved _) _).
      * vm_compute; reflexivity.
      * vm_compute; reflexivity.
      * vm_compute; reflexivity.
      * vm_compute; reflexivity.
    + reflexivity.
    + reflexivity.
Defined.



Lemma asset_url h path contract token lim cursor :
  osFetch_url h path (Some (asset_params contract token lim cursor))
  = mkURL (BASE h) path
      (("asset_contract_address", contract) :: ("token_ids", token)
       :: optional_pair "limit" (of_Z <$> lim) ++ optional_pair "next" cursor).
Proof. by destruct lim, cursor. Qed.

Lemma bind_issued {A B} (m : M A) (K : A -> M B) s :
  (forall a s1, exists rest, issued (K a s1).2 = issued s1 ++ rest) ->
  exists rest, issued (bind m K s).2 = issued (m s).2 ++ rest.
Proof.
  intros HK. unfold bind. destruct (m s) as [[a | t] s1]; [apply HK|].
  exists []. by rewrite app_nil_r.
Qed.

(** X21: without a plugin under [opensea], the first requests of an
    asset tool, whatever its arguments, are the asset query repeated
    once per attempt: it goes to the Arbitrum orders endpoint (spelled
    here for a plain segment, as [listings] and [offers] are) with
    [asset_contract_address], [token_ids], then [limit] as the string
    of the limit of the arguments (a safe integer) and [next] as their
    cursor, each exactly when the arguments pass the schema and give it;
    the address
    always has the canonical shape ([0x] and forty lower-case
    hexadecimal digits) and the token id is never empty. *)
Theorem asset_requests_well_formed method segment tag h deps m unparsed s :
  url_plain segment = true ->
  (forall l, asset_limit (GetAssetListingsSchemaRaw unparsed) = Some l ->
             safe_integer l = true) ->
  ~ opensea_registered m ->
  exists contract token lim cursor n rest,
    1 <= n
    /\ issued (asset_orders_handler method GetAssetListingsSchemaRaw segment
                 tag h deps m unparsed s).2
       = issued s
         ++ repeat
              (query_request h deps (orders_endpoint segment)
                 (("asset_contract_address", contract) :: ("token_ids", token)
                  :: optional_pair "limit" ((fun l => String_ (SNum l)) <$> lim)
                  ++ optional_pair "next" cursor)) n
         ++ rest
    /\ address_shape contract = true
    /\ token ≠ ""
    /\ Nft.mkGetAssetParams contract (SStr token) 42161
       = asset_of (GetAssetListingsSchemaRaw unparsed)
    /\ match GetAssetListingsSchemaRaw unparsed with
       | inr args => lim = a_limit args /\ cursor = a_cursor args
       | inl _ => lim = None /\ cursor = None
       end.
Proof.
  intros _ _ Hnone.
  destruct (asset_of_well_formed unparsed) as [Hshape Hne].
  set (parsed := GetAssetListingsSchemaRaw unparsed) in *.
  exists (Nft.p_contractAddress (asset_of parsed)),
         (String_ (Nft.p_tokenId (asset_of parsed))),
         (asset_limit parsed), (asset_cursor parsed).
  unfold asset_orders_handler. cbv zeta. fold parsed.
  unfold bind at 1. rewrite ToolFacts.plugin_path_skipped by done.
  match goal with
  | |- context [bind (osFetch h ?path ?key ?params) ?K s] =>
      destruct (bind_issued (osFetch h path key params) K s) as [rest Hrest];
        [|destruct (ToolFacts.osFetch_requests h path key params s)
            as (n & Hn & Hiss)]
  end.
  - intros a s1. destruct (_ && _).
    + rewrite ToolFacts.bind_ret_state.
      match goal with
      | |- context [osFetch h ?path ?key ?params s1] =>
          destruct (ToolFacts.osFetch_requests h path key params s1)
            as (n & _ & Hiss)
      end.
      eexists. exact Hiss.
    + exists []. by rewrite app_nil_r.
  - exists n, rest. split; [done|]. split; [|split; [done|]].
    + rewrite Hrest, Hiss, <- app_assoc. do 3 f_equal.
      unfold osFetch_request, query_request, orders_endpoint.
      f_equal. apply (asset_url h).
    + split; [done|]. split; [done|]. by destruct parsed.
Qed.

(** A call that gives a contract, a token, a limit and a cursor. *)
Lemma asset_requests_page :
  exists n rest, 1 <= n
    /\ issued (get_listings_by_asset Simulated.one_order (mkDeps "key")
                 (inr Nft.empty_registry)
                 (JObj [("contract_address",
                         JStr "0xE6270E46c9f99f00d459ca707298d8679f44b9ae");
                        ("token_id", JStr " 7 ");
                        ("limit", JNum 5); ("cursor", JStr "page-2")])
                 initial).2
       = repeat
           (query_request Simulated.one_order (mkDeps "key")
              (orders_endpoint "listings")
              [("asset_contract_address",
                "0xe6270e46c9f99f00d459ca707298d8679f44b9ae");
               ("token_ids", "7"); ("limit", "5"); ("next", "page-2")]) n
         ++ rest.
Proof.
  assert (forall l,
            asset_limit
              (GetAssetListingsSchemaRaw
                 (JObj [("contract_address",
                         JStr "0xE6270E46c9f99f00d459ca707298d8679f44b9ae");
                        ("token_id", JStr " 7 ");
                        ("limit", JNum 5); ("cursor", JStr "page-2")]))
            = Some l ->
            safe_integer l = true) as Hsafe.
  { intros l Hl. vm_compute in Hl. injection Hl as <-. reflexivity. }
  destruct (asset_requests_well_formed Nft.getListings "listings"
              "collection_listings" Simulated.one_order (mkDeps "key")
              (inr Nft.empty_registry)
              (JObj [("contract_address",
                      JStr "0xE6270E46c9f99f00d459ca707298d8679f44b9ae");
                     ("token_id", JStr " 7 ");
                     ("limit", JNum 5); ("cursor", JStr "page-2")]) initial
              eq_refl Hsafe empty_registry_unregistered)
    as (contract & token & lim & cursor & n & rest & Hn & Hiss & _ & _ & Hasset
        & Hpage).
  vm_compute in Hasset. injection Hasset as -> ->.
  vm_compute in Hpage. destruct Hpage as [-> ->].
  exists n, rest. split; [done | exact Hiss].
Defined.

End ToolMore.

(* ===================================================================== *)
(** * The get-asset tool of the NFT skill                                *)
(* ===================================================================== *)

Module SkillFacts.
Import Terms Nft NftSkill.
Local Open Scope list_scope.



End SkillFacts.

(* ===================================================================== *)
(** * The write tools                                                    *)
(* ===================================================================== *)

Module ActionFacts.
Import Terms OpenSeaActions.
Local Open Scope list_scope.

(** X23: the write tools are enabled by the value [true] of
    ENABLE_OPENSEA_WRITE and by nothing else (not by [TRUE], [1] or
    [yes]); while they are not enabled each of the nine tools answers
    with the same notice, whatever its arguments, and [parseEther] has no
    part in the answer. *)
Theorem write_tools_disabled (env : option string) (viem : Viem) (out : Json) :
  env ≠ Some "true" ->
  answer viem (ENABLE_WRITE_ACTIONS env) out ->
  out = disabled.
Proof.
  intros Henv. unfold ENABLE_WRITE_ACTIONS.
  rewrite bool_decide_eq_false_2 by done.
  by intros [].
Qed.

(** ENABLE_OPENSEA_WRITE=TRUE does not enable the tools. *)
Lemma write_tools_upper_case :
  wrap_weth Scenarios.viem_one_ether (ENABLE_WRITE_ACTIONS (Some "TRUE")) "1.0"
  = disabled.
Proof.
  apply (write_tools_disabled (Some "TRUE") Scenarios.viem_one_ether).
  - discriminate.
  - constructor.
Defined.

Lemma serialize_strings (ids : list string) :
  serialize (VArr (map VStr ids)) = inr (Some (JArr (map JStr ids))).
Proof.
  induction ids as [|x ids IH]; [reflexivity|].
  simpl in *.
  match goal with
  | |- context [?f (map VStr ids)] => destruct (f (map VStr ids)) as [t | r]
  end; [discriminate IH|].
  by injection IH as ->.
Qed.

Lemma serialize_cons k x l :
  serialize (VObj ((k, x) :: l))
  = match serialize x with
    | inl t => inl t
    | inr j =>
        match serialize (VObj l) with
        | inl t => inl t
        | inr (Some (JObj r)) =>
            inr (Some (JObj match j with
                            | Some y => (k, y) :: r
                            | None => r
                            end))
        | inr other => inr other
        end
    end.
Proof.
  simpl. destruct (serialize x) as [t | j]; [done|].
  match goal with
  | |- context [?f l] => destruct (f l) as [t | r]
  end; done.
Qed.

Lemma bulk_cancel_enabled ids ty :
  bulk_cancel true ids ty
  = JObj [("message", JStr "Bulk cancellation prepared successfully");
          ("orderIds", JArr (map JStr ids));
          ("orderType", JStr ty);
          ("count", JNum (Z.of_nat (length ids)));
          ("preparedTransaction",
           JObj [("to", JStr ZERO_ADDRESS); ("data", JStr "0x");
                 ("value", JStr "0"); ("chainId", JNum 42161)]);
          ("executed", JBool false);
          ("note", JStr "Transaction prepared but not executed (review required)")].
Proof.
  unfold bulk_cancel, respond. cbn [negb].
  rewrite (serialize_cons "message"), (serialize_cons "orderIds"),
    serialize_strings.
  reflexivity.
Qed.

Lemma amounts_fail (viem : Viem) :
  (forall c t p d cur,
     failure_report "Failed to prepare NFT listing" (list_nft viem true c t p d cur))
  /\ (forall c t p d ty cur,
        failure_report "Failed to prepare offer"
          (make_offer viem true c t p d ty cur))
  /\ (forall a, failure_report "Failed to prepare WETH wrap" (wrap_weth viem true a))
  /\ (forall a,
        failure_report "Failed to prepare WETH unwrap" (unwrap_weth viem true a))
  /\ (forall c t mp cur,
        failure_report "Failed to prepare NFT purchase" (buy_nft viem true c t mp cur)
        \/ prepared_only (buy_nft viem true c t mp cur)).
Proof.
  split; [|split; [|split; [|split]]].
  - intros c t p d cur. unfold list_nft, respond. cbn [negb].
    destruct (parseEther viem p); by eexists.
  - intros c t p d ty cur. unfold make_offer, respond. cbn [negb].
    destruct (parseEther viem p); [by eexists|]. destruct t; by eexists.
  - intros a. unfold wrap_weth, respond. cbn [negb].
    destruct (parseEther viem a); by eexists.
  - intros a. unfold unwrap_weth, respond. cbn [negb].
    destruct (parseEther viem a); by eexists.
  - intros c t mp cur. unfold buy_nft, respond. cbn [negb].
    destruct mp as [[|x mp]|]; cbn [Tools.truthy_str JsString.truthy default
      from_option id].
    + right. repeat split; try reflexivity. by eexists.
    + left. destruct (parseEther viem _); by eexists.
    + right. repeat split; try reflexivity. by eexists.
Qed.

(** X24: with the tools enabled, the four tools that take an amount
    never report a prepared transaction: list_nft, make_offer, wrap_weth
    and unwrap_weth put the [bigint] of [parseEther] into the object they
    serialize, so their answer is the failure report, with the text of
    the serialization error when [parseEther] accepted the amount and
    with that of [parseEther]'s error otherwise; buy_nft fails in the
    same way exactly when a maximal price is given, and prepares a
    purchase at market price otherwise. *)
Theorem amounts_are_not_serialized (viem : Viem) :
  (forall c t p d cur,
     list_nft viem true c t p d cur
     = failed "Failed to prepare NFT listing"
         match parseEther viem p with
         | inl error => error
         | inr _ => ThrownError (Err ClsTypeError BIGINT_MESSAGE)
         end)
  /\ (forall c t p d ty cur,
        make_offer viem true c t p d ty cur
        = failed "Failed to prepare offer"
            match parseEther viem p with
            | inl error => error
            | inr _ => ThrownError (Err ClsTypeError BIGINT_MESSAGE)
            end)
  /\ (forall a,
        wrap_weth viem true a
        = failed "Failed to prepare WETH wrap"
            match parseEther viem a with
            | inl error => error
            | inr _ => ThrownError (Err ClsTypeError BIGINT_MESSAGE)
            end)
  /\ (forall a,
        unwrap_weth viem true a
        = failed "Failed to prepare WETH unwrap"
            match parseEther viem a with
            | inl error => error
            | inr _ => ThrownError (Err ClsTypeError BIGINT_MESSAGE)
            end)
  /\ (forall c t mp cur,
        mp ≠ "" ->
        buy_nft viem true c t (Some mp) cur
        = failed "Failed to prepare NFT purchase"
            match parseEther viem mp with
            | inl error => error
            | inr _ => ThrownError (Err ClsTypeError BIGINT_MESSAGE)
            end)
  /\ (forall c t mp cur,
        mp = None \/ mp = Some "" ->
        prepared_only (buy_nft viem true c t mp cur)
        /\ Js.get (buy_nft viem true c t mp cur) "maxPrice"
           = Some (JStr "Market price")).
Proof.
  split; [|split; [|split; [|split; [|split]]]].
  - intros c t p d cur. unfold list_nft, respond. cbn [negb].
    by destruct (parseEther viem p).
  - intros c t p d ty cur. unfold make_offer, respond. cbn [negb].
    destruct (parseEther viem p); [done|]. by destruct t.
  - intros a. unfold wrap_weth, respond. cbn [negb].
    by destruct (parseEther viem a).
  - intros a. unfold unwrap_weth, respond. cbn [negb].
    by destruct (parseEther viem a).
  - intros c t mp cur Hmp. unfold buy_nft, respond. cbn [negb].
    destruct mp as [|x mp]; [done|]. cbn [Tools.truthy_str JsString.truthy
      default from_option id].
    by destruct (parseEther viem _).
  - intros c t mp cur [-> | ->]; (split; [|reflexivity]);
      (split; [reflexivity|]); (split; [reflexivity|]); by eexists.
Qed.

(** X25: what the write tools can answer.  Every answer of one of the
    nine tools is the notice that write actions are disabled, a failure
    report of that tool, or the report of a prepared transaction; such a
    report always says [executed: false], and its transaction is on chain
    42161 with the call data [0x] and the value [0].  approve_token,
    cancel_offer, transfer_nft and bulk_cancel, once enabled, always
    answer with such a report. *)
Theorem write_tools_answers (viem : Viem) (enabled : bool) :
  (forall out,
     answer viem enabled out ->
     out = disabled
     \/ (exists what, failure_report what out)
     \/ prepared_only out)
  /\ (forall c t o,
        prepared_only (approve_token true c t o)
        /\ Js.get (approve_token true c t o) "approvedOperator"
           = Some (JStr match o with
                        | Some x => if JsString.truthy x then x
                                    else DEFAULT_OPENSEA_CONDUIT
                        | None => DEFAULT_OPENSEA_CONDUIT
                        end))
  /\ (forall c t o, prepared_only (cancel_offer true c t o))
  /\ (forall c t to from, prepared_only (transfer_nft true c t to from))
  /\ (forall ids ty,
        prepared_only (bulk_cancel true ids ty)
        /\ Js.get (bulk_cancel true ids ty) "count"
           = Some (JNum (Z.of_nat (length ids)))
        /\ Js.get (bulk_cancel true ids ty) "orderIds"
           = Some (JArr (map JStr ids))).
Proof.
  assert (forall c t o, prepared_only (approve_token true c t o)) as Happrove.
  { intros c t o. repeat split; try reflexivity. by eexists. }
  assert (forall c t o, prepared_only (cancel_offer true c t o)) as Hcancel.
  { intros c [t|] o; (repeat split; try reflexivity); by eexists. }
  assert (forall c t to from, prepared_only (transfer_nft true c t to from))
    as Htransfer.
  { intros c t to [from|]; (repeat split; try reflexivity); by eexists. }
  assert (forall ids ty, prepared_only (bulk_cancel true ids ty)) as Hbulk.
  { intros ids ty. rewrite bulk_cancel_enabled.
    repeat split; try reflexivity. by eexists. }
  destruct (amounts_fail viem) as (Hlist & Hoffer & Hwrap & Hunwrap & Hbuy).
  split; [|split; [|split; [|split]]].
  - destruct enabled; [|intros out []; by left].
    intros out Hout. destruct Hout.
    + right; right. apply Happrove.
    + right; left. eexists. apply Hlist.
    + match goal with
      | |- context [buy_nft viem true ?c ?t ?mp ?cur] =>
          destruct (Hbuy c t mp cur) as [Hfail | Hok]
      end; [right; left | right; right]; [by eexists | done].
    + right; left. eexists. apply Hoffer.
    + right; right. apply Hcancel.
    + right; right. apply Htransfer.
    + right; left. eexists. apply Hwrap.
    + right; left. eexists. apply Hunwrap.
    + right; right. apply Hbulk.
  - intros c t o. split; [apply Happrove|]. by destruct o as [[|x o]|].
  - exact Hcancel.
  - exact Htransfer.
  - intros ids ty. split; [apply Hbulk|]. by rewrite bulk_cancel_enabled.
Qed.

(** One ether to wrap: the amount is read, and cannot be written. *)
Lemma wrap_one_ether :
  wrap_weth Scenarios.viem_one_ether true "1.0"
  = JObj [("error", JStr "Failed to prepare WETH wrap");
          ("details", JStr "Do not know how to serialize a BigInt")]
  /\ prepared_only
       (buy_nft Scenarios.viem_one_ether true
          "0xe6270e46c9f99f00d459ca707298d8679f44b9ae" "13" None ZERO_ADDRESS).
Proof.
  destruct (amounts_are_not_serialized Scenarios.viem_one_ether)
    as (_ & _ & Hwrap & _ & _ & Hbuy).
  split; [apply Hwrap|]. apply Hbuy. by left.
Defined.

(** Two orders to cancel. *)
Lemma bulk_cancel_two :
  prepared_only (bulk_cancel true ["order-1"; "order-2"] "all")
  /\ Js.get (bulk_cancel true ["order-1"; "order-2"] "all") "count"
     = Some (JNum 2).
Proof.
  destruct (write_tools_answers Scenarios.viem_rejects true)
    as (_ & _ & _ & _ & Hbulk).
  destruct (Hbulk ["order-1"; "order-2"] "all") as (Hprepared & Hcount & _).
  split; [exact Hprepared | exact Hcount].
Defined.

End ActionFacts.

(* ===================================================================== *)
(** * The shared schemas against those of the MCP server                 *)
(* ===================================================================== *)

Module CoreFacts.
Import JsString Terms StringMore SchemaMore.
Local Open Scope list_scope.

Lemma zero_cs c :
  RegExp.atom_matches false (RegExp.AChar "0") c = bool_decide (c = "0"%char).
Proof. destruct c as [[] [] [] [] [] [] [] []]; vm_compute; reflexivity. Qed.

Lemma x_cs c :
  RegExp.atom_matches false (RegExp.AChar "x") c = bool_decide (c = "x"%char).
Proof. destruct c as [[] [] [] [] [] [] [] []]; vm_compute; reflexivity. Qed.

Lemma hex_cs c :
  RegExp.atom_matches false hex_class_both c = lower_hex (toLowerChar c).
Proof. destruct c as [[] [] [] [] [] [] [] []]; vm_compute; reflexivity. Qed.

Lemma forallb_hex_both l :
  forallb (RegExp.atom_matches false hex_class_both) l
  = forallb lower_hex (map toLowerChar l).
Proof.
  induction l as [|c l IH]; cbn [forallb map]; [done|]. by rewrite hex_cs, IH.
Qed.

Lemma core_pattern n l :
  RegExp.test_at
    (RegExp.mk true [RegExp.lit "0x" ++ repeat hex_class_both n] true false) l
  = match l with
    | c0 :: c1 :: body =>
        bool_decide (c0 = "0"%char) && bool_decide (c1 = "x"%char)
        && (length body =? n)%nat && forallb lower_hex (map toLowerChar body)
    | _ => false
    end.
Proof.
  unfold RegExp.test_at, RegExp.alt_matches_at.
  cbn [RegExp.alts RegExp.ignoreCase RegExp.eol existsb RegExp.lit chars
       list_ascii_of_string map app RegExp.match_here].
  rewrite orb_false_r.
  destruct l as [|c0 [|c1 body]].
  - reflexivity.
  - rewrite zero_cs. by destruct (bool_decide _).
  - rewrite zero_cs, x_cs.
    destruct (bool_decide (c0 = _)); [|done].
    destruct (bool_decide (c1 = _)); [|done].
    rewrite repeat_to_the_end, forallb_hex_both. reflexivity.
Qed.

(** What [/^0x[a-fA-F0-9]{40}$/] accepts has, in lower case, the
    canonical shape, and starts with the lower-case prefix [0x]. *)
Lemma core_test t :
  RegExp.test NftCore.ADDRESS_RE t = true ->
  address_shape (toLowerCase t) = true
  /\ exists body, t = String "0" (String "x" body).
Proof.
  intros Htest. unfold RegExp.test in Htest.
  cbn [RegExp.bol NftCore.ADDRESS_RE] in Htest.
  change (RegExp.test_at NftCore.ADDRESS_RE (chars t))
    with (RegExp.test_at
            (RegExp.mk true [RegExp.lit "0x" ++ repeat hex_class_both 40]
               true false) (chars t)) in Htest.
  rewrite core_pattern in Htest.
  destruct t as [|c0 [|c1 body]]; try discriminate Htest.
  cbn [chars list_ascii_of_string] in Htest.
  apply andb_true_iff in Htest as [Htest Hhex].
  apply andb_true_iff in Htest as [Htest Hlen].
  apply andb_true_iff in Htest as [H0 H1].
  apply bool_decide_eq_true in H0 as ->. apply bool_decide_eq_true in H1 as ->.
  split; [|by exists body].
  unfold address_shape, toLowerCase. rewrite chars_of_chars.
  cbn [chars list_ascii_of_string map].
  rewrite !bool_decide_eq_true_2 by reflexivity.
  rewrite length_map, Hlen, Hhex. reflexivity.
Qed.

(** X26: the shared schemas of the NFT package against those of the MCP
    server.  An address that the shared [EthAddress] accepts is accepted
    by the server's [EthAddressSchema] too; the shared schema outputs it
    trimmed with its letters as they were, the server's in lower case;
    the shared schema wants the prefix [0x] in lower case.  The shared
    [TokenId] accepts every string, the empty one included, and outputs
    it as it is, white space around it included; it accepts every number
    and outputs its string form; it accepts nothing else.  A token id
    that the server's [TokenIdSchema] accepts is accepted by the shared
    [TokenId], and the server's output is the shared one trimmed. *)
Theorem shared_schemas_and_server (v : option Json) :
  (forall out,
     NftCore.EthAddress v = inr out ->
     (exists a body, v = Some (JStr a) /\ out = trim a
                     /\ out = String "0" (String "x" body))
     /\ Tools.EthAddressSchema v = inr (toLowerCase out))
  /\ (forall out,
        Tools.TokenIdSchema v = inr out ->
        exists raw, NftCore.TokenId v = inr raw /\ out = trim raw)
  /\ NftCore.TokenId (Some (JStr "")) = inr ""
  /\ (forall raw, NftCore.TokenId (Some (JStr raw)) = inr raw)
  /\ (forall n, NftCore.TokenId (Some (JNum n)) = inr (String_ (SNum n)))
  /\ (forall out,
        NftCore.TokenId v = inr out ->
        v = Some (JStr out) \/ exists n, v = Some (JNum n))
  /\ (forall raw,
        trim raw ≠ raw -> trim raw ≠ "" ->
        exists shared server,
          NftCore.TokenId (Some (JStr raw)) = inr shared
          /\ Tools.TokenIdSchema (Some (JStr raw)) = inr server
          /\ shared ≠ server).
Proof.
  split; [|split; [|split; [reflexivity|]]].
  - intros out. unfold NftCore.EthAddress, Zod.string_, Zod.fail.
    destruct v as [[| | |a| |]|]; try discriminate. cbv zeta.
    destruct (RegExp.test NftCore.ADDRESS_RE (trim a)) eqn:Htest; [|discriminate].
    intros [= <-]. destruct (core_test _ Htest) as [Hshape [body Hbody]].
    split; [by exists a, body|].
    apply address_schema_inr. by exists a.
  - intros out Hout.
    apply token_schema_inr in Hout as [Hne [(raw & -> & ->) | (n & -> & ->)]].
    + by exists raw.
    + exists (of_Z n). split; [reflexivity|].
      symmetry. apply trim_id, of_Z_trimmed.
  - split; [reflexivity|]. split; [reflexivity|]. split.
    + intros out. destruct v as [[| |n|raw| |]|]; try discriminate.
      * intros _. right. by exists n.
      * intros [= <-]. by left.
    + intros raw Hdiffers Hne. exists raw, (trim raw).
      split; [reflexivity|]. split; [|done].
      apply token_schema_inr. split; [done|]. left. by exists raw.
Qed.

(** An address with upper-case digits, one with the prefix [0X], and a
    token id with spaces around it. *)
Lemma shared_address_examples :
  Tools.EthAddressSchema
    (Some (JStr " 0xE6270E46C9F99F00D459CA707298D8679F44B9AE"))
  = inr "0xe6270e46c9f99f00d459ca707298d8679f44b9ae"
  /\ Zod.success
       (NftCore.EthAddress
          (Some (JStr "0XE6270E46C9F99F00D459CA707298D8679F44B9AE"))) = false
  /\ Zod.success
       (Tools.EthAddressSchema
          (Some (JStr "0XE6270E46C9F99F00D459CA707298D8679F44B9AE"))) = true
  /\ NftCore.TokenId (Some (JStr " 13 ")) = inr " 13 "
  /\ Tools.TokenIdSchema (Some (JStr " 13 ")) = inr "13".
Proof.
  split; [|split; [|split; [|split]]]; [|vm_compute; reflexivity ..].
  apply (proj1 (shared_schemas_and_server
                  (Some (JStr " 0xE6270E46C9F99F00D459CA707298D8679F44B9AE")))
           "0xE6270E46C9F99F00D459CA707298D8679F44B9AE").
  vm_compute. reflexivity.
Defined.

End CoreFacts.

(* ===================================================================== *)
(** * What the read tools answer                                         *)
(* ===================================================================== *)

Module EnvelopeFacts.
Import JsString Spec Terms OpenSeaMcp Tools ToolMore.
Local Open Scope list_scope.

Lemma wallet_answer h deps unparsed s out s' :
  get_wallet_nfts h deps unparsed s = (Resolved out, s') ->
  exists path params result,
    osFetch h path (apiKey deps) params s = (Resolved result, s')
    /\ out = plain_envelope result.
Proof.
  unfold get_wallet_nfts, bind, ret.
  match goal with
  | |- context [osFetch h ?path ?key ?params s] =>
      destruct (osFetch h path key params s) as [[result | t] s1] eqn:Hfetch;
        [|discriminate]; intros [= <- <-]; by exists path, params, result
  end.
Qed.

Lemma collection_answer h deps unparsed s out s' :
  get_collection h deps unparsed s = (Resolved out, s') ->
  exists path result,
    osFetch h path (apiKey deps) None s = (Resolved result, s')
    /\ out = JObj [("rateLimit", rateLimit_json (rateLimit result));
                   ("data", data result)].
Proof.
  unfold get_collection, bind, ret.
  match goal with
  | |- context [osFetch h ?path ?key None s] =>
      destruct (osFetch h path key None s) as [[result | t] s1] eqn:Hfetch;
        [|discriminate]; intros [= <- <-]; by exists path, result
  end.
Qed.

Lemma list_collections_answer h deps lim cursor s out s' :
  list_arbitrum_collections h deps lim cursor s = (Resolved out, s') ->
  exists params result collections,
    osFetch h "/api/v2/collections" (apiKey deps) (Some params) s
    = (Resolved result, s')
    /\ arbitrum_only (data result) = inr collections
    /\ out = JObj [("rateLimit", rateLimit_json (rateLimit result));
                   ("nextCursor", next_only (data result));
                   ("data",
                    JObj (Js.assign "collections" (JArr collections)
                            (spread (data result))))].
Proof.
  rewrite list_collections_eq. unfold bind, ret, throw.
  destruct (osFetch h _ _ _ s) as [[result | t] s1] eqn:Hfetch; [|discriminate].
  destruct (arbitrum_only (data result)) as [t | collections] eqn:Hfilter;
    [discriminate|].
  intros [= <- <-]. by exists (collections_params lim cursor), result, collections.
Qed.

Lemma collection_listings_answer h deps unparsed s out s' :
  get_listings_by_collection h deps unparsed s = (Resolved out, s') ->
  exists params result,
    osFetch h (orders_endpoint "listings") (apiKey deps) (Some params) s
    = (Resolved result, s')
    /\ out = plain_envelope result.
Proof.
  unfold get_listings_by_collection, bind, ret.
  match goal with
  | |- context [osFetch h ?path ?key (Some ?params) s] =>
      destruct (osFetch h path key (Some params) s) as [[result | t] s1] eqn:Hfetch;
        [|discriminate]; intros [= <- <-]; by exists params, result
  end.
Qed.

Section AssetTool.
Context (method : Nft.NftPlugin -> Nft.GetAssetParams -> M Json)
        (segment tag : string) (h : Host) (deps : OpenSeaDeps) (unparsed : Json).

(** The raw HTTP path, which is the whole tool when no plugin is
    registered. *)
Lemma asset_raw_path s :
  asset_orders_handler method GetAssetListingsSchemaRaw segment tag h deps
    (inr Nft.empty_registry) unparsed s
  = match osFetch h (orders_endpoint segment) (apiKey deps)
            (Some (asset_query_of (GetAssetListingsSchemaRaw unparsed))) s with
    | (Rejected t, s1) => (Rejected t, s1)
    | (Resolved result, s1) =>
        if has_empty_orders (data result)
           && wants_fallback (GetAssetListingsSchemaRaw unparsed)
        then
          match osFetch h (orders_endpoint segment) (apiKey deps)
                  (Some (collection_query_of (GetAssetListingsSchemaRaw unparsed)))
                  s1 with
          | (Resolved colResult, s2) =>
              (Resolved (tagged_envelope colResult tag), s2)
          | (Rejected t, s2) => (Rejected t, s2)
          end
        else (Resolved (plain_envelope result), s1)
    end.
Proof.
  unfold asset_orders_handler. cbv zeta.
  unfold bind at 1.
  rewrite (ToolFacts.plugin_path_skipped (inr Nft.empty_registry) _ s
             empty_registry_unregistered).
  unfold bind at 1.
  unfold asset_query_of, collection_query_of, wants_fallback, asset_of,
    asset_limit, asset_cursor, asset_slug, orders_endpoint, asset_params,
    collection_params.
  cbn [Nft.p_contractAddress Nft.p_tokenId String_].
  change ("/api/v2/orders/" +:+ ARBITRUM_CHAIN +:+ "/seaport/" +:+ segment)
    with ("/api/v2/orders/arbitrum/seaport/" +:+ segment).
  destruct (osFetch h _ _ _ s) as [[result | t] s1]; [|reflexivity].
  rewrite <- andb_assoc.
  destruct (has_empty_orders (data result) && _); [|reflexivity].
  unfold bind, ret. by destruct (osFetch h _ _ _ s1) as [[colResult | t] s2].
Qed.

(** The plugin-backed path, and where it hands over to the raw one. *)
Lemma asset_plugin_path registry plugin s :
  Nft.getNftPlugin "opensea" registry = Some plugin ->
  asset_orders_handler method GetAssetListingsSchemaRaw segment tag h deps
    (inr registry) unparsed s
  = match method plugin (asset_of (GetAssetListingsSchemaRaw unparsed)) s with
    | (Rejected t, s1) =>
        asset_orders_handler method GetAssetListingsSchemaRaw segment tag h deps
          (inr Nft.empty_registry) unparsed s1
    | (Resolved orders, s1) =>
        if is_empty_array orders
           && wants_fallback (GetAssetListingsSchemaRaw unparsed)
        then
          match osFetch h (orders_endpoint segment) (apiKey deps)
                  (Some (collection_query_of (GetAssetListingsSchemaRaw unparsed)))
                  s1 with
          | (Resolved colResult, s2) =>
              (Resolved (tagged_envelope colResult tag), s2)
          | (Rejected t, s2) =>
              asset_orders_handler method GetAssetListingsSchemaRaw segment tag
                h deps (inr Nft.empty_registry) unparsed s2
          end
        else (Resolved (JObj [("data", JObj [("orders", orders)])]), s1)
    end.
Proof.
  intros Hplugin.
  destruct (method plugin (asset_of (GetAssetListingsSchemaRaw unparsed)) s)
    as [[orders | t] s1] eqn:Hmethod.
  2:{ unfold asset_orders_handler. cbv zeta. apply after_plugin_path.
      unfold try_catch, bind, import_nft. unfold ret at 1. rewrite Hplugin.
      cbn [String_]. unfold asset_of in Hmethod. by rewrite Hmethod. }
  destruct (is_empty_array orders
            && wants_fallback (GetAssetListingsSchemaRaw unparsed)) eqn:Hfb.
  - destruct (osFetch h (orders_endpoint segment) (apiKey deps)
                (Some (collection_query_of (GetAssetListingsSchemaRaw unparsed)))
                s1) as [[colResult | t] s2] eqn:Hcol.
    + unfold asset_orders_handler. cbv zeta.
      unfold bind at 1. unfold try_catch. unfold bind at 1. unfold import_nft.
      unfold ret at 1. rewrite Hplugin. cbn [String_]. unfold bind at 1.
      unfold asset_of in Hmethod. rewrite Hmethod.
      unfold wants_fallback, asset_slug in Hfb. rewrite andb_assoc in Hfb.
      rewrite Hfb.
      unfold collection_query_of, collection_params, asset_limit, asset_cursor,
        asset_slug, orders_endpoint in Hcol.
      change ("/api/v2/orders/" +:+ ARBITRUM_CHAIN +:+ "/seaport/" +:+ segment)
        with ("/api/v2/orders/arbitrum/seaport/" +:+ segment).
      unfold bind at 1. rewrite Hcol. reflexivity.
    + unfold asset_orders_handler. cbv zeta. apply after_plugin_path.
      unfold try_catch, bind, import_nft. unfold ret at 1. rewrite Hplugin.
      cbn [String_]. unfold asset_of in Hmethod. rewrite Hmethod.
      unfold wants_fallback, asset_slug in Hfb. rewrite andb_assoc in Hfb.
      rewrite Hfb.
      unfold collection_query_of, collection_params, asset_limit, asset_cursor,
        asset_slug, orders_endpoint in Hcol.
      change ("/api/v2/orders/" +:+ ARBITRUM_CHAIN +:+ "/seaport/" +:+ segment)
        with ("/api/v2/orders/arbitrum/seaport/" +:+ segment).
      by rewrite Hcol.
  - unfold asset_orders_handler. cbv zeta.
    unfold bind at 1. unfold try_catch. unfold bind at 1. unfold import_nft.
    unfold ret at 1. rewrite Hplugin. cbn [String_]. unfold bind at 1.
    unfold asset_of in Hmethod. rewrite Hmethod.
    unfold wants_fallback, asset_slug in Hfb. rewrite andb_assoc in Hfb.
    by rewrite Hfb.
Qed.

(** Once the plugin-backed path is left, the tool goes on as without
    plugin. *)
Lemma asset_after_plugin_path nft_module s s1 :
  plugin_path_left method segment h deps (GetAssetListingsSchemaRaw unparsed)
    nft_module s s1 ->
  asset_orders_handler method GetAssetListingsSchemaRaw segment tag h deps
    nft_module unparsed s
  = asset_orders_handler method GetAssetListingsSchemaRaw segment tag h deps
      (inr Nft.empty_registry) unparsed s1.
Proof.
  intros [t -> | registry -> Hnone | registry plugin t s0 -> Hplugin Hmethod
         | registry plugin orders s0 t s2 -> Hplugin Hmethod Hempty Hwants Hcol].
  - unfold asset_orders_handler. cbv zeta. by apply after_plugin_path.
  - unfold asset_orders_handler. cbv zeta. apply after_plugin_path.
    apply ToolFacts.plugin_path_skipped.
    intros (registry' & plugin & [= <-] & Hp). congruence.
  - by rewrite (asset_plugin_path registry plugin s Hplugin), Hmethod.
  - by rewrite (asset_plugin_path registry plugin s Hplugin), Hmethod, Hempty,
      Hwants, Hcol.
Qed.

(** Every successful answer of an asset tool, with what produced it. *)
Lemma asset_answers nft_module s out s' :
  asset_orders_handler method GetAssetListingsSchemaRaw segment tag h deps
    nft_module unparsed s = (Resolved out, s') ->
  (exists registry plugin orders,
     nft_module = inr registry
     /\ Nft.getNftPlugin "opensea" registry = Some plugin
     /\ method plugin (asset_of (GetAssetListingsSchemaRaw unparsed)) s
        = (Resolved orders, s')
     /\ out = JObj [("data", JObj [("orders", orders)])])
  \/ (exists colResult s1,
        wants_fallback (GetAssetListingsSchemaRaw unparsed) = true
        /\ osFetch h (orders_endpoint segment) (apiKey deps)
             (Some (collection_query_of (GetAssetListingsSchemaRaw unparsed))) s1
           = (Resolved colResult, s')
        /\ out = tagged_envelope colResult tag)
  \/ (exists result s1,
        osFetch h (orders_endpoint segment) (apiKey deps)
          (Some (asset_query_of (GetAssetListingsSchemaRaw unparsed))) s1
        = (Resolved result, s')
        /\ out = plain_envelope result).
Proof.
  assert (forall s1,
            asset_orders_handler method GetAssetListingsSchemaRaw segment tag h
              deps (inr Nft.empty_registry) unparsed s1 = (Resolved out, s') ->
            (exists colResult s2,
               wants_fallback (GetAssetListingsSchemaRaw unparsed) = true
               /\ osFetch h (orders_endpoint segment) (apiKey deps)
                    (Some (collection_query_of
                             (GetAssetListingsSchemaRaw unparsed))) s2
                  = (Resolved colResult, s')
               /\ out = tagged_envelope colResult tag)
            \/ (exists result s2,
                  osFetch h (orders_endpoint segment) (apiKey deps)
                    (Some (asset_query_of (GetAssetListingsSchemaRaw unparsed)))
                    s2
                  = (Resolved result, s')
                  /\ out = plain_envelope result)) as Hraw.
  { intros s1. rewrite asset_raw_path.
    destruct (osFetch h _ _ (Some (asset_query_of _)) s1)
      as [[result | t] s2] eqn:Hfetch; [|discriminate].
    destruct (has_empty_orders (data result)) eqn:Hempty; cbn [andb].
    - destruct (wants_fallback _) eqn:Hwants.
      + destruct (osFetch h _ _ (Some (collection_query_of _)) s2)
          as [[colResult | t] s3] eqn:Hcol; [|discriminate].
        intros [= <- <-]. left. by exists colResult, s2.
      + intros [= <- <-]. right. by exists result, s1.
    - intros [= <- <-]. right. by exists result, s1. }
  destruct nft_module as [t | registry].
  - rewrite (asset_after_plugin_path (inl t) s s); [|by eapply left_import_rejected].
    intros H. right. by apply (Hraw s).
  - destruct (Nft.getNftPlugin "opensea" registry) as [plugin|] eqn:Hplugin.
    2:{ rewrite (asset_after_plugin_path (inr registry) s s);
          [|by eapply left_no_plugin].
        intros H. right. by apply (Hraw s). }
    rewrite (asset_plugin_path registry plugin s Hplugin).
    destruct (method plugin _ s) as [[orders | t] s1] eqn:Hmethod.
    2:{ intros H. right. by apply (Hraw s1). }
    destruct (is_empty_array orders) eqn:Hempty; cbn [andb].
    + destruct (wants_fallback _) eqn:Hwants.
      * destruct (osFetch h _ _ (Some (collection_query_of _)) s1)
          as [[colResult | t] s2] eqn:Hcol.
        -- intros [= <- <-]. right; left. by exists colResult, s1.
        -- intros H. right. by apply (Hraw s2).
      * intros [= <- <-]. left. by exists registry, plugin, orders.
    + intros [= <- <-]. left. by exists registry, plugin, orders.
Qed.

End AssetTool.

(** C6, as the code has it: a successful answer of a read tool is the
    envelope [{ rateLimit, nextCursor?, data }] of the result of its
    fetch whenever the raw HTTP path produced it, which is always the
    case for get_wallet_nfts, get_collection, list_arbitrum_collections
    and get_listings_by_collection, and the same envelope with the
    fallback tag whenever the collection fallback produced it.  For
    get_listings_by_asset and get_offers_by_asset every successful answer
    is of one of three kinds: [{ data: { orders } }], without
    [rateLimit], for orders that a plugin registered under [opensea]
    produced; the tagged envelope of a collection query; the envelope of
    the asset query.  Orders of the plugin are answered as
    [{ data: { orders } }]; a collection query that succeeds after an
    empty plugin result is answered with the tagged envelope; and once
    the plugin-backed path is left, also with a plugin registered, the
    raw HTTP path answers with the envelope of its asset query or, after
    an empty result, with the tagged envelope of its collection query. *)
Theorem read_tool_envelopes h deps :
  (forall unparsed s out s',
     get_wallet_nfts h deps unparsed s = (Resolved out, s') ->
     exists path params result,
       osFetch h path (apiKey deps) params s = (Resolved result, s')
       /\ out = JObj [("rateLimit", rateLimit_json (rateLimit result));
                      ("nextCursor", next_or_next_cursor (data result));
                      ("data", data result)])
  /\ (forall unparsed s out s',
        get_collection h deps unparsed s = (Resolved out, s') ->
        exists path result,
          osFetch h path (apiKey deps) None s = (Resolved result, s')
          /\ out = JObj [("rateLimit", rateLimit_json (rateLimit result));
                         ("data", data result)])
  /\ (forall lim cursor s out s',
        list_arbitrum_collections h deps lim cursor s = (Resolved out, s') ->
        exists params result collections,
          osFetch h "/api/v2/collections" (apiKey deps) (Some params) s
          = (Resolved result, s')
          /\ arbitrum_only (data result) = inr collections
          /\ out = JObj [("rateLimit", rateLimit_json (rateLimit result));
                         ("nextCursor", next_only (data result));
                         ("data",
                          JObj (Js.assign "collections" (JArr collections)
                                  (spread (data result))))])
  /\ (forall unparsed s out s',
        get_listings_by_collection h deps unparsed s = (Resolved out, s') ->
        exists params result,
          osFetch h (orders_endpoint "listings") (apiKey deps) (Some params) s
          = (Resolved result, s')
          /\ out = JObj [("rateLimit", rateLimit_json (rateLimit result));
                         ("nextCursor", next_or_next_cursor (data result));
                         ("data", data result)])
  /\ get_listings_by_asset h deps
     = asset_orders_handler Nft.getListings GetAssetListingsSchemaRaw
         "listings" "collection_listings" h deps
  /\ get_offers_by_asset h deps
     = asset_orders_handler Nft.getOffers GetAssetListingsSchemaRaw
         "offers" "collection_offers" h deps
  /\ (forall method segment tag nft_module unparsed s,
        let tool :=
          asset_orders_handler method GetAssetListingsSchemaRaw segment tag
            h deps in
        let parsed := GetAssetListingsSchemaRaw unparsed in
        (forall out s',
           tool nft_module unparsed s = (Resolved out, s') ->
           (exists registry plugin orders,
              nft_module = inr registry
              /\ Nft.getNftPlugin "opensea" registry = Some plugin
              /\ method plugin (asset_of parsed) s = (Resolved orders, s')
              /\ out = JObj [("data", JObj [("orders", orders)])]
              /\ Js.get out "rateLimit" = None)
           \/ (exists colResult s1,
                 wants_fallback parsed = true
                 /\ osFetch h (orders_endpoint segment) (apiKey deps)
                      (Some (collection_query_of parsed)) s1
                    = (Resolved colResult, s')
                 /\ out = JObj [("rateLimit", rateLimit_json (rateLimit colResult));
                                ("nextCursor", next_or_next_cursor (data colResult));
                                ("data", data colResult);
                                ("fallback", JStr tag)])
           \/ (exists result s1,
                 osFetch h (orders_endpoint segment) (apiKey deps)
                   (Some (asset_query_of parsed)) s1
                 = (Resolved result, s')
                 /\ out = JObj [("rateLimit", rateLimit_json (rateLimit result));
                                ("nextCursor", next_or_next_cursor (data result));
                                ("data", data result)]))
        /\ (forall registry plugin orders s1,
              nft_module = inr registry ->
              Nft.getNftPlugin "opensea" registry = Some plugin ->
              method plugin (asset_of parsed) s = (Resolved orders, s1) ->
              is_empty_array orders && wants_fallback parsed = false ->
              tool nft_module unparsed s
              = (Resolved (JObj [("data", JObj [("orders", orders)])]), s1))
        /\ (forall registry plugin orders s1 colResult s2,
              nft_module = inr registry ->
              Nft.getNftPlugin "opensea" registry = Some plugin ->
              method plugin (asset_of parsed) s = (Resolved orders, s1) ->
              is_empty_array orders = true ->
              wants_fallback parsed = true ->
              osFetch h (orders_endpoint segment) (apiKey deps)
                (Some (collection_query_of parsed)) s1
              = (Resolved colResult, s2) ->
              tool nft_module unparsed s
              = (Resolved
                   (JObj [("rateLimit", rateLimit_json (rateLimit colResult));
                          ("nextCursor", next_or_next_cursor (data colResult));
                          ("data", data colResult);
                          ("fallback", JStr tag)]), s2))
        /\ (forall s1 result s2,
              plugin_path_left method segment h deps parsed nft_module s s1 ->
              osFetch h (orders_endpoint segment) (apiKey deps)
                (Some (asset_query_of parsed)) s1
              = (Resolved result, s2) ->
              (has_empty_orders (data result) && wants_fallback parsed = false ->
               tool nft_module unparsed s
               = (Resolved
                    (JObj [("rateLimit", rateLimit_json (rateLimit result));
                           ("nextCursor", next_or_next_cursor (data result));
                           ("data", data result)]), s2))
              /\ (forall colResult s3,
                    has_empty_orders (data result) = true ->
                    wants_fallback parsed = true ->
                    osFetch h (orders_endpoint segment) (apiKey deps)
                      (Some (collection_query_of parsed)) s2
                    = (Resolved colResult, s3) ->
                    tool nft_module unparsed s
                    = (Resolved
                         (JObj [("rateLimit", rateLimit_json (rateLimit colResult));
                                ("nextCursor",
                                 next_or_next_cursor (data colResult));
                                ("data", data colResult);
                                ("fallback", JStr tag)]), s3)))).
Proof.
  split; [intros *; apply wallet_answer|].
  split; [intros *; apply collection_answer|].
  split; [intros *; apply list_collections_answer|].
  split; [intros *; apply collection_listings_answer|].
  split; [reflexivity|]. split; [reflexivity|].
  intros method segment tag nft_module unparsed s tool parsed.
  split; [|split; [|split]].
  - intros out s' Hrun.
    destruct (asset_answers method segment tag h deps unparsed nft_module s
                out s' Hrun)
      as [(registry & plugin & orders & -> & Hplugin & Hmethod & ->)
         | [(colResult & s1 & Hwants & Hcol & ->)
           | (result & s1 & Hfetch & ->)]].
    + left. by exists registry, plugin, orders.
    + right; left. by exists colResult, s1.
    + right; right. by exists result, s1.
  - intros registry plugin orders s1 -> Hplugin Hmethod Hno. unfold tool.
    rewrite (asset_plugin_path method segment tag h deps unparsed registry
               plugin s Hplugin).
    fold parsed. by rewrite Hmethod, Hno.
  - intros registry plugin orders s1 colResult s2 -> Hplugin Hmethod Hempty
      Hwants Hcol. unfold tool.
    rewrite (asset_plugin_path method segment tag h deps unparsed registry
               plugin s Hplugin).
    fold parsed. by rewrite Hmethod, Hempty, Hwants, Hcol.
  - intros s1 result s2 Hleft Hfetch. unfold tool.
    rewrite (asset_after_plugin_path method segment tag h deps unparsed
               nft_module s s1 Hleft).
    rewrite asset_raw_path. fold parsed. rewrite Hfetch. split.
    + by intros ->.
    + intros colResult s3 -> -> Hcol. cbn [andb]. by rewrite Hcol.
Qed.

(** A wallet query answered by a success that carries one rate-limit
    header. *)
Lemma wallet_envelope_example :
  exists path params result,
    osFetch Simulated.only_remaining path "key" params initial
    = (Resolved result,
       (get_wallet_nfts Simulated.only_remaining (mkDeps "key") (JObj [])
          initial).2)
    /\ JObj [("rateLimit",
              JObj [("limit", JNull); ("remaining", JStr "42"); ("reset", JNull)]);
             ("nextCursor", JNull);
             ("data", JObj [("nfts", JArr [])])]
       = JObj [("rateLimit", rateLimit_json (rateLimit result));
               ("nextCursor", next_or_next_cursor (data result));
               ("data", data result)].
Proof.
  refine (proj1 (read_tool_envelopes Simulated.only_remaining (mkDeps "key"))
            (JObj []) initial _ _ _).
  vm_compute. reflexivity.
Defined.

End EnvelopeFacts.
